(** * Firewatch: hazard proximity ranking, alert engine and fetch client

    A shallow embedding of the core of the firewatch dashboard:
    - [lib/utils.ts]          action-text classification;
    - [lib/geo-utils.ts]      point/polygon distance and the proximity ranking;
    - [hooks/use-alerts.ts]   the alert list and the two alert watches;
    - [lib/vic-emergency.ts]  the retrying fetch client;
    - [hooks/use-fire-events.ts] the delta-aware polling driver and the list
      of fire events;
    - [hooks/use-geolocation.ts], [components/user-location-panel.tsx] and
      [components/alert-banner.tsx]: the location state, the panel status
      and the hazard an alert links to.

    Conventions of the embedding.
    - A JavaScript string is a [string]; [toLowerCase] folds the ASCII letters,
      which is all that matters for the phrases the code searches for.
    - A JavaScript number that is a coordinate or a distance is a rational, and
      a distance may also be [Infinity]; NaN is outside the model. Comparisons,
      [Math.round] and [toFixed] are exact on the value of a double; the
      product [km * 1000] whose result is printed is rounded to the nearest
      double ([binary64]).
    - An optional or nullable value is an [option].
    - A React ref or state cell is a field of an explicit state record, and an
      effect is a function from the state to the new state and the list of
      alerts it asks for.
    - The turf geometry library and the network are outside the repository:
      they are variables of the sections that use them. *)

From Stdlib Require Import ZArith QArith Qabs Qround Qminmax Qpower Lqa Lia List Ascii String Sorted Permutation.
From stdpp Require Import base option list gmap strings pretty.

Local Open Scope Z_scope.

(* ===================================================================== *)
(** * Strings *)
(* ===================================================================== *)

(** [c.toLowerCase()] on one ASCII character. *)
Definition lower_ascii (c : ascii) : ascii :=
  let n := nat_of_ascii c in
  if (Nat.leb 65 n && Nat.leb n 90)%bool then ascii_of_nat (n + 32) else c.

(** [s.toLowerCase()]. *)
Fixpoint toLowerCase (s : string) : string :=
  match s with
  | EmptyString => EmptyString
  | String c rest => String (lower_ascii c) (toLowerCase rest)
  end.

(** [s.startsWith(search)]. *)
Fixpoint startsWith (s search : string) {struct search} : bool :=
  match search, s with
  | EmptyString, _ => true
  | String _ _, EmptyString => false
  | String a search', String b s' => (Ascii.eqb a b && startsWith s' search')%bool
  end.

(** [s.includes(search)]: [search] occurs at some position of [s]. *)
Fixpoint includes (s search : string) : bool :=
  (startsWith s search ||
   match s with
   | EmptyString => false
   | String _ rest => includes rest search
   end)%bool.

(** What [includes] decides: [search] is a contiguous part of [s]. *)
Definition Contains (s search : string) : Prop :=
  exists pre post : string, s = String.append pre (String.append search post).

(** JavaScript truthiness of a string: only the empty string is falsy. *)
Definition truthy (s : string) : bool :=
  match s with EmptyString => false | String _ _ => true end.

(* ===================================================================== *)
(** * lib/utils.ts *)
(* ===================================================================== *)

(** [getActionPriority(action?: string): number]. The guard [!action] holds
    for a missing action and for the empty string. *)
Definition getActionPriority (action : option string) : Z :=
  match action with
  | None => 0
  | Some a =>
      if negb (truthy a) then 0 else
      let normalizedAction := toLowerCase a in
      if includes normalizedAction "shelter" then 3
      else if includes normalizedAction "leave immediately" then 2
      else if includes normalizedAction "leave" then 1
      else 0
  end.

(* ===================================================================== *)
(** * Numbers, points and hazard events *)
(* ===================================================================== *)

(** A distance in kilometres: a rational, or JavaScript's [Infinity]. *)
Inductive num : Type :=
  | Fin (q : Q)
  | Infinity.

(** [a <= b]. *)
Definition num_leb (a b : num) : bool :=
  match a, b with
  | Fin x, Fin y => Qle_bool x y
  | _, Infinity => true
  | Infinity, Fin _ => false
  end.

(** [a < b]. *)
Definition num_ltb (a b : num) : bool :=
  match a, b with
  | Fin x, Fin y => negb (Qle_bool y x)
  | Fin _, Infinity => true
  | Infinity, _ => false
  end.

(** The sign of [a - b] as a sort comparator reports it. [Infinity - Infinity]
    is NaN, which [Array.prototype.sort] reads as [+0]. *)
Definition num_sub_sign (a b : num) : comparison :=
  match a, b with
  | Fin x, Fin y => Qcompare x y
  | Fin _, Infinity => Lt
  | Infinity, Fin _ => Gt
  | Infinity, Infinity => Eq
  end.

(** A position [[lng, lat]]. *)
Definition Point : Type := (Q * Q)%type.

(** [event.id : string | number]; a string and a number are never [===]. *)
Inductive EventId : Type :=
  | IdString (s : string)
  | IdNumber (n : Z).

#[global] Instance EventId_eq_dec : EqDecision EventId.
Proof. solve_decision. Defined.

Definition EventId_to_sum (i : EventId) : string + Z :=
  match i with IdString s => inl s | IdNumber n => inr n end.

Definition EventId_of_sum (x : string + Z) : EventId :=
  match x with inl s => IdString s | inr n => IdNumber n end.

#[global] Instance EventId_countable : Countable EventId.
Proof.
  apply (inj_countable' EventId_to_sum EventId_of_sum).
  intros [s | n]; reflexivity.
Defined.

(** The fields of [EmergencyEvent] that the core reads. [updated] is the
    change fingerprint; [action] and [polygon] may be missing. *)
Record EmergencyEvent : Type := mkEvent {
  id : EventId;
  name : string;
  location : string;
  updated : string;
  action : option string;
  polygon : option (list Point)
}.

(* ===================================================================== *)
(** * lib/geo-utils.ts *)
(* ===================================================================== *)

Record ProximityResult : Type := mkProximity {
  event : EmergencyEvent;
  distance : num;
  isInside : bool;
  actionPriority : Z
}.

(** The comparator given to [sort] in [calculateProximity], by the sign of
    the number it returns: inside first, then the higher action priority, then
    the smaller distance. *)
Definition compareProximity (a b : ProximityResult) : comparison :=
  if negb (Bool.eqb (isInside a) (isInside b)) then
    (if isInside a then Lt else Gt)
  else if negb (actionPriority a =? actionPriority b) then
    Z.compare (actionPriority b - actionPriority a) 0
  else num_sub_sign (distance a) (distance b).

(** [Array.prototype.sort(cmp)]. ECMAScript requires the sort to be stable,
    so for a consistent comparator its result is the one stable sorted
    arrangement; insertion from the right computes it. *)
Section Sort.
Context {A : Type} (cmp : A -> A -> comparison).

Fixpoint sort_insert (x : A) (l : list A) : list A :=
  match l with
  | [] => [x]
  | y :: l' =>
      match cmp x y with
      | Gt => y :: sort_insert x l'
      | _ => x :: l
      end
  end.

Definition sort (l : list A) : list A := fold_right sort_insert [] l.
End Sort.

Section Geo.
(** [@turf/distance] in kilometres, and [@turf/boolean-point-in-polygon]
    applied to [point(coords)] and [polygon([ring])]; [None] stands for an
    exception thrown by one of the three turf calls. *)
Variable turf_distance : Point -> Point -> Q.
Variable turf_booleanPointInPolygon : Point -> list Point -> option bool.

Definition calculateDistance (from to : Point) : num :=
  Fin (turf_distance from to).

(** The ring with its first position appended when it is not already the
    last one. *)
Definition closeRing (polygonCoords : list Point) : list Point :=
  match head polygonCoords, last polygonCoords with
  | Some first, Some final =>
      if (negb (Qeq_bool (fst first) (fst final)) ||
          negb (Qeq_bool (snd first) (snd final)))%bool
      then polygonCoords ++ [first]
      else polygonCoords
  | _, _ => polygonCoords
  end.

(** [isPointInPolygon(coords, polygonCoords)]; the [try]/[catch] turns an
    exception into [false]. *)
Definition isPointInPolygon (coords : Point)
    (polygonCoords : option (list Point)) : bool :=
  match polygonCoords with
  | None => false
  | Some pc =>
      if (length pc <? 3)%nat then false
      else
        match turf_booleanPointInPolygon coords (closeRing pc) with
        | Some b => b
        | None => false
        end
  end.

(** [distanceToPolygon(coords, polygonCoords)]. *)
Definition distanceToPolygon (coords : Point)
    (polygonCoords : option (list Point)) : num :=
  match polygonCoords with
  | None => Infinity
  | Some pc =>
      if (length pc <? 3)%nat then Infinity
      else if isPointInPolygon coords polygonCoords then Fin 0
      else
        fold_left
          (fun minDist vertex =>
             let dist := calculateDistance coords vertex in
             if num_ltb dist minDist then dist else minDist)
          pc Infinity
  end.

(** The filter of [calculateProximity]: [e.polygon && e.polygon.length >= 3]. *)
Definition hasUsablePolygon (e : EmergencyEvent) : bool :=
  match polygon e with
  | None => false
  | Some pc => (3 <=? length pc)%nat
  end.

(** The [map] callback of [calculateProximity]. *)
Definition toProximity (loc : Point) (e : EmergencyEvent) : ProximityResult :=
  let inside := isPointInPolygon loc (polygon e) in
  let dist := if inside then Fin 0 else distanceToPolygon loc (polygon e) in
  {| event := e;
     distance := dist;
     isInside := inside;
     actionPriority := getActionPriority (action e) |}.

(** [calculateProximity(location, events)]. *)
Definition calculateProximity (loc : Point)
    (events : list EmergencyEvent) : list ProximityResult :=
  sort compareProximity (map (toProximity loc) (filter hasUsablePolygon events)).

(** [getNearestDanger(location, events)]. *)
Definition getNearestDanger (loc : Point)
    (events : list EmergencyEvent) : option ProximityResult :=
  head (calculateProximity loc events).
End Geo.

(** The binary exponent of a positive [x]: the [k] with
    [2^k <= x < 2^(k+1)]. *)
Definition floorLog2 (x : Q) : Z :=
  let k := Z.log2 (Qnum x) - Z.log2 (Zpos (Qden x)) in
  if Qle_bool (2 ^ k) x then k else k - 1.

(** The nearest integer, a tie going to the even one. *)
Definition roundHalfEven (x : Q) : Z :=
  let f := Qfloor x in
  match (x - inject_Z f ?= 1 # 2)%Q with
  | Lt => f
  | Gt => f + 1
  | Eq => if Z.even f then f else f + 1
  end.

(** The exponent of the last place of the double nearest to a positive [x]:
    53 significant bits, and not below the subnormal exponent -1074. *)
Definition binary64Exponent (x : Q) : Z := Z.max (floorLog2 x - 52) (-1074).

Definition binary64Pos (x : Q) : Q :=
  let e := binary64Exponent x in
  (inject_Z (roundHalfEven (x / 2 ^ e)) * 2 ^ e)%Q.

(** The value of the double an arithmetic operation returns for the exact
    result [x] (IEEE 754 binary64, round to nearest, ties to even), for a
    magnitude below 2^1024; above, the operation overflows to an infinity. *)
Definition binary64 (x : Q) : Q :=
  match (x ?= 0)%Q with
  | Eq => 0%Q
  | Gt => binary64Pos x
  | Lt => (- binary64Pos (- x))%Q
  end.

(** [Math.round(x)]: the nearest integer, a tie going up. *)
Definition mathRound (x : Q) : Z := Qfloor (x + (1 # 2)).

(** [x.toFixed(1)]: the sign, then the nearest number of tenths (the larger
    one on a tie) written with one decimal. *)
Definition toFixed1 (x : Q) : string :=
  let digits (y : Q) :=
    let n := mathRound (y * 10) in
    String.append (pretty (n / 10)) (String.append "." (pretty (n mod 10))) in
  if Qle_bool 0 x then digits x else String.append "-" (digits (- x)%Q).

(** [formatDistance(km)]. On [Infinity] both comparisons fail and
    [Math.round] returns [Infinity]. Below 1 km the metres are
    [Math.round] of the double [km * 1000]. A finite distance is taken to be
    below 10^21, where a whole number is written in plain digits. *)
Definition formatDistance (km : num) : string :=
  match km with
  | Infinity => "Infinitykm"
  | Fin q =>
      if num_ltb km (Fin 1) then
        String.append (pretty (mathRound (binary64 (q * 1000)))) "m"
      else if num_ltb km (Fin 10) then
        String.append (toFixed1 q) "km"
      else
        String.append (pretty (mathRound q)) "km"
  end.

(* ===================================================================== *)
(** * hooks/use-alerts.ts: the alert list *)
(* ===================================================================== *)

Inductive AlertType : Type := Proximity | ZoneChange | NewWarning.
Inductive Severity : Type := Critical | Warning | Info.

#[global] Instance AlertType_eq_dec : EqDecision AlertType.
Proof. solve_decision. Defined.
#[global] Instance Severity_eq_dec : EqDecision Severity.
Proof. solve_decision. Defined.

(** [interface Alert]. *)
Module Alert.
Record t : Type := mk {
  id : string;
  type : AlertType;
  severity : Severity;
  title : string;
  message : string;
  timestamp : Z;
  eventId : option EventId;
  dismissed : bool
}.
End Alert.

(** [Omit<Alert, 'id' | 'timestamp' | 'dismissed'>], the argument of
    [addAlert]. *)
Module AlertRequest.
Record t : Type := mk {
  type : AlertType;
  severity : Severity;
  title : string;
  message : string;
  eventId : option EventId
}.
End AlertRequest.

(** Auto-dismiss timeouts in milliseconds. *)
Definition AUTO_DISMISS_INFO : Z := 30000.
Definition AUTO_DISMISS_WARNING : Z := 60000.

(** [{ ...a, dismissed: true }]. *)
Definition markDismissed (a : Alert.t) : Alert.t :=
  {| Alert.id := Alert.id a;
     Alert.type := Alert.type a;
     Alert.severity := Alert.severity a;
     Alert.title := Alert.title a;
     Alert.message := Alert.message a;
     Alert.timestamp := Alert.timestamp a;
     Alert.eventId := Alert.eventId a;
     Alert.dismissed := true |}.

(** The state updater of [dismissAlert(id)], which is also the callback of
    the auto-dismiss timer:
    [prev.map(a => a.id === id ? { ...a, dismissed: true } : a)]. *)
Definition dismissAlert (id : string) (prev : list Alert.t) : list Alert.t :=
  map (fun a => if String.eqb (Alert.id a) id then markDismissed a else a) prev.

(** A pending [setTimeout]: the delay in milliseconds and the id of the alert
    its callback dismisses. *)
Record Timer : Type := mkTimer {
  delay : Z;
  target : string
}.

(** What [addAlert] reads from its environment: the two calls of [Date.now()]
    and [Math.random().toString(36).slice(2, 9)]. *)
Record Clock : Type := mkClock {
  dateNowForId : Z;
  randomSuffix : string;
  dateNowForTimestamp : Z
}.

(** The alert list ([activeAlerts]) with the timers still pending. *)
Record AlertStore : Type := mkStore {
  activeAlerts : list Alert.t;
  timers : list Timer
}.

(** The id [`${Date.now()}-${Math.random().toString(36).slice(2, 9)}`]. *)
Definition makeAlertId (c : Clock) : string :=
  String.append (pretty (dateNowForId c)) (String.append "-" (randomSuffix c)).

(** The alert [addAlert] builds from its argument. *)
Definition newAlertOf (c : Clock) (alert : AlertRequest.t) : Alert.t :=
  {| Alert.id := makeAlertId c;
     Alert.type := AlertRequest.type alert;
     Alert.severity := AlertRequest.severity alert;
     Alert.title := AlertRequest.title alert;
     Alert.message := AlertRequest.message alert;
     Alert.timestamp := dateNowForTimestamp c;
     Alert.eventId := AlertRequest.eventId alert;
     Alert.dismissed := false |}.

(** The timer [addAlert] starts for an alert of the given severity, if any. *)
Definition autoDismissTimer (s : Severity) (id : string) : list Timer :=
  if decide (s = Critical) then []
  else
    let timeout :=
      if decide (s = Warning) then AUTO_DISMISS_WARNING else AUTO_DISMISS_INFO in
    [ {| delay := timeout; target := id |} ].

(** [addAlert(alert)]: the new alert goes in front, the list is cut to 50,
    and a non-critical alert gets its auto-dismiss timer. *)
Definition addAlert (c : Clock) (alert : AlertRequest.t) (st : AlertStore)
    : AlertStore :=
  let newAlert := newAlertOf c alert in
  {| activeAlerts := take 50 (newAlert :: activeAlerts st);
     timers := timers st ++
               autoDismissTimer (AlertRequest.severity alert) (Alert.id newAlert) |}.

(** The [k]-th pending timer fires: it leaves the pending list and its
    callback runs. Nothing happens when there is no such timer. *)
Definition fireTimer (k : nat) (st : AlertStore) : AlertStore :=
  match timers st !! k with
  | None => st
  | Some t =>
      {| activeAlerts := dismissAlert (target t) (activeAlerts st);
         timers := delete k (timers st) |}
  end.

(** The consumer calls [dismissAlert(id)]. *)
Definition dismiss (id : string) (st : AlertStore) : AlertStore :=
  {| activeAlerts := dismissAlert id (activeAlerts st);
     timers := timers st |}.

(** [undismissedAlerts = activeAlerts.filter(a => !a.dismissed)]. *)
Definition undismissedAlerts (st : AlertStore) : list Alert.t :=
  filter (fun a => negb (Alert.dismissed a)) (activeAlerts st).

(** What can happen to the alert list, and the runs of such operations. *)
Inductive AlertOp : Type :=
  | OpAdd (c : Clock) (alert : AlertRequest.t)
  | OpDismiss (id : string)
  | OpFire (k : nat).

Definition applyOp (op : AlertOp) (st : AlertStore) : AlertStore :=
  match op with
  | OpAdd c alert => addAlert c alert st
  | OpDismiss id => dismiss id st
  | OpFire k => fireTimer k st
  end.

Definition emptyStore : AlertStore := {| activeAlerts := []; timers := [] |}.

(* ===================================================================== *)
(** * hooks/use-alerts.ts: the engine memory and the three effects *)
(* ===================================================================== *)

(** Proximity thresholds in kilometres. *)
Definition DANGER_THRESHOLD : num := Fin 5.
Definition CRITICAL_THRESHOLD : num := Fin 2.

(** The value kept in [previousNearestRef]. *)
Module Prev.
Record t : Type := mk {
  eventId : EventId;
  distance : num;
  isInside : bool
}.
End Prev.

(** The refs and the [isReady] state of one [useAlerts] instance. *)
Record EngineMemory : Type := mkMemory {
  isReady : bool;
  hasInitialized : bool;
  previousEvents : gmap EventId string;
  previousNearest : option Prev.t
}.

(** The refs and the state of a hook instance before its first render. *)
Definition initialMemory : EngineMemory :=
  {| isReady := false;
     hasInitialized := false;
     previousEvents := ∅;
     previousNearest := None |}.

(** [value || fallback] on an optional string. *)
Definition orElse (value : option string) (fallback : string) : string :=
  match value with
  | Some s => if truthy s then s else fallback
  | None => fallback
  end.

(** [!prevUpdated] for the result of [Map.get]: true when the key is missing
    and when the stored string is empty. *)
Definition isFalsy (v : option string) : bool :=
  match v with
  | None => true
  | Some s => negb (truthy s)
  end.

(** The snapshot written to [previousNearestRef]. *)
Definition snapshotOf (n : ProximityResult) : Prev.t :=
  {| Prev.eventId := id (event n);
     Prev.distance := distance n;
     Prev.isInside := isInside n |}.

(** The body of the [forEach] callback of the change-detection effect: the
    alerts it asks for and the memory it leaves. *)
Definition checkEvent (mem : gmap EventId string) (e : EmergencyEvent)
    : list AlertRequest.t * gmap EventId string :=
  let prevUpdated := mem !! id e in
  let currentUpdated := updated e in
  let asked :=
    if isFalsy prevUpdated then
      let action := orElse (toLowerCase <$> action e) EmptyString in
      if (includes action "shelter" || includes action "leave")%bool then
        [ {| AlertRequest.type := NewWarning;
             AlertRequest.severity :=
               if includes action "shelter" then Critical else Warning;
             AlertRequest.title :=
               String.append "New "
                 (String.append
                    (if includes action "shelter"
                     then "Shelter In Place" else "Evacuation")
                    " Warning");
             AlertRequest.message :=
               String.append (name e) (String.append ": " (location e));
             AlertRequest.eventId := Some (id e) |} ]
      else []
    else if negb (bool_decide (prevUpdated = Some currentUpdated)) then
      [ {| AlertRequest.type := ZoneChange;
           AlertRequest.severity := Info;
           AlertRequest.title := "Warning Updated";
           AlertRequest.message := String.append (name e) " has been updated";
           AlertRequest.eventId := Some (id e) |} ]
    else [] in
  (asked, <[id e := currentUpdated]> mem).

(** [events.forEach(...)] of the change-detection effect, threading the map
    and collecting the alerts in the order they are asked for. *)
Fixpoint checkEvents (mem : gmap EventId string) (events : list EmergencyEvent)
    : list AlertRequest.t * gmap EventId string :=
  match events with
  | [] => ([], mem)
  | e :: rest =>
      let '(asked, mem') := checkEvent mem e in
      let '(asked', mem'') := checkEvents mem' rest in
      (asked ++ asked', mem'')
  end.

Section Engine.
Variable turf_distance : Point -> Point -> Q.
Variable turf_booleanPointInPolygon : Point -> list Point -> option bool.

Let nearestDanger := getNearestDanger turf_distance turf_booleanPointInPolygon.

(** The one-time initialization effect: seeds the memory and, 500 ms later,
    sets [isReady]; the later step is [becomeReady]. *)
Definition initEffect (userLocation : option Point)
    (events : list EmergencyEvent) (m : EngineMemory) : EngineMemory :=
  if (hasInitialized m || (length events =? 0)%nat)%bool then m
  else
    {| isReady := isReady m;
       hasInitialized := true;
       previousEvents :=
         fold_left (fun mem e => <[id e := updated e]> mem) events
                   (previousEvents m);
       previousNearest :=
         match userLocation with
         | Some loc =>
             match nearestDanger loc events with
             | Some n => Some (snapshotOf n)
             | None => previousNearest m
             end
         | None => previousNearest m
         end |}.

(** The callback of [setTimeout(() => setIsReady(true), 500)]. *)
Definition becomeReady (m : EngineMemory) : EngineMemory :=
  {| isReady := true;
     hasInitialized := hasInitialized m;
     previousEvents := previousEvents m;
     previousNearest := previousNearest m |}.

(** The change-detection effect. *)
Definition changeEffect (events : list EmergencyEvent) (m : EngineMemory)
    : list AlertRequest.t * EngineMemory :=
  if negb (isReady m) then ([], m)
  else
    let '(asked, mem) := checkEvents (previousEvents m) events in
    (asked,
     {| isReady := isReady m;
        hasInitialized := hasInitialized m;
        previousEvents := mem;
        previousNearest := previousNearest m |}).

(** The three conditions the proximity effect computes. *)
Definition enteredZone (n : ProximityResult) (prev : option Prev.t) : bool :=
  (isInside n && negb (from_option Prev.isInside false prev))%bool.

Definition crossedCritical (n : ProximityResult) (prev : option Prev.t) : bool :=
  (num_leb (distance n) CRITICAL_THRESHOLD &&
   num_ltb CRITICAL_THRESHOLD (from_option Prev.distance Infinity prev))%bool.

Definition eventChanged (n : ProximityResult) (prev : option Prev.t) : bool :=
  negb (bool_decide (Prev.eventId <$> prev = Some (id (event n)))).

Definition enteredZoneAlert (n : ProximityResult) : AlertRequest.t :=
  {| AlertRequest.type := Proximity;
     AlertRequest.severity := Critical;
     AlertRequest.title := "⚠️ YOU ARE IN A DANGER ZONE";
     AlertRequest.message :=
       String.append "You are inside: "
         (String.append (name (event n))
            (String.append ". "
               (orElse (action (event n)) "Take action immediately!")));
     AlertRequest.eventId := Some (id (event n)) |}.

Definition crossedCriticalAlert (n : ProximityResult) : AlertRequest.t :=
  {| AlertRequest.type := Proximity;
     AlertRequest.severity := Critical;
     AlertRequest.title := "Danger Zone Very Close";
     AlertRequest.message :=
       String.append (name (event n))
         (String.append " is only "
            (String.append (formatDistance (distance n)) " away!"));
     AlertRequest.eventId := Some (id (event n)) |}.

Definition newNearestAlert (n : ProximityResult) : AlertRequest.t :=
  {| AlertRequest.type := Proximity;
     AlertRequest.severity := Warning;
     AlertRequest.title := "New Nearby Warning";
     AlertRequest.message :=
       String.append (name (event n))
         (String.append " is now the closest at "
            (formatDistance (distance n)));
     AlertRequest.eventId := Some (id (event n)) |}.

(** The [if]/[else if] chain of the proximity effect. *)
Definition proximityAlerts (n : ProximityResult) (prev : option Prev.t)
    : list AlertRequest.t :=
  if enteredZone n prev then [enteredZoneAlert n]
  else if (crossedCritical n prev && negb (isInside n))%bool
       then [crossedCriticalAlert n]
  else if (eventChanged n prev && num_leb (distance n) DANGER_THRESHOLD)%bool
       then [newNearestAlert n]
  else [].

(** The proximity effect. *)
Definition proximityEffect (userLocation : option Point)
    (events : list EmergencyEvent) (m : EngineMemory)
    : list AlertRequest.t * EngineMemory :=
  if negb (isReady m) then ([], m)
  else
    match userLocation with
    | None => ([], m)
    | Some loc =>
        if (length events =? 0)%nat then ([], m)
        else
          match nearestDanger loc events with
          | None => ([], m)
          | Some n =>
              (proximityAlerts n (previousNearest m),
               {| isReady := isReady m;
                  hasInitialized := hasInitialized m;
                  previousEvents := previousEvents m;
                  previousNearest := Some (snapshotOf n) |})
          end
    end.

(** One evaluation of a render with the given location and events: the
    effects run in the order the hook declares them. *)
Definition tick (userLocation : option Point) (events : list EmergencyEvent)
    (m : EngineMemory) : list AlertRequest.t * EngineMemory :=
  let m0 := initEffect userLocation events m in
  let '(changed, m1) := changeEffect events m0 in
  let '(near, m2) := proximityEffect userLocation events m1 in
  (changed ++ near, m2).
End Engine.

(* ===================================================================== *)
(** * lib/vic-emergency.ts: the retrying fetch client *)
(* ===================================================================== *)

(** [EmergencyDeltaResponse]. *)
Record EmergencyDeltaResponse : Type := mkDelta {
  lastModified : string;
  lastHash : string
}.

(** What [response.json()] yields: the delta document, the event collection
    (already mapped to events with their point and polygon extracted), or an
    exception for a body that does not parse. *)
Inductive Payload : Type :=
  | DeltaPayload (d : EmergencyDeltaResponse)
  | EventsPayload (evs : list EmergencyEvent)
  | Unparsable.

(** The parts of a [Response] the client looks at. *)
Record Response : Type := mkResponse {
  ok : bool;
  status : Z;
  statusText : string;
  body : Payload
}.

(** One call of [fetch]: it rejects with an error message or resolves with a
    response. *)
Inductive FetchOutcome : Type :=
  | Rejected (msg : string)
  | Resolved (r : Response).

(** What the client does to the outside, in order. *)
Inductive Effect : Type :=
  | Fetched (url : string)
  | Slept (ms : Z).

(** The world threaded through the client: how many [fetch] calls were made
    and the effects so far (latest last). *)
Record World : Type := mkWorld {
  calls : nat;
  trace : list Effect
}.

(** The outcome of a computation that may throw an [Error] with a message. *)
Inductive Result (A : Type) : Type :=
  | Ok (a : A)
  | Err (msg : string).
Arguments Ok {A} a.
Arguments Err {A} msg.

Definition IO (A : Type) : Type := World -> Result A * World.

Definition ret {A} (a : A) : IO A := fun w => (Ok a, w).
Definition throw {A} (msg : string) : IO A := fun w => (Err msg, w).
Definition bind {A B} (m : IO A) (k : A -> IO B) : IO B :=
  fun w =>
    match m w with
    | (Ok a, w') => k a w'
    | (Err msg, w') => (Err msg, w')
    end.
(** [try { m } catch (err) { h(err) }]. *)
Definition tryCatch {A} (m : IO A) (h : string -> IO A) : IO A :=
  fun w =>
    match m w with
    | (Ok a, w') => (Ok a, w')
    | (Err msg, w') => h msg w'
    end.

Declare Scope io_scope.
Delimit Scope io_scope with io.
Notation "'let!' x ':=' m 'in' k" := (bind m (fun x => k))
  (at level 10, x name, m at level 100, k at level 200) : io_scope.
Notation "'run!' m 'in' k" := (bind m (fun _ => k))
  (at level 10, m at level 100, k at level 200) : io_scope.

Definition deltaUrl : string := "https://emergency.vic.gov.au/public/osom-delta.json".
Definition eventsUrl : string := "https://emergency.vic.gov.au/public/events-geojson.json".

Section Client.
(** The network: the outcome of the [n]-th call of [fetch] (counting from
    0) when it asks for [url]. *)
Variable network : nat -> string -> FetchOutcome.

(** [await fetch(url)]. *)
Definition fetch (url : string) : IO Response :=
  fun w =>
    let w' := {| calls := S (calls w); trace := trace w ++ [Fetched url] |} in
    match network (calls w) url with
    | Rejected msg => (Err msg, w')
    | Resolved r => (Ok r, w')
    end.

(** [await new Promise(resolve => setTimeout(resolve, ms))]. *)
Definition sleep (ms : Z) : IO unit :=
  fun w => (Ok tt, {| calls := calls w; trace := trace w ++ [Slept ms] |}).

(** The message of [new Error(`HTTP ${status}: ${statusText}`)]. *)
Definition httpErrorMessage (r : Response) : string :=
  String.append "HTTP "
    (String.append (pretty (status r)) (String.append ": " (statusText r))).

(** The body of the [try] block of [fetchWithRetry]. *)
Definition attempt (url : string) : IO Response :=
  (let! response := fetch url in
   if negb (ok response) then throw (httpErrorMessage response)
   else ret response)%io.

(** The [for] loop of [fetchWithRetry] from index [i] on; [fuel] counts the
    iterations left, [retries - i]. *)
Fixpoint retryFrom (fuel : nat) (i retries : nat) (url : string) : IO Response :=
  match fuel with
  | O => throw "Fetch failed after retries"
  | S fuel' =>
      tryCatch (attempt url)
        (fun err =>
           let isLastAttempt := (i =? retries - 1)%nat in
           if isLastAttempt then throw err
           else (run! sleep (1000 * (Z.of_nat i + 1)) in
                 retryFrom fuel' (S i) retries url)%io)
  end.

(** [fetchWithRetry(url, retries = 3)]. *)
Definition fetchWithRetry (url : string) (retries : nat) : IO Response :=
  retryFrom retries 0 retries url.

Definition DEFAULT_RETRIES : nat := 3.

(** [VICEmergencyAPI.getDelta()]. *)
Definition getDelta : IO EmergencyDeltaResponse :=
  (let! response := fetchWithRetry deltaUrl DEFAULT_RETRIES in
   match body response with
   | DeltaPayload d => ret d
   | _ => throw "Unexpected token in JSON"
   end)%io.

(** [VICEmergencyAPI.getEvents()]. *)
Definition getEvents : IO (list EmergencyEvent) :=
  (let! response := fetchWithRetry eventsUrl DEFAULT_RETRIES in
   match body response with
   | EventsPayload evs => ret evs
   | _ => throw "Unexpected token in JSON"
   end)%io.

(* =================================================================== *)
(** * hooks/use-fire-events.ts: the polling driver *)
(* =================================================================== *)

(** The state cells of [useFireEvents]; [fetchedAt] is [lastUpdated]. *)
Record FireState : Type := mkFire {
  events : list EmergencyEvent;
  loading : bool;
  error : option string;
  lastKnownHash : option string;
  fetchedAt : option Z
}.

Definition initialFireState : FireState :=
  {| events := []; loading := true; error := None;
     lastKnownHash := None; fetchedAt := None |}.

(** The polling effect installs its interval unless [!lastHash]. *)
Definition pollingActive (s : FireState) : bool :=
  match lastKnownHash s with
  | Some h => truthy h
  | None => false
  end.

(** [init()] of the initial-load effect; [now] is [new Date()]. The delta
    request is started once the events are in, and its failure is
    swallowed. *)
Definition init (now : Z) (s : FireState) : World -> FireState * World :=
  fun w =>
    match getEvents w with
    | (Ok newEvents, w1) =>
        let s1 := {| events := newEvents; loading := false; error := error s;
                     lastKnownHash := lastKnownHash s; fetchedAt := Some now |} in
        match getDelta w1 with
        | (Ok delta, w2) =>
            ({| events := events s1; loading := loading s1; error := error s1;
                lastKnownHash := Some (lastHash delta);
                fetchedAt := fetchedAt s1 |}, w2)
        | (Err _, w2) => (s1, w2)
        end
    | (Err msg, w1) =>
        ({| events := events s; loading := false; error := Some msg;
            lastKnownHash := lastKnownHash s; fetchedAt := fetchedAt s |}, w1)
    end.

(** [checkForUpdates()], the interval callback of the polling effect. *)
Definition checkForUpdates (now : Z) (s : FireState) : World -> FireState * World :=
  fun w =>
    match getDelta w with
    | (Ok delta, w1) =>
        if negb (bool_decide (Some (lastHash delta) = lastKnownHash s)) then
          let s1 := {| events := events s; loading := loading s; error := error s;
                       lastKnownHash := Some (lastHash delta);
                       fetchedAt := fetchedAt s |} in
          match getEvents w1 with
          | (Ok newEvents, w2) =>
              ({| events := newEvents; loading := loading s1; error := error s1;
                  lastKnownHash := lastKnownHash s1; fetchedAt := Some now |}, w2)
          | (Err _, w2) => (s1, w2)
          end
        else (s, w1)
    | (Err _, w1) => (s, w1)
    end.

(** The interval fires: [checkForUpdates] runs when the interval is
    installed, and nothing happens otherwise. *)
Definition pollTick (now : Z) (s : FireState) : World -> FireState * World :=
  fun w => if pollingActive s then checkForUpdates now s w else (s, w).
End Client.

(** The id that [addAlert] draws is fresh for a store when no listed alert
    has it and no pending timer targets it. *)
Definition FreshId (c : Clock) (st : AlertStore) : Prop :=
  (forall a, a ∈ activeAlerts st -> Alert.id a <> makeAlertId c) /\
  (forall t, t ∈ timers st -> target t <> makeAlertId c).

(** The stores a hook instance can be in: it starts empty, and alerts are
    added (each with a fresh id), dismissed, and auto-dismissed by timers. *)
Inductive Reachable : AlertStore -> Prop :=
  | reach_empty : Reachable emptyStore
  | reach_add st c alert :
      Reachable st -> FreshId c st -> Reachable (addAlert c alert st)
  | reach_dismiss st id :
      Reachable st -> Reachable (dismiss id st)
  | reach_fire st k :
      Reachable st -> Reachable (fireTimer k st).

(** No pending timer targets a critical alert. *)
Definition TimersSpareCritical (st : AlertStore) : Prop :=
  forall t a, t ∈ timers st -> a ∈ activeAlerts st ->
    Alert.id a = target t -> Alert.severity a <> Critical.

(* ===================================================================== *)
(** * The order on distances and on proximity results, as propositions *)
(* ===================================================================== *)

(** [a <= b] and [a < b] on distances. *)
Definition num_le (a b : num) : Prop :=
  match a, b with
  | Fin x, Fin y => (x <= y)%Q
  | _, Infinity => True
  | Infinity, Fin _ => False
  end.

Definition num_lt (a b : num) : Prop :=
  match a, b with
  | Fin x, Fin y => (x < y)%Q
  | Fin _, Infinity => True
  | Infinity, _ => False
  end.

(** [a] may stand before [b] in a ranking: an inside result never follows an
    outside one; with equal [isInside] the action priority does not
    increase; with both equal the distance does not decrease. *)
Definition RankedBefore (a b : ProximityResult) : Prop :=
  (isInside b = true -> isInside a = true) /\
  (isInside a = isInside b -> actionPriority b <= actionPriority a) /\
  (isInside a = isInside b -> actionPriority a = actionPriority b ->
     num_le (distance a) (distance b)).

(* ===================================================================== *)
(** * The proximity conditions, as the specification words them *)
(* ===================================================================== *)

(** entered-zone: the nearest result is inside and the previous snapshot, if
    there is one, was not. *)
Definition EnteredZone (n : ProximityResult) (prev : option Prev.t) : Prop :=
  isInside n = true /\ (forall p, prev = Some p -> Prev.isInside p = false).

(** crossed-critical: not inside, at most 2 km away, and the previous
    distance (infinite without a snapshot) was more than 2 km. *)
Definition CrossedCritical (n : ProximityResult) (prev : option Prev.t) : Prop :=
  isInside n = false /\
  num_le (distance n) (Fin 2) /\
  num_lt (Fin 2)
         (match prev with Some p => Prev.distance p | None => Infinity end).

(** new-nearest-in-range: the nearest hazard is not the one of the previous
    snapshot, and it is at most 5 km away. *)
Definition NewNearestInRange (n : ProximityResult) (prev : option Prev.t) : Prop :=
  (forall p, prev = Some p -> Prev.eventId p <> id (event n)) /\
  num_le (distance n) (Fin 5).

(** The action text the change-detection watch looks at:
    [event.action?.toLowerCase() || '']. *)
Definition actionText (e : EmergencyEvent) : string :=
  orElse (toLowerCase <$> action e) EmptyString.

(* ===================================================================== *)
(** * Success and failure of one attempt *)
(* ===================================================================== *)

(** An attempt succeeds when [fetch] resolves with an [ok] response. *)
Definition success (o : FetchOutcome) : option Response :=
  match o with
  | Resolved r => if ok r then Some r else None
  | Rejected _ => None
  end.

(** It fails when [fetch] rejects and when the response is not [ok]; either
    way an error with a message is thrown inside the [try] block. *)
Definition failure (o : FetchOutcome) : option string :=
  match o with
  | Rejected msg => Some msg
  | Resolved r => if ok r then None else Some (httpErrorMessage r)
  end.

(* ===================================================================== *)
(** * Runs of the alert list *)
(* ===================================================================== *)

(** The store after a sequence of operations on the empty list, whatever
    ids the alerts draw. *)
Definition runOps (ops : list AlertOp) : AlertStore :=
  fold_left (fun st op => applyOp op st) ops emptyStore.

(* ===================================================================== *)
(** * lib/geo-utils.ts: the area report *)
(* ===================================================================== *)

(** Victoria's land area in square metres. *)
Definition VICTORIA_AREA_SQ_M : Q := (227444 * 1000000)%Q.

(** The value [calculateFireWarningAreas] returns. *)
Record AreaReport : Type := mkAreaReport {
  shelterAreaKm2 : Q;
  leaveImmediatelyAreaKm2 : Q;
  leaveAreaKm2 : Q;
  totalWarningAreaKm2 : Q;
  shelterPercent : Q;
  leaveImmediatelyPercent : Q;
  leavePercent : Q;
  totalPercent : Q
}.

(** The three running sums of the [forEach] of [calculateFireWarningAreas]. *)
Record AreaSums : Type := mkAreaSums {
  shelterSum : Q;
  leaveImmediatelySum : Q;
  leaveSum : Q
}.

Section Area.
(** [@turf/area] of [polygon([ring])] in square metres; [None] stands for an
    exception thrown by [polygon] or by [area]. *)
Variable turf_area : list Point -> option Q.

(** [calculatePolygonAreaKm2(coords)]. *)
Definition calculatePolygonAreaKm2 (coords : option (list Point)) : Q :=
  match coords with
  | None => 0
  | Some cs =>
      if (length cs <? 3)%nat then 0
      else
        match turf_area (closeRing cs) with
        | Some areaM2 => (areaM2 / 1000000)%Q
        | None => 0
        end
  end.

(** The body of the [forEach] callback of [calculateFireWarningAreas]. *)
Definition addArea (sums : AreaSums) (e : EmergencyEvent) : AreaSums :=
  match polygon e with
  | None => sums
  | Some _ =>
      let areaKm2 := calculatePolygonAreaKm2 (polygon e) in
      let action := orElse (toLowerCase <$> action e) EmptyString in
      if includes action "shelter" then
        {| shelterSum := (shelterSum sums + areaKm2)%Q;
           leaveImmediatelySum := leaveImmediatelySum sums;
           leaveSum := leaveSum sums |}
      else if includes action "leave immediately" then
        {| shelterSum := shelterSum sums;
           leaveImmediatelySum := (leaveImmediatelySum sums + areaKm2)%Q;
           leaveSum := leaveSum sums |}
      else if includes action "leave" then
        {| shelterSum := shelterSum sums;
           leaveImmediatelySum := leaveImmediatelySum sums;
           leaveSum := (leaveSum sums + areaKm2)%Q |}
      else sums
  end.

(** [calculateFireWarningAreas(events)]. *)
Definition calculateFireWarningAreas (events : list EmergencyEvent) : AreaReport :=
  let sums :=
    fold_left addArea events
      {| shelterSum := 0; leaveImmediatelySum := 0; leaveSum := 0 |} in
  let totalWarningAreaKm2 :=
    (shelterSum sums + leaveImmediatelySum sums + leaveSum sums)%Q in
  let victoriaAreaKm2 := (VICTORIA_AREA_SQ_M / 1000000)%Q in
  {| shelterAreaKm2 := shelterSum sums;
     leaveImmediatelyAreaKm2 := leaveImmediatelySum sums;
     leaveAreaKm2 := leaveSum sums;
     totalWarningAreaKm2 := totalWarningAreaKm2;
     shelterPercent := ((shelterSum sums / victoriaAreaKm2) * 100)%Q;
     leaveImmediatelyPercent :=
       ((leaveImmediatelySum sums / victoriaAreaKm2) * 100)%Q;
     leavePercent := ((leaveSum sums / victoriaAreaKm2) * 100)%Q;
     totalPercent := ((totalWarningAreaKm2 / victoriaAreaKm2) * 100)%Q |}.
End Area.

(* ===================================================================== *)
(** * lib/vic-emergency.ts: geometry extraction *)
(* ===================================================================== *)

(** A GeoJSON position: longitude and latitude, then whatever follows. A
    position of fewer than two numbers is outside the model. *)
Record Position : Type := mkPosition {
  lng : Q;
  lat : Q;
  more : list Q
}.

(** The geometry of a feature, by its [type]: a point, a polygon (its
    rings, the outer one first), a collection of geometries, or something
    else. [coordinates] and [geometries] may be missing. *)
#[warnings="-register-all"]
Inductive Geometry : Type :=
  | GeoPoint (coordinates : option Position)
  | GeoPolygon (coordinates : option (list (list Position)))
  | GeoCollection (geometries : option (list Geometry))
  | GeoOther (type : string).

(** [EmergencyFeature]: the event fields and the geometry. *)
Module Feature.
Record t : Type := mk {
    properties : EmergencyEvent;
    geometry : Geometry
  }.
End Feature.

(** [g.type === 'Point'] and [g.type === 'Polygon']. *)
Definition isPointGeometry (g : Geometry) : bool :=
  match g with GeoPoint _ => true | _ => false end.

Definition isPolygonGeometry (g : Geometry) : bool :=
  match g with GeoPolygon _ => true | _ => false end.

(** [geometries.find(pred)]. *)
Fixpoint findFirst {A : Type} (pred : A -> bool) (l : list A) : option A :=
  match l with
  | [] => None
  | x :: rest => if pred x then Some x else findFirst pred rest
  end.

(** [[coords[0], coords[1]]]. *)
Definition toPoint (coords : Position) : Point := (lng coords, lat coords).

(** [extractCoordinates(feature)], on the feature's geometry. *)
Definition extractCoordinates (geometry : Geometry) : option Point :=
  match geometry with
  | GeoPoint (Some coords) => Some (toPoint coords)
  | GeoCollection (Some geometries) =>
      match findFirst isPointGeometry geometries with
      | Some (GeoPoint (Some coords)) => Some (toPoint coords)
      | _ => None
      end
  | _ => None
  end.

(** [ring.map(coord => [coord[0], coord[1]])] for
    [ring = coordinates[0]]; when there is no first ring, [ring] is
    [undefined] and the call throws. *)
Definition outerRing (coordinates : list (list Position))
    : Result (option (list Point)) :=
  match coordinates with
  | [] => Err "Cannot read properties of undefined (reading 'map')"
  | ring :: _ => Ok (Some (map toPoint ring))
  end.

(** [extractPolygon(feature)], on the feature's geometry. *)
Definition extractPolygon (geometry : Geometry) : Result (option (list Point)) :=
  match geometry with
  | GeoPolygon (Some coordinates) => outerRing coordinates
  | GeoCollection (Some geometries) =>
      match findFirst isPolygonGeometry geometries with
      | Some (GeoPolygon (Some coordinates)) => outerRing coordinates
      | _ => Ok None
      end
  | _ => Ok None
  end.

(** The event [getEvents] makes of a feature, with the point it extracts:
    [{ ...feature.properties, coordinates, polygon }]. *)
Record MappedEvent : Type := mkMapped {
  mappedEvent : EmergencyEvent;
  mappedCoordinates : option Point
}.

Definition mapFeature (feature : Feature.t) : Result MappedEvent :=
  let coordinates := extractCoordinates (Feature.geometry feature) in
  match extractPolygon (Feature.geometry feature) with
  | Err msg => Err msg
  | Ok polygon =>
      Ok {| mappedEvent :=
              {| id := id (Feature.properties feature);
                 name := name (Feature.properties feature);
                 location := location (Feature.properties feature);
                 updated := updated (Feature.properties feature);
                 action := action (Feature.properties feature);
                 polygon := polygon |};
            mappedCoordinates := coordinates |}
  end.

(** [data.features.map(...)] of [getEvents]: the first feature that throws
    ends the whole call. *)
Fixpoint mapFeatures (features : list Feature.t) : Result (list MappedEvent) :=
  match features with
  | [] => Ok []
  | feature :: rest =>
      match mapFeature feature with
      | Err msg => Err msg
      | Ok e =>
          match mapFeatures rest with
          | Err msg => Err msg
          | Ok es => Ok (e :: es)
          end
      end
  end.

(* ===================================================================== *)
(** * hooks/use-fire-events.ts: the fire events *)
(* ===================================================================== *)

(** An event as the driver reads it: the fields modelled so far, and the
    classification fields ([cap?.category] and [cap?.severity] are missing
    when [cap] is). *)
Module FeedEvent.
Record t : Type := mk {
    core : EmergencyEvent;
    feedType : option string;
    category1 : option string;
    category2 : option string;
    status : option string;
    capCategory : option string;
    capSeverity : option string
  }.
End FeedEvent.

(** [text?.includes(search)], as a condition. *)
Definition includesOpt (text : option string) (search : string) : bool :=
  match text with
  | Some s => includes s search
  | None => false
  end.

(** [isFireRelated(event)], as the [filter] reads it. *)
Definition isFireRelated (e : FeedEvent.t) : bool :=
  (bool_decide (FeedEvent.capCategory e = Some "Fire"%string) ||
   includesOpt (FeedEvent.category1 e) "Fire" ||
   includesOpt (FeedEvent.category2 e) "Fire" ||
   includesOpt (FeedEvent.category2 e) "Bushfire" ||
   includesOpt (FeedEvent.category2 e) "Grass Fire" ||
   includesOpt (FeedEvent.category1 e) "Burn" ||
   includes (toLowerCase (name (FeedEvent.core e))) "fire")%bool.

(** What a lookup in the object literal [severityOrder] gives before
    [?? 3]: one of its three numbers, nothing, or a member every object
    inherits from [Object.prototype], which is neither a number nor
    [undefined]. *)
Inductive OrderValue : Type :=
  | OrderNumber (n : Z)
  | OrderInherited.

Definition objectPrototypeKeys : list string :=
  ["constructor"; "hasOwnProperty"; "isPrototypeOf"; "propertyIsEnumerable";
   "toLocaleString"; "toString"; "valueOf"; "__proto__";
   "__defineGetter__"; "__defineSetter__"; "__lookupGetter__";
   "__lookupSetter__"]%string.

(** [severityOrder[key] ?? 3]. *)
Definition severityOrder (key : string) : OrderValue :=
  if String.eqb key "Extreme" then OrderNumber 0
  else if String.eqb key "Moderate" then OrderNumber 1
  else if String.eqb key "Minor" then OrderNumber 2
  else if existsb (String.eqb key) objectPrototypeKeys then OrderInherited
  else OrderNumber 3.

(** [a.status || a.cap?.severity || 'Minor']. *)
Definition severityKey (e : FeedEvent.t) : string :=
  orElse (FeedEvent.status e) (orElse (FeedEvent.capSeverity e) "Minor").

(** [sortByPriority(a, b)], by the sign of the number it returns; the
    difference of two lookups is NaN when one of them is not a number, and
    [Array.prototype.sort] reads NaN as [+0]. *)
Definition sortByPriority (a b : FeedEvent.t) : comparison :=
  let aPriority := getActionPriority (action (FeedEvent.core a)) in
  let bPriority := getActionPriority (action (FeedEvent.core b)) in
  if negb (aPriority =? bPriority) then Z.compare (bPriority - aPriority) 0
  else
    match severityOrder (severityKey a), severityOrder (severityKey b) with
    | OrderNumber aOrder, OrderNumber bOrder => Z.compare (aOrder - bOrder) 0
    | _, _ => Eq
    end.

(** [fireEvents], [fireWarnings] and the two totals of [useFireEvents]. *)
Definition fireEvents (events : list FeedEvent.t) : list FeedEvent.t :=
  sort sortByPriority (filter (fun e => isFireRelated e) events).

Definition isWarning (e : FeedEvent.t) : bool :=
  bool_decide (FeedEvent.feedType e = Some "warning"%string).

Definition fireWarnings (events : list FeedEvent.t) : list FeedEvent.t :=
  filter (fun e => isWarning e) (fireEvents events).

Definition totalWarnings (events : list FeedEvent.t) : nat :=
  length (fireWarnings events).

Definition totalIncidents (events : list FeedEvent.t) : nat :=
  length (fireEvents events) - length (fireWarnings events).



(* ===================================================================== *)
(** * lib/utils.ts: colours and relative times *)
(* ===================================================================== *)

(** [feedType && feedType !== 'warning'], as a condition. *)
Definition isIncidentType (feedType : option string) : bool :=
  match feedType with
  | Some t => (truthy t && negb (String.eqb t "warning"))%bool
  | None => false
  end.

(** [getActionColor(action, severity, status, feedType)]. *)
Definition getActionColor (action severity status feedType : option string)
    : string :=
  let isIncident := isIncidentType feedType in
  let priority := getActionPriority action in
  let isExtreme :=
    (bool_decide (status = Some "Extreme"%string) ||
     bool_decide (severity = Some "Extreme"%string))%bool in
  if 3 <=? priority then "#dc2626"
  else if 2 <=? priority then "#ea580c"
  else if 1 <=? priority then "#f97316"
  else if isIncident then
    if isExtreme then "#b45309"
    else if bool_decide (severity = Some "Moderate"%string) then "#a16207"
    else if bool_decide (severity = Some "Minor"%string) then "#92400e"
    else "#4b5563"
  else
    if isExtreme then "#ef4444"
    else if bool_decide (severity = Some "Moderate"%string) then "#f59e0b"
    else if bool_decide (severity = Some "Minor"%string) then "#eab308"
    else "#6b7280".

(** [formatTimeAgo(dateStr)], on the time of the date and the time of
    [new Date()], both in milliseconds. *)
Definition formatTimeAgo (date now : Z) : string :=
  let diffMs := now - date in
  let diffMins := diffMs / 60000 in
  let diffHours := diffMs / 3600000 in
  let diffDays := diffMs / 86400000 in
  if diffMins <? 1 then "Just now"
  else if diffMins <? 60 then String.append (pretty diffMins) "m ago"
  else if diffHours <? 24 then String.append (pretty diffHours) "h ago"
  else String.append (pretty diffDays) "d ago".

(* ===================================================================== *)
(** * components/user-location-panel.tsx *)
(* ===================================================================== *)

Inductive PanelStatus : Type :=
  | StatusDisabled | StatusCritical | StatusWarning | StatusCaution | StatusSafe.

(** The value of [getActionRecommendation]; its severity is one of
    critical, warning and caution. *)
Module Recommendation.
Record t : Type := mk {
    text : string;
    severity : PanelStatus
  }.
End Recommendation.

(** [getActionRecommendation(nearestDanger)]. *)
Definition getActionRecommendation (nearestDanger : option ProximityResult)
    : option Recommendation.t :=
  match nearestDanger with
  | None => None
  | Some n =>
      let action := orElse (toLowerCase <$> action (event n)) EmptyString in
      if isInside n then
        if includes action "shelter" then
          Some {| Recommendation.text := "Shelter in place immediately";
                  Recommendation.severity := StatusCritical |}
        else if includes action "leave" then
          Some {| Recommendation.text := "Leave the area now";
                  Recommendation.severity := StatusCritical |}
        else
          Some {| Recommendation.text := "Follow CFA instructions";
                  Recommendation.severity := StatusCritical |}
      else if num_ltb (distance n) (Fin 5) then
        Some {| Recommendation.text := "Monitor conditions closely";
                Recommendation.severity := StatusWarning |}
      else if num_ltb (distance n) (Fin 20) then
        Some {| Recommendation.text := "Stay alert for updates";
                Recommendation.severity := StatusCaution |}
      else None
  end.

(** The [status] the panel computes. *)
Definition panelStatus (coordinates : option Point)
    (nearestDanger : option ProximityResult) : PanelStatus :=
  match coordinates with
  | None => StatusDisabled
  | Some _ =>
      match nearestDanger with
      | Some n =>
          if isInside n then StatusCritical
          else if num_ltb (distance n) (Fin 5) then StatusWarning
          else if num_ltb (distance n) (Fin 20) then StatusCaution
          else StatusSafe
      | None => StatusSafe
      end
  end.

(* ===================================================================== *)
(** * hooks/use-geolocation.ts *)
(* ===================================================================== *)

(** [GeolocationState]. *)
Module Geolocation.
Record t : Type := mk {
    coordinates : option Point;
    accuracy : option Q;
    error : option string;
    loading : bool;
    supported : bool;
    permissionDenied : bool
  }.
End Geolocation.

(** The parts of a [GeolocationPosition] and of a
    [GeolocationPositionError] the hook reads; [denied] is
    [error.code === error.PERMISSION_DENIED]. *)
Record GeoFix : Type := mkFix {
  longitude : Q;
  latitude : Q;
  fixAccuracy : Q
}.

Record GeoError : Type := mkGeoError {
  errorMessage : string;
  denied : bool
}.

(** The initial state, by whether the browser has the API. *)
Definition initialGeolocation (isSupported : bool) : Geolocation.t :=
  {| Geolocation.coordinates := None;
     Geolocation.accuracy := None;
     Geolocation.error :=
       if isSupported then None else Some "Geolocation not supported"%string;
     Geolocation.loading := isSupported;
     Geolocation.supported := isSupported;
     Geolocation.permissionDenied := false |}.

(** The state updater of [handleSuccess(position)]. *)
Definition handleSuccess (position : GeoFix) (prev : Geolocation.t)
    : Geolocation.t :=
  {| Geolocation.coordinates := Some (longitude position, latitude position);
     Geolocation.accuracy := Some (fixAccuracy position);
     Geolocation.error := None;
     Geolocation.loading := false;
     Geolocation.supported := Geolocation.supported prev;
     Geolocation.permissionDenied := false |}.

(** The state updater of [handleError(error)]. *)
Definition handleError (err : GeoError) (prev : Geolocation.t) : Geolocation.t :=
  {| Geolocation.coordinates := Geolocation.coordinates prev;
     Geolocation.accuracy := Geolocation.accuracy prev;
     Geolocation.error := Some (errorMessage err);
     Geolocation.loading := false;
     Geolocation.supported := Geolocation.supported prev;
     Geolocation.permissionDenied := denied err |}.

(** The state update of [requestPermission()]; the position or the error it
    asks the browser for arrives later through the two handlers. *)
Definition requestPermission (isSupported : bool) (prev : Geolocation.t)
    : Geolocation.t :=
  if negb isSupported then prev
  else
    {| Geolocation.coordinates := Geolocation.coordinates prev;
       Geolocation.accuracy := Geolocation.accuracy prev;
       Geolocation.error := None;
       Geolocation.loading := true;
       Geolocation.supported := Geolocation.supported prev;
       Geolocation.permissionDenied := Geolocation.permissionDenied prev |}.

(** What happens to the hook, and runs of it. *)
Inductive GeoEvent : Type :=
  | GotPosition (position : GeoFix)
  | GotError (err : GeoError)
  | Requested.

Definition geoStep (isSupported : bool) (st : Geolocation.t) (ev : GeoEvent)
    : Geolocation.t :=
  match ev with
  | GotPosition position => handleSuccess position st
  | GotError err => handleError err st
  | Requested => requestPermission isSupported st
  end.

Definition geoRun (isSupported : bool) (evs : list GeoEvent) : Geolocation.t :=
  fold_left (geoStep isSupported) evs (initialGeolocation isSupported).

(** The last position among the events of a run. *)
Fixpoint lastFix (evs : list GeoEvent) (seen : option GeoFix) : option GeoFix :=
  match evs with
  | [] => seen
  | GotPosition position :: rest => lastFix rest (Some position)
  | _ :: rest => lastFix rest seen
  end.

(* ===================================================================== *)
(** * components/alert-banner.tsx *)
(* ===================================================================== *)



(* ===================================================================== *)
(** * Sample data *)
(* ===================================================================== *)

(** Two alerts as [addAlert] builds them. *)
Definition sampleInfoAlert : Alert.t :=
  {| Alert.id := "1700000000000-k3j9x2a";
     Alert.type := ZoneChange;
     Alert.severity := Info;
     Alert.title := "Warning Updated";
     Alert.message := "Grass Fire has been updated";
     Alert.timestamp := 1700000000000;
     Alert.eventId := Some (IdNumber 101);
     Alert.dismissed := false |}.

Definition sampleCriticalAlert : Alert.t :=
  {| Alert.id := "1700000000005-p0q8m1z";
     Alert.type := NewWarning;
     Alert.severity := Critical;
     Alert.title := "New Shelter In Place Warning";
     Alert.message := "Bushfire: Mallacoota";
     Alert.timestamp := 1700000000005;
     Alert.eventId := Some (IdString "ESTA:202");
     Alert.dismissed := false |}.

Definition sampleAlerts : list Alert.t := [sampleCriticalAlert; sampleInfoAlert].

Definition sampleClock : Clock :=
  {| dateNowForId := 1700000000000;
     randomSuffix := "k3j9x2a";
     dateNowForTimestamp := 1700000000000 |}.

Definition sampleInfoRequest : AlertRequest.t :=
  {| AlertRequest.type := ZoneChange;
     AlertRequest.severity := Info;
     AlertRequest.title := "Warning Updated";
     AlertRequest.message := "Grass Fire has been updated";
     AlertRequest.eventId := Some (IdNumber 101) |}.

Definition sampleClock2 : Clock :=
  {| dateNowForId := 1700000000005;
     randomSuffix := "p0q8m1z";
     dateNowForTimestamp := 1700000000005 |}.

Definition sampleCriticalRequest : AlertRequest.t :=
  {| AlertRequest.type := NewWarning;
     AlertRequest.severity := Critical;
     AlertRequest.title := "New Shelter In Place Warning";
     AlertRequest.message := "Bushfire: Mallacoota";
     AlertRequest.eventId := Some (IdString "ESTA:202") |}.

(** A store holding one critical alert. *)
Definition sampleStore : AlertStore :=
  addAlert sampleClock2 sampleCriticalRequest emptyStore.

(** Stand-ins for the two turf functions, to run the definitions on
    concrete data: the taxicab distance, and the bounding-box test on a ring
    that is closed and has at least 4 positions (turf's [polygon] throws on
    any other ring). *)
Definition sampleDistance (p q : Point) : Q :=
  (Qabs (fst p - fst q) + Qabs (snd p - snd q))%Q.

Definition sampleInside (p : Point) (ring : list Point) : option bool :=
  if (length ring <? 4)%nat then None
  else
    Some (existsb (fun v => Qle_bool (fst v) (fst p)) ring &&
          existsb (fun v => Qle_bool (fst p) (fst v)) ring &&
          existsb (fun v => Qle_bool (snd v) (snd p)) ring &&
          existsb (fun v => Qle_bool (snd p) (snd v)) ring)%bool.

Definition pt (lng lat : Z) : Point := (inject_Z lng, inject_Z lat).

(** Three hazards: a triangle with "Leave Immediately", a triangle farther
    away with "Shelter In Place", and one without a polygon. *)
Definition hazardH1 : EmergencyEvent :=
  {| id := IdString "H1";
     name := "Bushfire";
     location := "Briagolong";
     updated := "2024-01-05T03:10:00Z";
     action := Some "Leave Immediately"%string;
     polygon := Some [pt 0 0; pt 4 0; pt 0 4] |}.

Definition hazardH2 : EmergencyEvent :=
  {| id := IdNumber 2;
     name := "Grass Fire";
     location := "Ararat";
     updated := "2024-01-05T02:00:00Z";
     action := Some "Shelter In Place"%string;
     polygon := Some [pt 10 10; pt 12 10; pt 10 12] |}.

Definition hazardH3 : EmergencyEvent :=
  {| id := IdString "H3";
     name := "Planned Burn";
     location := "Otways";
     updated := "2024-01-04T22:00:00Z";
     action := None;
     polygon := None |}.

Definition sampleHazards : list EmergencyEvent := [hazardH3; hazardH2; hazardH1].

(** A ready engine that last saw the location outside every zone, nearest
    to the second hazard. *)
Definition sampleMemory : EngineMemory :=
  {| isReady := true;
     hasInitialized := true;
     previousEvents :=
       <[IdString "H1" := "2024-01-05T03:10:00Z"%string]>
         (<[IdNumber 2 := "2024-01-05T02:00:00Z"%string]> ∅);
     previousNearest :=
       Some {| Prev.eventId := IdNumber 2;
               Prev.distance := Fin 18;
               Prev.isInside := false |} |}.

(** A hazard whose [updated] text is empty. *)
Definition hazardNoStamp : EmergencyEvent :=
  {| id := IdString "H9";
     name := "Bushfire";
     location := "Walhalla";
     updated := EmptyString;
     action := Some "Shelter In Place"%string;
     polygon := None |}.

(** The same hazard after the feed has given it a time stamp, and a ready
    engine that remembers it with the empty one. *)
Definition hazardStamped : EmergencyEvent :=
  {| id := IdString "H9";
     name := "Bushfire";
     location := "Walhalla";
     updated := "2024-01-05T04:00:00Z";
     action := None;
     polygon := None |}.

Definition memoryNoStamp : EngineMemory :=
  {| isReady := true;
     hasInitialized := true;
     previousEvents := <[IdString "H9" := EmptyString]> ∅;
     previousNearest := None |}.

(** A network whose first two answers are the events and the delta document
    with the hash "h1"; after that the delta document carries the hash "h2"
    and every request for the events is rejected. *)
Definition staleNetwork (n : nat) (url : string) : FetchOutcome :=
  if String.eqb url deltaUrl then
    Resolved {| ok := true; status := 200; statusText := "OK";
                body := DeltaPayload
                          {| lastModified := "2024-01-05T04:00:00Z";
                             lastHash := if (n <? 2)%nat then "h1" else "h2" |} |}
  else if (n <? 2)%nat then
    Resolved {| ok := true; status := 200; statusText := "OK";
                body := EventsPayload [hazardH1] |}
  else Rejected "Failed to fetch".

(** A network on which the events are served while every request for the
    delta document is rejected. *)
Definition eventsOnlyNetwork (n : nat) (url : string) : FetchOutcome :=
  if String.eqb url eventsUrl then
    Resolved {| ok := true; status := 200; statusText := "OK";
                body := EventsPayload [hazardH1] |}
  else Rejected "Failed to fetch".

(** A network that answers 503 twice and then serves the events. *)
Definition recoveringNetwork (n : nat) (url : string) : FetchOutcome :=
  if (n <? 2)%nat then
    Resolved {| ok := false; status := 503; statusText := "Service Unavailable";
                body := Unparsable |}
  else
    Resolved {| ok := true; status := 200; statusText := "OK";
                body := EventsPayload sampleHazards |}.

Definition freshWorld : World := {| calls := 0; trace := [] |}.

(** A stand-in for turf's [area]: the area of the bounding box of a closed
    ring of at least 4 positions, one unit of the coordinates being one
    kilometre. *)
Definition sampleArea (ring : list Point) : option Q :=
  if (length ring <? 4)%nat then None
  else
    let lngs := map fst ring in
    let lats := map snd ring in
    let lo (l : list Q) := fold_right Qmin 1000000%Q l in
    let hi (l : list Q) := fold_right Qmax (-1000000)%Q l in
    Some ((hi lngs - lo lngs) * (hi lats - lo lats) * 1000000)%Q.

(** A feature whose geometry is a collection of a point, a nested
    collection and a polygon with a hole; and one whose polygon has no ring
    at all. *)
Definition pos (x y : Z) : Position :=
  {| lng := inject_Z x; lat := inject_Z y; more := [] |}.

Definition sampleCollection : Geometry :=
  GeoCollection
    (Some [GeoPoint (Some (pos 1 1));
           GeoCollection (Some [GeoPolygon (Some [[pos 9 9; pos 9 8; pos 8 9]])]);
           GeoPolygon (Some [[pos 0 0; pos 4 0; pos 0 4; pos 0 0];
                             [pos 1 1; pos 2 1; pos 1 2; pos 1 1]])]).

Definition sampleFeature : Feature.t :=
  {| Feature.properties := hazardH3; Feature.geometry := sampleCollection |}.

Definition brokenFeature : Feature.t :=
  {| Feature.properties := hazardH3; Feature.geometry := GeoPolygon (Some []) |}.

(** Three feed events: a fire warning to shelter, a fire incident, and a
    flood warning. *)
Definition feedShelter : FeedEvent.t :=
  {| FeedEvent.core := hazardH2;
     FeedEvent.feedType := Some "warning"%string;
     FeedEvent.category1 := Some "Fire"%string;
     FeedEvent.category2 := Some "Grass Fire"%string;
     FeedEvent.status := Some "Extreme"%string;
     FeedEvent.capCategory := None;
     FeedEvent.capSeverity := None |}.

Definition feedIncident : FeedEvent.t :=
  {| FeedEvent.core := hazardH3;
     FeedEvent.feedType := Some "incident"%string;
     FeedEvent.category1 := Some "Planned Burn"%string;
     FeedEvent.category2 := None;
     FeedEvent.status := None;
     FeedEvent.capCategory := None;
     FeedEvent.capSeverity := Some "Minor"%string |}.

Definition feedFlood : FeedEvent.t :=
  {| FeedEvent.core :=
       {| id := IdNumber 7; name := "Riverine Flood"; location := "Echuca";
          updated := "2024-01-05T01:00:00Z"; action := None; polygon := None |};
     FeedEvent.feedType := Some "warning"%string;
     FeedEvent.category1 := Some "Flood"%string;
     FeedEvent.category2 := Some "Riverine Flood"%string;
     FeedEvent.status := Some "Moderate"%string;
     FeedEvent.capCategory := Some "Met"%string;
     FeedEvent.capSeverity := None |}.

Definition sampleFeed : list FeedEvent.t := [feedIncident; feedFlood; feedShelter].

(* ===================================================================== *)
(** * Facts about strings and the action classifier *)
(* ===================================================================== *)

Lemma startsWith_spec (search s : string) :
  startsWith s search = true <-> exists post, s = search +:+ post.
Proof.
  revert s. induction search as [| a search IH]; intros s; simpl.
  - split; [intros _; exists s; reflexivity | reflexivity].
  - destruct s as [| b s].
    + split; [discriminate | intros [post H]; discriminate].
    + rewrite andb_true_iff, Ascii.eqb_eq, IH. split.
      * intros [-> [post ->]]. exists post. reflexivity.
      * intros [post H]. injection H as -> ->. split; [reflexivity | eauto].
Qed.

Lemma includes_spec (s search : string) :
  includes s search = true <-> Contains s search.
Proof.
  unfold Contains. induction s as [| c s IH].
  - cbn [includes]. rewrite orb_false_r, startsWith_spec. split.
    + intros [post H]. exists EmptyString, post. exact H.
    + intros [[| p pre] [post H]]; [eauto | discriminate].
  - cbn [includes]. rewrite orb_true_iff, startsWith_spec, IH. split.
    + intros [[post H] | [pre [post H]]].
      * exists EmptyString, post. exact H.
      * exists (String c pre), post. simpl. rewrite H. reflexivity.
    + intros [[| p pre] [post H]].
      * left. exists post. exact H.
      * right. simpl in H. injection H as -> ->. eauto.
Qed.

Lemma includes_false (s search : string) :
  includes s search = false <-> ~ Contains s search.
Proof.
  rewrite <- includes_spec. destruct (includes s search).
  - split; [discriminate | intros H; exfalso; apply H; reflexivity].
  - split; [intros _ H; discriminate | reflexivity].
Qed.

(** The chain of tests on the lower-cased text, common to the classifier
    and to the cases below. *)
Lemma getActionPriority_chain (a : string) :
  getActionPriority (Some a) =
    if includes (toLowerCase a) "shelter" then 3
    else if includes (toLowerCase a) "leave immediately" then 2
    else if includes (toLowerCase a) "leave" then 1
    else 0.
Proof.
  destruct a as [| c a]; reflexivity.
Qed.

(** C4. [getActionPriority] is 0 for a missing action; for an action text it
    is 3 when the lower-cased text contains "shelter", otherwise 2 when it
    contains "leave immediately", otherwise 1 when it contains "leave",
    otherwise 0. So a text with "shelter" gets 3 whatever else it contains,
    "leave" never shadows "leave immediately", and "Shelter In Place Now"
    gets 3. *)
Theorem getActionPriority_spec :
  getActionPriority None = 0 /\
  (forall a : string,
     let n := toLowerCase a in
     (Contains n "shelter" -> getActionPriority (Some a) = 3) /\
     (~ Contains n "shelter" -> Contains n "leave immediately" ->
        getActionPriority (Some a) = 2) /\
     (~ Contains n "shelter" -> ~ Contains n "leave immediately" ->
        Contains n "leave" -> getActionPriority (Some a) = 1) /\
     (~ Contains n "shelter" -> ~ Contains n "leave immediately" ->
        ~ Contains n "leave" -> getActionPriority (Some a) = 0)) /\
  getActionPriority (Some "Shelter In Place Now"%string) = 3.
Proof.
  split; [reflexivity |]. split; [| reflexivity].
  intros a n. subst n. rewrite getActionPriority_chain.
  repeat split.
  - intros H. apply includes_spec in H. rewrite H. reflexivity.
  - intros H1 H2. apply includes_false in H1. apply includes_spec in H2.
    rewrite H1, H2. reflexivity.
  - intros H1 H2 H3. apply includes_false in H1, H2. apply includes_spec in H3.
    rewrite H1, H2, H3. reflexivity.
  - intros H1 H2 H3. apply includes_false in H1, H2, H3.
    rewrite H1, H2, H3. reflexivity.
Qed.

(** The cases of C4 at "Leave Immediately, do not shelter here" (3, although
    it contains "leave immediately"), at "Leave Immediately" (2, not 1) and
    at "Prepare to Leave" (1). *)
Lemma getActionPriority_spec_witness :
  getActionPriority (Some "Leave Immediately, do not shelter here"%string) = 3 /\
  getActionPriority (Some "Leave Immediately"%string) = 2 /\
  getActionPriority (Some "Prepare to Leave"%string) = 1.
Proof.
  pose proof getActionPriority_spec as [_ [H _]].
  split; [| split].
  - apply (H "Leave Immediately, do not shelter here"%string).
    apply includes_spec. vm_compute. reflexivity.
  - apply (H "Leave Immediately"%string).
    + apply includes_false. vm_compute. reflexivity.
    + apply includes_spec. vm_compute. reflexivity.
  - apply (H "Prepare to Leave"%string).
    + apply includes_false. vm_compute. reflexivity.
    + apply includes_false. vm_compute. reflexivity.
    + apply includes_spec. vm_compute. reflexivity.
Defined.

(* ===================================================================== *)
(** * Facts about the alert list *)
(* ===================================================================== *)

Lemma lookup_map {A B : Type} (f : A -> B) (l : list A) (i : nat) :
  map f l !! i = f <$> (l !! i).
Proof.
  revert i. induction l as [| x l IH]; intros [| i]; simpl; auto.
Qed.

Lemma elem_of_map {A B : Type} (f : A -> B) (l : list A) (y : B) :
  y ∈ map f l <-> exists x, y = f x /\ x ∈ l.
Proof.
  rewrite !list_elem_of_In, in_map_iff. split.
  - intros [x [H1 H2]]. exists x. rewrite list_elem_of_In. auto.
  - intros [x [H1 H2]]. exists x. rewrite list_elem_of_In in H2. auto.
Qed.

Lemma markDismissed_dismissed (a : Alert.t) :
  Alert.dismissed a = true -> markDismissed a = a.
Proof.
  destruct a; simpl. intros ->. reflexivity.
Qed.

Lemma markDismissed_idem (a : Alert.t) :
  markDismissed (markDismissed a) = markDismissed a.
Proof. reflexivity. Qed.

(** What [dismissAlert] does to one alert. *)
Lemma dismissAlert_lookup (id : string) (prev : list Alert.t) (i : nat) :
  dismissAlert id prev !! i =
    (fun a => if String.eqb (Alert.id a) id then markDismissed a else a)
      <$> (prev !! i).
Proof. apply lookup_map. Qed.

Lemma dismissAlert_unchanged (id : string) (prev : list Alert.t) :
  (forall a, a ∈ prev -> Alert.id a = id -> Alert.dismissed a = true) ->
  dismissAlert id prev = prev.
Proof.
  unfold dismissAlert. induction prev as [| a prev IH]; intros H; simpl.
  - reflexivity.
  - rewrite IH by (intros b Hb; apply H; right; exact Hb). f_equal.
    destruct (String.eqb_spec (Alert.id a) id) as [Heq | Hne]; [| reflexivity].
    apply markDismissed_dismissed, H; [left | exact Heq].
Qed.

(** C10. [dismissAlert] keeps the length and the order of the list and every
    field of every alert, except that [dismissed] becomes true for the alerts
    with the given id; when no alert has that id, or those that have it are
    dismissed already, the list is unchanged; and dismissing twice is the
    same as dismissing once. *)
Theorem dismissAlert_frame (id : string) (prev : list Alert.t) :
  length (dismissAlert id prev) = length prev /\
  (forall (i : nat) (a : Alert.t), prev !! i = Some a ->
     exists a', dismissAlert id prev !! i = Some a' /\
       Alert.id a' = Alert.id a /\
       Alert.type a' = Alert.type a /\
       Alert.severity a' = Alert.severity a /\
       Alert.title a' = Alert.title a /\
       Alert.message a' = Alert.message a /\
       Alert.timestamp a' = Alert.timestamp a /\
       Alert.eventId a' = Alert.eventId a /\
       Alert.dismissed a' =
         (if decide (Alert.id a = id) then true else Alert.dismissed a)) /\
  ((forall a, a ∈ prev -> Alert.id a <> id) -> dismissAlert id prev = prev) /\
  ((forall a, a ∈ prev -> Alert.id a = id -> Alert.dismissed a = true) ->
     dismissAlert id prev = prev) /\
  dismissAlert id (dismissAlert id prev) = dismissAlert id prev.
Proof.
  split; [apply length_map |]. split; [| split; [| split]].
  - intros i a Hi. rewrite dismissAlert_lookup, Hi. simpl.
    destruct (String.eqb_spec (Alert.id a) id) as [Heq | Hne].
    + exists (markDismissed a). rewrite decide_True by exact Heq.
      repeat split; reflexivity.
    + exists a. rewrite decide_False by exact Hne. repeat split; reflexivity.
  - intros H. apply dismissAlert_unchanged. intros a Ha Heq.
    exfalso. exact (H a Ha Heq).
  - apply dismissAlert_unchanged.
  - apply dismissAlert_unchanged. intros a Ha Heq.
    apply elem_of_map in Ha as [b [-> Hb]].
    destruct (String.eqb_spec (Alert.id b) id) as [Hb' | Hb'].
    + reflexivity.
    + exfalso. apply Hb'. exact Heq.
Qed.

(** C10 at a list of two alerts: dismissing the second one by its id marks
    it and leaves the first as it was. *)
Lemma dismissAlert_frame_witness :
  (exists a', dismissAlert "1700000000000-k3j9x2a" sampleAlerts !! 1%nat = Some a' /\
              Alert.dismissed a' = true) /\
  dismissAlert "no-such-id" sampleAlerts = sampleAlerts.
Proof.
  split.
  - destruct (dismissAlert_frame "1700000000000-k3j9x2a" sampleAlerts)
      as [_ [H _]].
    destruct (H 1%nat sampleInfoAlert eq_refl) as [a' [H1 H2]].
    exists a'. split; [exact H1 |].
    destruct H2 as (_ & _ & _ & _ & _ & _ & _ & H2). rewrite H2. reflexivity.
  - destruct (dismissAlert_frame "no-such-id" sampleAlerts) as [_ [_ [H _]]].
    apply H. intros a Ha.
    apply elem_of_cons in Ha as [-> | Ha]; [discriminate |].
    apply list_elem_of_singleton in Ha as ->. discriminate.
Defined.

(** ** The alert store *)

#[local] Arguments take : simpl never.

Lemma dismissAlert_id_severity (id : string) (prev : list Alert.t) (a : Alert.t) :
  a ∈ dismissAlert id prev ->
  exists b, b ∈ prev /\ Alert.id a = Alert.id b /\
            Alert.severity a = Alert.severity b.
Proof.
  intros Ha. apply elem_of_map in Ha as [b [-> Hb]]. exists b.
  split; [exact Hb |]. destruct (String.eqb (Alert.id b) id); auto.
Qed.

Lemma autoDismissTimer_elem (s : Severity) (id : string) (t : Timer) :
  t ∈ autoDismissTimer s id -> s <> Critical /\ target t = id.
Proof.
  unfold autoDismissTimer. destruct (decide (s = Critical)) as [| Hs].
  - intros H. inversion H.
  - intros H. apply list_elem_of_singleton in H as ->. auto.
Qed.

(** Every reachable store keeps its timers away from critical alerts. *)
Lemma Reachable_spare (st : AlertStore) :
  Reachable st -> TimersSpareCritical st.
Proof.
  induction 1 as [| st c alert _ IH [Hfa Hft] | st id _ IH | st k _ IH];
    unfold TimersSpareCritical in *.
  - intros t a Ht. inversion Ht.
  - intros t a Ht Ha Heq. simpl in Ht, Ha.
    apply subseteq_take in Ha.
    apply elem_of_app in Ht as [Ht | Ht];
      apply elem_of_cons in Ha as [-> | Ha].
    + exfalso. apply (Hft t Ht). symmetry. exact Heq.
    + exact (IH t a Ht Ha Heq).
    + simpl. apply autoDismissTimer_elem in Ht as [Hs _]. exact Hs.
    + exfalso. apply autoDismissTimer_elem in Ht as [_ Ht].
      apply (Hfa a Ha). rewrite Heq, Ht. reflexivity.
  - intros t a Ht Ha Heq. simpl in Ht, Ha.
    apply dismissAlert_id_severity in Ha as [b [Hb [Hid Hsev]]].
    rewrite Hsev. apply (IH t b Ht Hb). rewrite <- Hid. exact Heq.
  - intros t a Ht Ha Heq. unfold fireTimer in Ht, Ha.
    destruct (timers st !! k) as [t0 |] eqn:Hk; [| exact (IH t a Ht Ha Heq)].
    simpl in Ht, Ha. apply list_elem_of_delete_inv in Ht.
    apply dismissAlert_id_severity in Ha as [b [Hb [Hid Hsev]]].
    rewrite Hsev. apply (IH t b Ht Hb). rewrite <- Hid. exact Heq.
Qed.

(** A timer that fires leaves the critical alerts as they are. *)
Lemma fireTimer_critical (st : AlertStore) (k i : nat) (a : Alert.t) :
  TimersSpareCritical st ->
  activeAlerts st !! i = Some a -> Alert.severity a = Critical ->
  activeAlerts (fireTimer k st) !! i = Some a.
Proof.
  intros Hinv Hi Hsev. unfold fireTimer.
  destruct (timers st !! k) as [t |] eqn:Hk; [| exact Hi].
  simpl. rewrite dismissAlert_lookup, Hi. simpl.
  destruct (String.eqb_spec (Alert.id a) (target t)) as [Heq | Hne];
    [| reflexivity].
  exfalso. apply (Hinv t a); auto.
  - apply list_elem_of_lookup. eauto.
  - apply list_elem_of_lookup. eauto.
Qed.

(** C7. Whatever the store and the id drawn, [addAlert] gives the new alert
    the id made of the clock reading and the random suffix and puts it in
    front, undismissed; the list keeps the 50 most recent alerts in order
    and drops the rest; an info alert gets a 30 s timer and a warning alert
    a 60 s timer, a critical alert gets none; a timer that fires marks the
    alerts with its target id dismissed, and [dismissAlert] with an alert's
    id marks that alert; the visible list is the sublist of the alerts that
    are not dismissed. When the id drawn is not in use, no other listed
    alert has it; and when that held of every id drawn so far as well, no
    timer that fires changes a critical alert. *)
Theorem addAlert_lifecycle (st : AlertStore) (c : Clock) (alert : AlertRequest.t) :
  let st' := addAlert c alert st in
  let newAlert := newAlertOf c alert in
  (Alert.id newAlert =
     String.append (pretty (dateNowForId c))
       (String.append "-" (randomSuffix c)) /\
   activeAlerts st' !! 0%nat = Some newAlert /\
   Alert.dismissed newAlert = false /\
   length (activeAlerts st') = Nat.min 50 (S (length (activeAlerts st))) /\
   (forall i, (i < 49)%nat -> activeAlerts st' !! S i = activeAlerts st !! i) /\
   (forall i, (49 <= i)%nat -> activeAlerts st' !! S i = None) /\
   timers st' =
     timers st ++
     match AlertRequest.severity alert with
     | Info => [ {| delay := 30000; target := Alert.id newAlert |} ]
     | Warning => [ {| delay := 60000; target := Alert.id newAlert |} ]
     | Critical => []
     end /\
   (forall k t i a, timers st' !! k = Some t ->
      activeAlerts st' !! i = Some a -> Alert.id a = target t ->
      exists a', activeAlerts (fireTimer k st') !! i = Some a' /\
                 Alert.dismissed a' = true) /\
   (forall i a, activeAlerts st' !! i = Some a ->
      exists a', activeAlerts (dismiss (Alert.id a) st') !! i = Some a' /\
                 Alert.dismissed a' = true) /\
   (forall a, a ∈ undismissedAlerts st' <->
      a ∈ activeAlerts st' /\ Alert.dismissed a = false) /\
   sublist (undismissedAlerts st') (activeAlerts st')) /\
  (FreshId c st ->
     forall i a, activeAlerts st' !! S i = Some a ->
       Alert.id a <> Alert.id newAlert) /\
  (Reachable st -> FreshId c st ->
     forall k i a, activeAlerts st' !! i = Some a ->
       Alert.severity a = Critical ->
       activeAlerts (fireTimer k st') !! i = Some a).
Proof.
  intros st' newAlert.
  split; [| split].
  - repeat match goal with |- _ /\ _ => split end.
    + reflexivity.
    + reflexivity.
    + reflexivity.
    + simpl. rewrite length_take. simpl. reflexivity.
    + intros i Hi. simpl. rewrite lookup_take_lt by lia. reflexivity.
    + intros i Hi. simpl. apply lookup_take_ge. lia.
    + simpl. f_equal. unfold autoDismissTimer.
      destruct (AlertRequest.severity alert); reflexivity.
    + intros k t i a Hk Hi Heq. unfold fireTimer. rewrite Hk.
      cbn [activeAlerts]. rewrite dismissAlert_lookup, Hi. simpl.
      rewrite (proj2 (String.eqb_eq _ _) Heq). eauto.
    + intros i a Hi. unfold dismiss. cbn [activeAlerts].
      rewrite dismissAlert_lookup, Hi. simpl. rewrite String.eqb_refl. eauto.
    + intros a. unfold undismissedAlerts. rewrite list_elem_of_filter.
      destruct (Alert.dismissed a); simpl; intuition congruence.
    + apply sublist_filter.
  - intros [Hfa _] i a Hi. simpl in Hi. apply lookup_take_Some in Hi as [Hi _].
    simpl in Hi. apply Hfa, list_elem_of_lookup. eauto.
  - intros Hreach Hfresh k i a Hi Hsev.
    assert (Hinv : TimersSpareCritical st').
    { apply Reachable_spare, reach_add; assumption. }
    apply fireTimer_critical; assumption.
Qed.

Lemma sampleStore_reachable : Reachable sampleStore.
Proof.
  apply reach_add; [apply reach_empty |].
  split; intros x Hx; inversion Hx.
Qed.

Lemma sampleClock_fresh : FreshId sampleClock sampleStore.
Proof.
  split.
  - intros a Ha. apply list_elem_of_singleton in Ha as ->.
    vm_compute. discriminate.
  - intros t Ht. inversion Ht.
Qed.

(** C7 at a store with one critical alert, to which an info alert is added
    under an id not in use: the new alert is in front, the list has two
    alerts, one 30 s timer is pending, the critical alert has another id and
    the timer leaves it as it is. *)
Lemma addAlert_lifecycle_witness :
  activeAlerts (addAlert sampleClock sampleInfoRequest sampleStore) !! 0%nat
    = Some sampleInfoAlert /\
  length (activeAlerts (addAlert sampleClock sampleInfoRequest sampleStore))
    = 2%nat /\
  timers (addAlert sampleClock sampleInfoRequest sampleStore)
    = [ {| delay := 30000; target := "1700000000000-k3j9x2a" |} ] /\
  Alert.id sampleCriticalAlert <> Alert.id sampleInfoAlert /\
  activeAlerts
    (fireTimer 0 (addAlert sampleClock sampleInfoRequest sampleStore)) !! 1%nat
    = Some sampleCriticalAlert.
Proof.
  destruct (addAlert_lifecycle sampleStore sampleClock sampleInfoRequest)
    as ((_ & H1 & _ & H2 & _ & _ & H3 & _) & Hid & Hcrit).
  split; [exact H1 | split; [exact H2 | split; [exact H3 | split]]].
  - apply (Hid sampleClock_fresh 0%nat). reflexivity.
  - apply (Hcrit sampleStore_reachable sampleClock_fresh); reflexivity.
Defined.

(** Two alerts added on the same reading of the clock and the same random
    suffix get the same id, and the timer of the info alert then dismisses
    the critical alert as well. *)
Lemma addAlert_id_collision :
  (exists a b,
     activeAlerts (addAlert sampleClock2 sampleInfoRequest sampleStore)
       = [a; b] /\
     Alert.id a = Alert.id b /\
     Alert.severity b = Critical /\ Alert.dismissed b = false) /\
  (exists a' b',
     activeAlerts
       (fireTimer 0 (addAlert sampleClock2 sampleInfoRequest sampleStore))
       = [a'; b'] /\
     Alert.severity b' = Critical /\ Alert.dismissed b' = true).
Proof.
  split.
  - exists (newAlertOf sampleClock2 sampleInfoRequest),
           (newAlertOf sampleClock2 sampleCriticalRequest).
    repeat split.
  - exists (markDismissed (newAlertOf sampleClock2 sampleInfoRequest)),
           (markDismissed (newAlertOf sampleClock2 sampleCriticalRequest)).
    split; [vm_compute; reflexivity | split; reflexivity].
Qed.

(* ===================================================================== *)
(** * Facts about distances *)
(* ===================================================================== *)

Lemma num_leb_le (a b : num) : num_leb a b = true <-> num_le a b.
Proof.
  destruct a as [x |], b as [y |]; simpl; try tauto.
  - apply Qle_bool_iff.
  - split; [discriminate | tauto].
Qed.

Lemma num_ltb_lt (a b : num) : num_ltb a b = true <-> num_lt a b.
Proof.
  destruct a as [x |], b as [y |]; simpl; try tauto;
    try (split; [discriminate | tauto]).
  rewrite negb_true_iff, <- not_true_iff_false, Qle_bool_iff. split.
  - apply Qnot_le_lt.
  - apply Qlt_not_le.
Qed.

Lemma num_le_refl (a : num) : num_le a a.
Proof. destruct a; simpl; [apply Qle_refl | exact I]. Qed.

Lemma num_le_trans (a b c : num) : num_le a b -> num_le b c -> num_le a c.
Proof.
  destruct a, b, c; simpl; try tauto. apply Qle_trans.
Qed.

Lemma num_lt_le_incompatible (a b : num) : num_lt a b -> num_le b a -> False.
Proof.
  destruct a, b; simpl; try tauto. apply Qlt_not_le.
Qed.

Lemma num_ltb_false_le (a b : num) : num_ltb a b = false -> num_le b a.
Proof.
  destruct a as [x |], b as [y |]; simpl; try tauto; try discriminate.
  rewrite negb_false_iff. apply Qle_bool_iff.
Qed.

Lemma num_ltb_true_le (a b : num) : num_ltb a b = true -> num_le a b.
Proof.
  rewrite num_ltb_lt. destruct a, b; simpl; try tauto. apply Qlt_le_weak.
Qed.

Lemma num_sub_sign_le (a b : num) : num_sub_sign a b <> Gt <-> num_le a b.
Proof.
  destruct a as [x |], b as [y |]; simpl.
  - symmetry. apply Qle_alt.
  - split; [tauto | discriminate].
  - split; [congruence | tauto].
  - split; [tauto | discriminate].
Qed.

Lemma num_sub_sign_gt (a b : num) : num_sub_sign a b = Gt -> num_le b a.
Proof.
  destruct a as [x |], b as [y |]; simpl; try discriminate; try tauto.
  intros H. apply Qlt_le_weak, Qgt_alt. exact H.
Qed.

(* ===================================================================== *)
(** * Facts about the stable sort *)
(* ===================================================================== *)

Section SortFacts.
Context {A : Type} (cmp : A -> A -> comparison) (le : A -> A -> Prop).
Hypothesis cmp_le : forall x y, cmp x y <> Gt -> le x y.
Hypothesis cmp_gt : forall x y, cmp x y = Gt -> le y x.
Hypothesis le_trans : forall x y z, le x y -> le y z -> le x z.

Lemma sort_insert_perm (x : A) (l : list A) :
  Permutation (sort_insert cmp x l) (x :: l).
Proof.
  induction l as [| y l IH]; simpl; [reflexivity |].
  destruct (cmp x y); try reflexivity.
  rewrite IH. apply perm_swap.
Qed.

Lemma sort_perm (l : list A) : Permutation (sort cmp l) l.
Proof.
  induction l as [| x l IH]; simpl; [reflexivity |].
  rewrite sort_insert_perm, IH. reflexivity.
Qed.

Lemma sort_insert_sorted (x : A) (l : list A) :
  StronglySorted le l -> StronglySorted le (sort_insert cmp x l).
Proof.
  induction 1 as [| y l Hl IH Hy]; simpl.
  - constructor; constructor.
  - destruct (cmp x y) eqn:Hxy.
    + assert (Hle : le x y) by (apply cmp_le; congruence).
      constructor; [constructor; assumption |].
      constructor; [exact Hle |].
      eapply Forall_impl; [exact Hy |]. intros z Hz. eauto.
    + assert (Hle : le x y) by (apply cmp_le; congruence).
      constructor; [constructor; assumption |].
      constructor; [exact Hle |].
      eapply Forall_impl; [exact Hy |]. intros z Hz. eauto.
    + constructor; [exact IH |].
      rewrite sort_insert_perm. constructor; [apply cmp_gt, Hxy | exact Hy].
Qed.

Lemma sort_sorted (l : list A) : StronglySorted le (sort cmp l).
Proof.
  induction l as [| x l IH]; simpl.
  - constructor.
  - apply sort_insert_sorted, IH.
Qed.
End SortFacts.

Lemma StronglySorted_lookup {A : Type} (R : A -> A -> Prop) (l : list A) :
  StronglySorted R l ->
  forall i j a b, (i < j)%nat -> l !! i = Some a -> l !! j = Some b -> R a b.
Proof.
  induction 1 as [| x l Hl IH Hx]; intros i j a b Hij Hi Hj.
  - rewrite lookup_nil in Hi. discriminate.
  - destruct j as [| j]; [lia |]. simpl in Hj. destruct i as [| i].
    + simpl in Hi. injection Hi as ->.
      rewrite Forall_forall in Hx. apply Hx.
      apply list_elem_of_lookup. eauto.
    + simpl in Hi. apply (IH i j); [lia | assumption | assumption].
Qed.

(* ===================================================================== *)
(** * Facts about the proximity ranking *)
(* ===================================================================== *)

Lemma RankedBefore_trans (a b c : ProximityResult) :
  RankedBefore a b -> RankedBefore b c -> RankedBefore a c.
Proof.
  unfold RankedBefore. intros (Hab1 & Hab2 & Hab3) (Hbc1 & Hbc2 & Hbc3).
  assert (Hsame : isInside a = isInside c ->
                  isInside a = isInside b /\ isInside b = isInside c).
  { destruct (isInside a), (isInside b), (isInside c); intros H;
      try discriminate; try (split; reflexivity).
    - specialize (Hbc1 eq_refl). discriminate.
    - specialize (Hab1 eq_refl). discriminate. }
  split; [| split].
  - auto.
  - intros H. destruct (Hsame H) as [H1 H2].
    specialize (Hab2 H1). specialize (Hbc2 H2). lia.
  - intros H Hp. destruct (Hsame H) as [H1 H2].
    specialize (Hab2 H1). specialize (Hbc2 H2).
    assert (actionPriority a = actionPriority b) by lia.
    assert (actionPriority b = actionPriority c) by lia.
    eapply num_le_trans; eauto.
Qed.

Lemma compareProximity_le (a b : ProximityResult) :
  compareProximity a b <> Gt -> RankedBefore a b.
Proof.
  unfold compareProximity, RankedBefore.
  destruct (isInside a), (isInside b); simpl;
    try (intros H; repeat split; intros; congruence).
  all: destruct (Z.eqb_spec (actionPriority a) (actionPriority b)) as [He | Hne];
    simpl; intros H; repeat split; intros; try reflexivity; try lia;
    try (apply num_sub_sign_le; assumption);
    try (apply Z.compare_ngt_iff in H; lia).
Qed.

Lemma compareProximity_gt (a b : ProximityResult) :
  compareProximity a b = Gt -> RankedBefore b a.
Proof.
  unfold compareProximity, RankedBefore.
  destruct (isInside a), (isInside b); simpl;
    try (intros H; repeat split; intros; congruence).
  all: destruct (Z.eqb_spec (actionPriority a) (actionPriority b)) as [He | Hne];
    simpl; intros H; repeat split; intros; try reflexivity; try lia;
    try (apply num_sub_sign_gt; assumption);
    try (apply Z.compare_gt_iff in H; lia).
Qed.

Lemma hasUsablePolygon_spec (e : EmergencyEvent) :
  hasUsablePolygon e = true <->
  exists pc, polygon e = Some pc /\ (3 <= length pc)%nat.
Proof.
  unfold hasUsablePolygon. destruct (polygon e) as [pc |].
  - rewrite Nat.leb_le. split.
    + intros H. exists pc. auto.
    + intros [pc' [Heq H]]. injection Heq as ->. exact H.
  - split; [discriminate | intros [pc [Heq _]]; discriminate].
Qed.

Section GeoFacts.
Variable turf_distance : Point -> Point -> Q.
Variable turf_booleanPointInPolygon : Point -> list Point -> option bool.

Let within := isPointInPolygon turf_booleanPointInPolygon.
Let toPolygon := distanceToPolygon turf_distance turf_booleanPointInPolygon.
Let rank := calculateProximity turf_distance turf_booleanPointInPolygon.

(** The loop of [distanceToPolygon] from an accumulator: the result is
    below the accumulator and below every vertex distance, and it is the
    accumulator or one of the vertex distances. *)
Lemma minDist_loop (coords : Point) (ring : list Point) (acc : num) :
  let r :=
    fold_left
      (fun minDist vertex =>
         let dist := calculateDistance turf_distance coords vertex in
         if num_ltb dist minDist then dist else minDist)
      ring acc in
  num_le r acc /\
  (forall v, v ∈ ring -> num_le r (calculateDistance turf_distance coords v)) /\
  (r = acc \/
   exists v, v ∈ ring /\ r = calculateDistance turf_distance coords v).
Proof.
  revert acc. induction ring as [| v ring IH]; intros acc.
  - simpl. split; [apply num_le_refl |]. split; [| left; reflexivity].
    intros v Hv. inversion Hv.
  - cbn [fold_left]. cbv zeta.
    pose (dist := calculateDistance turf_distance coords v).
    fold dist.
    specialize (IH (if num_ltb dist acc then dist else acc)).
    cbv zeta in IH. destruct IH as (H1 & H2 & H3).
    destruct (num_ltb dist acc) eqn:Hlt.
    + apply num_ltb_true_le in Hlt.
      split; [eapply num_le_trans; eauto |]. split.
      * intros u Hu. apply elem_of_cons in Hu as [-> | Hu];
          [exact H1 | apply H2, Hu].
      * right. destruct H3 as [H3 | [u [Hu H3]]].
        -- exists v. split; [left | exact H3].
        -- exists u. split; [right; exact Hu | exact H3].
    + apply num_ltb_false_le in Hlt.
      split; [exact H1 |]. split.
      * intros u Hu. apply elem_of_cons in Hu as [-> | Hu];
          [eapply num_le_trans; eauto | apply H2, Hu].
      * destruct H3 as [H3 | [u [Hu H3]]].
        -- left. exact H3.
        -- right. exists u. split; [right; exact Hu | exact H3].
Qed.

(** C8. [distanceToPolygon] is [Infinity] for a missing ring and for a ring
    of fewer than 3 vertices; otherwise it is 0 when [isPointInPolygon]
    holds, and otherwise the least of the distances from the point to the
    vertices of the ring: the distance to one of the vertices, and no more
    than the distance to any of them. *)
Theorem distanceToPolygon_spec (coords : Point) (ring : list Point) :
  toPolygon coords None = Infinity /\
  ((length ring < 3)%nat -> toPolygon coords (Some ring) = Infinity) /\
  ((3 <= length ring)%nat -> within coords (Some ring) = true ->
     toPolygon coords (Some ring) = Fin 0) /\
  ((3 <= length ring)%nat -> within coords (Some ring) = false ->
     (exists v, v ∈ ring /\
        toPolygon coords (Some ring) = calculateDistance turf_distance coords v) /\
     (forall v, v ∈ ring ->
        num_le (toPolygon coords (Some ring))
               (calculateDistance turf_distance coords v))).
Proof.
  subst within toPolygon. unfold distanceToPolygon.
  split; [reflexivity |]. split; [| split].
  - intros H. apply Nat.ltb_lt in H. rewrite H. reflexivity.
  - intros H Hin. apply Nat.ltb_ge in H. rewrite H, Hin. reflexivity.
  - intros H Hin. pose proof H as Hlen. apply Nat.ltb_ge in H.
    rewrite H, Hin.
    destruct (minDist_loop coords ring Infinity) as (_ & H2 & H3).
    split; [| exact H2].
    destruct H3 as [H3 | H3]; [| exact H3].
    destruct ring as [| v ring]; [simpl in Hlen; lia |].
    assert (Hv : v ∈ v :: ring) by left. specialize (H2 v Hv).
    rewrite H3 in H2. simpl in H2. contradiction.
Qed.

(** C2. The ranking holds exactly the hazards that have a polygon of at
    least 3 vertices, each once, and of any two of its results the earlier
    one is ranked before the later: no inside result follows an outside
    one, with equal [isInside] the action priority does not increase, and
    with both equal the distance does not decrease. *)
Theorem calculateProximity_ranked (loc : Point) (events : list EmergencyEvent) :
  Permutation (map event (rank loc events)) (filter hasUsablePolygon events) /\
  (forall e, e ∈ map event (rank loc events) <->
     e ∈ events /\ exists pc, polygon e = Some pc /\ (3 <= length pc)%nat) /\
  (forall i j a b, (i < j)%nat ->
     rank loc events !! i = Some a -> rank loc events !! j = Some b ->
     RankedBefore a b).
Proof.
  subst rank. unfold calculateProximity.
  assert (Hperm :
    Permutation
      (map event
         (sort compareProximity
            (map (toProximity turf_distance turf_booleanPointInPolygon loc)
               (filter hasUsablePolygon events))))
      (filter hasUsablePolygon events)).
  { rewrite sort_perm, map_map. simpl. rewrite map_id. reflexivity. }
  split; [exact Hperm |]. split.
  - intros e. rewrite Hperm, list_elem_of_filter, <- hasUsablePolygon_spec.
    rewrite Is_true_true. tauto.
  - apply StronglySorted_lookup.
    apply (sort_sorted compareProximity RankedBefore).
    + apply compareProximity_le.
    + apply compareProximity_gt.
    + apply RankedBefore_trans.
Qed.
End GeoFacts.

(** C8 at the triangle (0,0), (4,0), (0,4) seen from (6,1), which is outside
    it: the result is no more than the distance to the vertex (4,0). *)
Lemma distanceToPolygon_spec_witness :
  num_le
    (distanceToPolygon sampleDistance sampleInside (pt 6 1)
       (Some [pt 0 0; pt 4 0; pt 0 4]))
    (calculateDistance sampleDistance (pt 6 1) (pt 4 0)).
Proof.
  destruct (distanceToPolygon_spec sampleDistance sampleInside (pt 6 1)
              [pt 0 0; pt 4 0; pt 0 4]) as (_ & _ & _ & H).
  destruct H as [_ H].
  - simpl. lia.
  - vm_compute. reflexivity.
  - apply H. right. left.
Defined.

(** C2 at three hazards seen from (1,1): the one without a polygon is left
    out, and the hazard the location is inside is ranked before the other,
    whose action priority is higher. *)
Lemma calculateProximity_ranked_witness :
  exists a b,
    calculateProximity sampleDistance sampleInside (pt 1 1) sampleHazards
      = [a; b] /\
    event a = hazardH1 /\ event b = hazardH2 /\ RankedBefore a b.
Proof.
  destruct (calculateProximity_ranked sampleDistance sampleInside (pt 1 1)
              sampleHazards) as (_ & _ & H).
  exists (toProximity sampleDistance sampleInside (pt 1 1) hazardH1),
         (toProximity sampleDistance sampleInside (pt 1 1) hazardH2).
  assert (Heq : calculateProximity sampleDistance sampleInside (pt 1 1)
                  sampleHazards =
                [toProximity sampleDistance sampleInside (pt 1 1) hazardH1;
                 toProximity sampleDistance sampleInside (pt 1 1) hazardH2])
    by (vm_compute; reflexivity).
  split; [exact Heq |]. split; [reflexivity |]. split; [reflexivity |].
  apply (H 0%nat 1%nat); [lia | rewrite Heq; reflexivity | rewrite Heq; reflexivity].
Defined.

(* ===================================================================== *)
(** * Facts about the proximity watch *)
(* ===================================================================== *)

Lemma enteredZone_spec (n : ProximityResult) (prev : option Prev.t) :
  enteredZone n prev = true <-> EnteredZone n prev.
Proof.
  unfold enteredZone, EnteredZone. rewrite andb_true_iff, negb_true_iff.
  destruct prev as [p |]; simpl.
  - split; intros [H1 H2]; split; auto.
    intros q Hq. injection Hq as <-. exact H2.
  - split; intros [H1 H2]; split; auto. intros q Hq. discriminate.
Qed.

Lemma crossedCritical_spec (n : ProximityResult) (prev : option Prev.t) :
  (crossedCritical n prev && negb (isInside n))%bool = true <->
  CrossedCritical n prev.
Proof.
  unfold crossedCritical, CrossedCritical, CRITICAL_THRESHOLD.
  rewrite !andb_true_iff, negb_true_iff, num_leb_le, num_ltb_lt.
  destruct prev as [p |]; simpl; tauto.
Qed.

Lemma eventChanged_spec (n : ProximityResult) (prev : option Prev.t) :
  (eventChanged n prev && num_leb (distance n) DANGER_THRESHOLD)%bool = true <->
  NewNearestInRange n prev.
Proof.
  unfold eventChanged, NewNearestInRange, DANGER_THRESHOLD.
  rewrite andb_true_iff, negb_true_iff, bool_decide_eq_false, num_leb_le.
  destruct prev as [p |]; simpl.
  - split; intros [H1 H2]; split; auto.
    + intros q Hq. injection Hq as <-. congruence.
    + intros Heq. injection Heq as Heq. exact (H1 p eq_refl Heq).
  - split; intros [H1 H2]; split; auto; try discriminate;
      intros q Hq; discriminate.
Qed.

(** A test that decides a proposition settles it one way or the other. *)
Lemma decide_by {b : bool} {P : Prop} :
  (b = true <-> P) -> (b = true /\ P) \/ (b = false /\ ~ P).
Proof.
  intros H. destruct b.
  - left. split; [reflexivity | apply H; reflexivity].
  - right. split; [reflexivity |]. intros HP. apply H in HP. discriminate.
Qed.

Section ProximityFacts.
Variable turf_distance : Point -> Point -> Q.
Variable turf_booleanPointInPolygon : Point -> list Point -> option bool.

Let nearest := getNearestDanger turf_distance turf_booleanPointInPolygon.
Let watch :=
  proximityEffect turf_distance turf_booleanPointInPolygon.

(** The proximity effect once it is past its guards. *)
Lemma proximityEffect_active (loc : Point) (events : list EmergencyEvent)
    (m : EngineMemory) (n : ProximityResult) :
  isReady m = true -> nearest loc events = Some n ->
  watch (Some loc) events m =
    (proximityAlerts n (previousNearest m),
     {| isReady := isReady m;
        hasInitialized := hasInitialized m;
        previousEvents := previousEvents m;
        previousNearest := Some (snapshotOf n) |}).
Proof.
  subst nearest watch. intros Hready Hn. unfold proximityEffect.
  rewrite Hready, Hn. simpl.
  destruct events as [| e events]; [discriminate | reflexivity].
Qed.

(** C1. On a tick of a ready engine with a location, a non-empty hazard
    list and a nearest result, the proximity watch asks for at most one
    alert: the critical entered-zone alert when that condition holds;
    otherwise the critical crossed-critical alert when that one holds;
    otherwise the warning new-nearest alert when that one holds; otherwise
    none. Each of the three is a proximity alert for the nearest hazard. *)
Theorem proximityEffect_priority (loc : Point) (events : list EmergencyEvent)
    (m : EngineMemory) (n : ProximityResult)
    (Hready : isReady m = true) (Hevents : events <> [])
    (Hnearest : nearest loc events = Some n) :
  let prev := previousNearest m in
  let asked := fst (watch (Some loc) events m) in
  (length asked <= 1)%nat /\
  (EnteredZone n prev -> asked = [enteredZoneAlert n]) /\
  (~ EnteredZone n prev -> CrossedCritical n prev ->
     asked = [crossedCriticalAlert n]) /\
  (~ EnteredZone n prev -> ~ CrossedCritical n prev ->
     NewNearestInRange n prev -> asked = [newNearestAlert n]) /\
  (~ EnteredZone n prev -> ~ CrossedCritical n prev ->
     ~ NewNearestInRange n prev -> asked = []) /\
  (AlertRequest.type (enteredZoneAlert n) = Proximity /\
   AlertRequest.severity (enteredZoneAlert n) = Critical /\
   AlertRequest.eventId (enteredZoneAlert n) = Some (id (event n))) /\
  (AlertRequest.type (crossedCriticalAlert n) = Proximity /\
   AlertRequest.severity (crossedCriticalAlert n) = Critical /\
   AlertRequest.eventId (crossedCriticalAlert n)
     = Some (id (event n))) /\
  (AlertRequest.type (newNearestAlert n) = Proximity /\
   AlertRequest.severity (newNearestAlert n) = Warning /\
   AlertRequest.eventId (newNearestAlert n)
     = Some (id (event n))).
Proof.
  intros prev asked. subst asked.
  rewrite (proximityEffect_active loc events m n Hready Hnearest).
  cbn [fst]. fold prev. unfold proximityAlerts.
  destruct (decide_by (enteredZone_spec n prev)) as [[E1 P1] | [E1 P1]];
    rewrite E1.
  { repeat match goal with |- _ /\ _ => split end;
      intros; first [reflexivity | contradiction | simpl; lia]. }
  destruct (decide_by (crossedCritical_spec n prev)) as [[E2 P2] | [E2 P2]];
    rewrite E2.
  { repeat match goal with |- _ /\ _ => split end;
      intros; first [reflexivity | contradiction | simpl; lia]. }
  destruct (decide_by (eventChanged_spec n prev)) as [[E3 P3] | [E3 P3]];
    rewrite E3.
  { repeat match goal with |- _ /\ _ => split end;
      intros; first [reflexivity | contradiction | simpl; lia]. }
  repeat match goal with |- _ /\ _ => split end;
    intros; first [reflexivity | contradiction | simpl; lia].
Qed.
End ProximityFacts.

(** C1 at a ready engine whose snapshot is outside every zone, when the
    location is now inside the first hazard: the watch asks for the
    entered-zone alert and nothing else. *)
Lemma proximityEffect_priority_witness :
  exists n,
    getNearestDanger sampleDistance sampleInside (pt 1 1) sampleHazards = Some n /\
    event n = hazardH1 /\
    fst (proximityEffect sampleDistance sampleInside
           (Some (pt 1 1)) sampleHazards sampleMemory)
      = [enteredZoneAlert n].
Proof.
  exists (toProximity sampleDistance sampleInside (pt 1 1) hazardH1).
  assert (Hn : getNearestDanger sampleDistance sampleInside (pt 1 1) sampleHazards
               = Some (toProximity sampleDistance sampleInside (pt 1 1) hazardH1))
    by (vm_compute; reflexivity).
  split; [exact Hn |]. split; [reflexivity |].
  destruct (proximityEffect_priority sampleDistance sampleInside
              (pt 1 1) sampleHazards sampleMemory _
              eq_refl ltac:(discriminate) Hn) as (_ & H & _).
  apply H. split; [vm_compute; reflexivity |].
  intros p Hp. injection Hp as <-. reflexivity.
Defined.

(** The texts of [formatDistance] below 1 km, below 10 km and above. *)
Example formatDistance_samples :
  formatDistance (Fin (1 # 4)) = "250m"%string /\
  formatDistance (Fin (3 # 2)) = "1.5km"%string /\
  formatDistance (Fin 18) = "18km"%string.
Proof. repeat split; vm_compute; reflexivity. Qed.

(** A location 10 km from the only hazard moves to 1.5 km from it and stays
    there: the crossed-critical alert is asked for on the tick that brings
    the distance under 2 km, and on no tick before or after. *)
Example crossing_scenario :
  let ready :=
    becomeReady
      (initEffect sampleDistance sampleInside (Some (pt 14 0)) [hazardH1]
         initialMemory) in
  let far := tick sampleDistance sampleInside (Some (pt 14 0)) [hazardH1] ready in
  let near :=
    tick sampleDistance sampleInside (Some (11 # 2, 0)%Q) [hazardH1] (snd far) in
  let stay :=
    tick sampleDistance sampleInside (Some (11 # 2, 0)%Q) [hazardH1] (snd near) in
  fst far = [] /\
  fst near =
    [crossedCriticalAlert
       (toProximity sampleDistance sampleInside (11 # 2, 0)%Q hazardH1)] /\
  AlertRequest.message
    (crossedCriticalAlert
       (toProximity sampleDistance sampleInside (11 # 2, 0)%Q hazardH1))
    = "Bushfire is only 1.5km away!"%string /\
  fst stay = [].
Proof. cbv zeta. repeat split; vm_compute; reflexivity. Qed.

(* ===================================================================== *)
(** * Facts about the change-detection watch *)
(* ===================================================================== *)

Lemma isFalsy_Some (u : string) : u <> EmptyString -> isFalsy (Some u) = false.
Proof. destruct u; [congruence | reflexivity]. Qed.

(** Whatever it asks for, the callback stores the current fingerprint. *)
Lemma checkEvent_memory (mem : gmap EventId string) (e : EmergencyEvent) :
  snd (checkEvent mem e) = <[id e := updated e]> mem.
Proof. reflexivity. Qed.

(** A hazard whose id is not in memory: one new-warning alert when its
    action text contains "shelter" (critical) or "leave" (warning), and none
    otherwise. *)
Lemma checkEvent_new (mem : gmap EventId string) (e : EmergencyEvent) :
  mem !! id e = None ->
  (Contains (actionText e) "shelter" ->
     exists r, fst (checkEvent mem e) = [r] /\
       AlertRequest.type r = NewWarning /\
       AlertRequest.severity r = Critical /\
       AlertRequest.eventId r = Some (id e)) /\
  (~ Contains (actionText e) "shelter" -> Contains (actionText e) "leave" ->
     exists r, fst (checkEvent mem e) = [r] /\
       AlertRequest.type r = NewWarning /\
       AlertRequest.severity r = Warning /\
       AlertRequest.eventId r = Some (id e)) /\
  (~ Contains (actionText e) "shelter" -> ~ Contains (actionText e) "leave" ->
     fst (checkEvent mem e) = []).
Proof.
  intros Hnew. unfold checkEvent. rewrite Hnew. cbn [isFalsy fst].
  fold (actionText e). repeat split.
  - intros H. apply includes_spec in H. rewrite H. simpl. eauto.
  - intros H1 H2. apply includes_false in H1. apply includes_spec in H2.
    rewrite H1, H2. simpl. eauto.
  - intros H1 H2. apply includes_false in H1, H2. rewrite H1, H2. reflexivity.
Qed.

(** A hazard whose id is in memory with a fingerprint that is not the empty
    string: one zone-change info alert when the fingerprint differs from the
    current one, and none when it is the same. *)
Lemma checkEvent_known (mem : gmap EventId string) (e : EmergencyEvent)
    (u : string) :
  mem !! id e = Some u -> u <> EmptyString ->
  (u <> updated e ->
     exists r, fst (checkEvent mem e) = [r] /\
       AlertRequest.type r = ZoneChange /\
       AlertRequest.severity r = Info /\
       AlertRequest.eventId r = Some (id e)) /\
  (u = updated e -> fst (checkEvent mem e) = []).
Proof.
  intros Hu Hne. unfold checkEvent. rewrite Hu, (isFalsy_Some u Hne).
  cbn [fst]. split.
  - intros Hdiff. rewrite bool_decide_eq_false_2 by congruence. simpl. eauto.
  - intros ->. rewrite bool_decide_eq_true_2 by reflexivity. reflexivity.
Qed.

(** A stored empty fingerprint is read as no fingerprint: the hazard is
    handled as one whose id is not in memory. *)
Lemma checkEvent_stored_empty (mem : gmap EventId string) (e : EmergencyEvent) :
  mem !! id e = Some EmptyString ->
  fst (checkEvent mem e) = fst (checkEvent (delete (id e) mem) e).
Proof.
  intros H. unfold checkEvent. rewrite H, lookup_delete_eq. reflexivity.
Qed.

(** With nothing in memory, a hazard with the action "Leave Immediately"
    gets one new-warning alert of warning severity that refers to it. *)
Example new_leave_immediately_scenario :
  fst (checkEvent ∅ hazardH1) =
    [ {| AlertRequest.type := NewWarning;
         AlertRequest.severity := Warning;
         AlertRequest.title := "New Evacuation Warning";
         AlertRequest.message := "Bushfire: Briagolong";
         AlertRequest.eventId := Some (IdString "H1") |} ].
Proof. vm_compute. reflexivity. Qed.

Lemma checkEvents_memory (events : list EmergencyEvent)
    (mem : gmap EventId string) :
  snd (checkEvents mem events) =
    fold_left (fun acc e => <[id e := updated e]> acc) events mem.
Proof.
  revert mem. induction events as [| e events IH]; intros mem; [reflexivity |].
  cbn [checkEvents fold_left].
  destruct (checkEvent mem e) as [asked mem'] eqn:He.
  pose proof (checkEvent_memory mem e) as Hm. rewrite He in Hm. simpl in Hm.
  subst mem'. specialize (IH (<[id e := updated e]> mem)).
  destruct (checkEvents (<[id e := updated e]> mem) events) as [asked' mem''].
  exact IH.
Qed.

(** After the loop every hazard of a list without repeated ids is in
    memory with its current fingerprint. *)
Lemma seeded_lookup (events : list EmergencyEvent) (mem : gmap EventId string) :
  NoDup (map id events) ->
  forall e, e ∈ events ->
    fold_left (fun acc e => <[id e := updated e]> acc) events mem !! id e
      = Some (updated e).
Proof.
  revert mem. induction events as [| x events IH]; intros mem Hnd e He.
  - inversion He.
  - cbn [fold_left]. simpl in Hnd. apply NoDup_cons in Hnd as [Hx Hnd].
    apply elem_of_cons in He as [-> | He]; [| apply IH; assumption].
    clear IH Hnd. revert mem.
    induction events as [| y events IH]; intros mem.
    + simpl. apply lookup_insert_eq.
    + cbn [fold_left]. simpl in Hx. apply not_elem_of_cons in Hx as [Hxy Hx].
      rewrite insert_insert_ne by congruence. apply IH, Hx.
Qed.

(** With every hazard in memory under its current, non-empty fingerprint,
    the loop asks for nothing and leaves the memory as it is. *)
Lemma checkEvents_steady (events : list EmergencyEvent)
    (mem : gmap EventId string) :
  (forall e, e ∈ events ->
     mem !! id e = Some (updated e) /\ updated e <> EmptyString) ->
  checkEvents mem events = ([], mem).
Proof.
  induction events as [| e events IH]; intros H; [reflexivity |].
  cbn [checkEvents].
  destruct (H e) as [He Hne]; [left |].
  destruct (checkEvent mem e) as [asked mem'] eqn:Hc.
  pose proof (checkEvent_memory mem e) as Hm.
  destruct (checkEvent_known mem e (updated e) He Hne) as [_ Hnone].
  rewrite Hc in Hm, Hnone. simpl in Hm, Hnone.
  rewrite (Hnone eq_refl). subst mem'. rewrite (insert_id mem _ _ He).
  rewrite IH; [reflexivity |]. intros x Hx. apply H. right. exact Hx.
Qed.

(** On the snapshot of the very result it looks at, none of the proximity
    conditions holds. *)
Lemma proximityAlerts_same (n : ProximityResult) :
  proximityAlerts n (Some (snapshotOf n)) = [].
Proof.
  unfold proximityAlerts.
  destruct (decide_by (enteredZone_spec n (Some (snapshotOf n))))
    as [[E1 [P1 P1']] | [E1 _]].
  { specialize (P1' _ eq_refl). simpl in P1'. congruence. }
  rewrite E1.
  destruct (decide_by (crossedCritical_spec n (Some (snapshotOf n))))
    as [[E2 (_ & P2 & P2')] | [E2 _]].
  { exfalso. exact (num_lt_le_incompatible (Fin 2) (distance n) P2' P2). }
  rewrite E2.
  destruct (decide_by (eventChanged_spec n (Some (snapshotOf n))))
    as [[E3 [P3 _]] | [E3 _]].
  { exfalso. exact (P3 _ eq_refl eq_refl). }
  rewrite E3. reflexivity.
Qed.

Section TickFacts.
Variable turf_distance : Point -> Point -> Q.
Variable turf_booleanPointInPolygon : Point -> list Point -> option bool.

Let nearest := getNearestDanger turf_distance turf_booleanPointInPolygon.
Let step := tick turf_distance turf_booleanPointInPolygon.
Let watch :=
  proximityEffect turf_distance turf_booleanPointInPolygon.

(** A tick of a ready, initialized engine: the change-detection effect,
    then the proximity effect. *)
Lemma tick_ready (userLocation : option Point) (events : list EmergencyEvent)
    (m : EngineMemory) :
  isReady m = true -> hasInitialized m = true ->
  step userLocation events m =
    let m1 := {| isReady := true;
                 hasInitialized := true;
                 previousEvents := snd (checkEvents (previousEvents m) events);
                 previousNearest := previousNearest m |} in
    (fst (checkEvents (previousEvents m) events)
       ++ fst (watch userLocation events m1),
     snd (watch userLocation events m1)).
Proof.
  subst step watch. intros Hr Hi. unfold tick, initEffect.
  rewrite Hi. cbn [orb]. unfold changeEffect. rewrite !Hr, !Hi. cbn [negb].
  destruct (checkEvents (previousEvents m) events) as [asked mem].
  cbv zeta. cbn [fst snd].
  destruct (proximityEffect turf_distance turf_booleanPointInPolygon
              userLocation events _) as [near m2].
  reflexivity.
Qed.

(** The proximity effect keeps the fingerprints, stays ready, and when it
    has a nearest result it stores that result's snapshot. *)
Lemma proximityEffect_memory (userLocation : option Point)
    (events : list EmergencyEvent) (m : EngineMemory) :
  let m' := snd (watch userLocation events m) in
  isReady m' = isReady m /\
  hasInitialized m' = hasInitialized m /\
  previousEvents m' = previousEvents m /\
  (forall loc n, isReady m = true -> userLocation = Some loc ->
     nearest loc events = Some n -> previousNearest m' = Some (snapshotOf n)).
Proof.
  subst watch nearest. unfold proximityEffect.
  destruct (isReady m) eqn:Hr; simpl;
    [| repeat split; auto; intros; discriminate].
  destruct userLocation as [loc |]; simpl;
    [| repeat split; auto; intros; discriminate].
  destruct events as [| e events]; simpl;
    [repeat split; auto; intros ? ? _ _ H; discriminate |].
  destruct (getNearestDanger _ _ loc (e :: events)) as [n |] eqn:Hn; simpl.
  - repeat split; auto. intros loc' n' _ Hloc Hn'.
    injection Hloc as <-. rewrite Hn in Hn'. injection Hn' as <-. reflexivity.
  - repeat split; auto. intros loc' n' _ Hloc Hn'.
    injection Hloc as <-. rewrite Hn in Hn'. discriminate.
Qed.

(** With the snapshot of the current nearest result in memory, the
    proximity effect asks for nothing. *)
Lemma proximityEffect_steady (userLocation : option Point)
    (events : list EmergencyEvent) (m : EngineMemory) :
  (forall loc n, userLocation = Some loc -> nearest loc events = Some n ->
     previousNearest m = Some (snapshotOf n)) ->
  fst (watch userLocation events m) = [].
Proof.
  subst watch nearest. intros H. unfold proximityEffect.
  destruct (isReady m); [| reflexivity]. simpl.
  destruct userLocation as [loc |]; [| reflexivity].
  destruct (length events =? 0)%nat; [reflexivity |].
  destruct (getNearestDanger _ _ loc events) as [n |] eqn:Hn; [| reflexivity].
  cbn [fst]. rewrite (H loc n eq_refl Hn). apply proximityAlerts_same.
Qed.

(** Steady state: a ready engine that is shown the same hazards and the
    same location twice asks for nothing the second time, provided the
    hazards have distinct ids and none has an empty [updated] text. *)
Lemma tick_steady (userLocation : option Point)
    (events : list EmergencyEvent) (m : EngineMemory) :
  isReady m = true -> hasInitialized m = true ->
  NoDup (map id events) ->
  (forall e, e ∈ events -> updated e <> EmptyString) ->
  fst (step userLocation events (snd (step userLocation events m))) = [].
Proof.
  intros Hr Hi Hnd Hne.
  rewrite (tick_ready userLocation events m Hr Hi). cbv zeta. cbn [snd].
  set (m1 := {| isReady := true; hasInitialized := true;
                previousEvents := snd (checkEvents (previousEvents m) events);
                previousNearest := previousNearest m |}).
  destruct (proximityEffect_memory userLocation events m1)
    as (Hr2 & Hi2 & Hmem2 & Hsnap2).
  fold watch. set (m2 := snd (watch userLocation events m1)) in *.
  rewrite (tick_ready userLocation events m2) by
    (first [rewrite Hr2 | rewrite Hi2]; reflexivity).
  cbv zeta. cbn [fst].
  assert (Hsteady : checkEvents (previousEvents m2) events
                    = ([], previousEvents m2)).
  { apply checkEvents_steady. intros e He. split; [| apply Hne, He].
    rewrite Hmem2. subst m1. cbn [previousEvents].
    rewrite checkEvents_memory. apply seeded_lookup; assumption. }
  rewrite Hsteady. cbn [fst snd app].
  apply proximityEffect_steady. intros loc n Hloc Hn. cbn [previousNearest].
  apply (Hsnap2 loc n); [reflexivity | exact Hloc | exact Hn].
Qed.
End TickFacts.

(** Outside the contract of the feed, where [updated] is an ISO 8601 time
    stamp: an engine is seeded with a hazard whose [updated] text is empty
    and becomes ready; the hazard then comes back with a time stamp and no
    action text. The test [!prevUpdated] reads the stored empty string as a
    missing entry, and the effect takes the branch for new hazards: it asks
    for no zone-change alert. The memory is updated all the same. *)
Remark changeEffect_stored_empty_fingerprint :
  memoryNoStamp =
    becomeReady
      (initEffect sampleDistance sampleInside None [hazardNoStamp] initialMemory) /\
  previousEvents memoryNoStamp !! id hazardStamped = Some EmptyString /\
  updated hazardStamped <> EmptyString /\
  fst (changeEffect [hazardStamped] memoryNoStamp) = [] /\
  previousEvents (snd (changeEffect [hazardStamped] memoryNoStamp))
    !! id hazardStamped = Some (updated hazardStamped).
Proof.
  split; [reflexivity |].
  split; [apply lookup_insert_eq |]. split; [discriminate |].
  assert (Hnew : fst (checkEvent (previousEvents memoryNoStamp) hazardStamped) = []).
  { rewrite checkEvent_stored_empty by apply lookup_insert_eq.
    apply checkEvent_new; [apply lookup_delete_eq | |];
      apply includes_false; reflexivity. }
  unfold changeEffect. cbn [isReady memoryNoStamp negb checkEvents].
  destruct (checkEvent (previousEvents memoryNoStamp) hazardStamped)
    as [asked mem] eqn:Hc.
  pose proof (checkEvent_memory (previousEvents memoryNoStamp) hazardStamped) as Hm.
  rewrite Hc in Hm. simpl in Hm, Hnew. subst asked mem.
  split; [reflexivity |]. apply lookup_insert_eq.
Qed.

Section ReplayFacts.
Variable turf_distance : Point -> Point -> Q.
Variable turf_booleanPointInPolygon : Point -> list Point -> option bool.

Let step := tick turf_distance turf_booleanPointInPolygon.

(** Outside the contract of the feed as well: an engine seeded with the
    first hazard becomes ready and is then shown, twice, that hazard
    together with a new one whose [updated] text is empty and whose action
    is "Shelter In Place". The second tick asks for the critical new-warning
    alert of the first tick again, because [!prevUpdated] reads the stored
    empty string as a missing entry. *)
Remark tick_replay_empty_fingerprint :
  let ready :=
    becomeReady
      (initEffect turf_distance turf_booleanPointInPolygon None [hazardH1]
         initialMemory) in
  let first := step None [hazardH1; hazardNoStamp] ready in
  let second := step None [hazardH1; hazardNoStamp] (snd first) in
  isReady ready = true /\
  previousEvents (snd first) !! id hazardH1 = Some (updated hazardH1) /\
  previousEvents (snd first) !! id hazardNoStamp = Some (updated hazardNoStamp) /\
  fst second = fst first /\
  exists r, fst second = [r] /\
    AlertRequest.type r = NewWarning /\
    AlertRequest.severity r = Critical /\
    AlertRequest.eventId r = Some (id hazardNoStamp).
Proof.
  intros ready first second.
  assert (H1 : first =
    (fst (checkEvents (previousEvents ready) [hazardH1; hazardNoStamp]),
     {| isReady := true; hasInitialized := true;
        previousEvents :=
          snd (checkEvents (previousEvents ready) [hazardH1; hazardNoStamp]);
        previousNearest := None |})).
  { subst first step. rewrite tick_ready by reflexivity. reflexivity. }
  assert (H2 : second =
    (fst (checkEvents (previousEvents (snd first)) [hazardH1; hazardNoStamp]),
     {| isReady := true; hasInitialized := true;
        previousEvents :=
          snd (checkEvents (previousEvents (snd first))
                 [hazardH1; hazardNoStamp]);
        previousNearest := None |})).
  { subst second step. rewrite H1. cbn [snd].
    rewrite tick_ready by reflexivity. reflexivity. }
  rewrite H2, H1. cbn [fst snd previousEvents].
  split; [reflexivity |].
  split; [vm_compute; reflexivity |].
  split; [vm_compute; reflexivity |].
  split; [vm_compute; reflexivity |].
  eexists. split; [reflexivity |]. repeat split.
Qed.
End ReplayFacts.

(* ===================================================================== *)
(** * Facts about the fetch client *)
(* ===================================================================== *)

Section ClientFacts.
Variable network : nat -> string -> FetchOutcome.

(** One attempt makes one call; it yields the response when the outcome is
    a success and throws the failure's message otherwise. *)
Lemma attempt_spec (url : string) (w : World) :
  attempt network url w =
    (match network (calls w) url with
     | Rejected msg => Err msg
     | Resolved r => if ok r then Ok r else Err (httpErrorMessage r)
     end,
     {| calls := S (calls w); trace := trace w ++ [Fetched url] |}).
Proof.
  unfold attempt, bind, fetch.
  destruct (network (calls w) url) as [msg | r]; [reflexivity |].
  destruct (ok r); reflexivity.
Qed.

Lemma attempt_success (url : string) (w : World) (r : Response) :
  success (network (calls w) url) = Some r ->
  attempt network url w =
    (Ok r, {| calls := S (calls w); trace := trace w ++ [Fetched url] |}).
Proof.
  intros H. rewrite attempt_spec. unfold success in H.
  destruct (network (calls w) url) as [msg | r']; [discriminate |].
  destruct (ok r'); [| discriminate]. injection H as ->. reflexivity.
Qed.

Lemma attempt_failure (url : string) (w : World) (msg : string) :
  failure (network (calls w) url) = Some msg ->
  attempt network url w =
    (Err msg, {| calls := S (calls w); trace := trace w ++ [Fetched url] |}).
Proof.
  intros H. rewrite attempt_spec. unfold failure in H.
  destruct (network (calls w) url) as [msg' | r'].
  - injection H as ->. reflexivity.
  - destruct (ok r'); [discriminate |]. injection H as ->. reflexivity.
Qed.

Lemma success_or_failure (o : FetchOutcome) :
  (exists r, success o = Some r /\ failure o = None) \/
  (exists msg, failure o = Some msg /\ success o = None).
Proof.
  destruct o as [msg | r]; simpl; [right; eauto |].
  destruct (ok r); [left | right]; eauto.
Qed.

(** C5. With the default budget [fetchWithRetry] makes at most 3 calls. It
    returns the response of the first attempt that succeeds; an attempt
    fails alike when [fetch] rejects and when the response is not [ok];
    after the first failure it waits 1000 ms and after the second 2000 ms;
    and it throws, with the error of the third attempt, only when all
    three attempts have failed. *)
Theorem fetchWithRetry_budget (url : string) (w : World) :
  let o0 := network (calls w) url in
  let o1 := network (S (calls w)) url in
  let o2 := network (S (S (calls w))) url in
  let res := fst (fetchWithRetry network url DEFAULT_RETRIES w) in
  let w' := snd (fetchWithRetry network url DEFAULT_RETRIES w) in
  (calls w <= calls w' <= calls w + 3)%nat /\
  (forall r, success o0 = Some r ->
     res = Ok r /\ calls w' = S (calls w) /\
     trace w' = trace w ++ [Fetched url]) /\
  (forall e0 r, failure o0 = Some e0 -> success o1 = Some r ->
     res = Ok r /\ calls w' = S (S (calls w)) /\
     trace w' = trace w ++ [Fetched url; Slept 1000; Fetched url]) /\
  (forall e0 e1 r,
     failure o0 = Some e0 -> failure o1 = Some e1 -> success o2 = Some r ->
     res = Ok r /\ calls w' = S (S (S (calls w))) /\
     trace w' = trace w ++ [Fetched url; Slept 1000; Fetched url;
                            Slept 2000; Fetched url]) /\
  (forall e0 e1 e2,
     failure o0 = Some e0 -> failure o1 = Some e1 -> failure o2 = Some e2 ->
     res = Err e2 /\ calls w' = S (S (S (calls w))) /\
     trace w' = trace w ++ [Fetched url; Slept 1000; Fetched url;
                            Slept 2000; Fetched url]) /\
  (forall msg, res = Err msg ->
     is_Some (failure o0) /\ is_Some (failure o1) /\ failure o2 = Some msg).
Proof.
  intros o0 o1 o2 res w'. subst res w'.
  unfold fetchWithRetry, DEFAULT_RETRIES. cbn [retryFrom].
  unfold tryCatch, bind, sleep, throw. cbn [Nat.eqb Nat.sub].
  destruct (success_or_failure o0) as [[r0 [S0 F0]] | [e0 [F0 S0]]].
  { rewrite (attempt_success url w r0 S0). cbn [fst snd calls trace].
    repeat match goal with |- _ /\ _ => split end; try lia;
      intros; try congruence; try (repeat split; congruence). }
  rewrite (attempt_failure url w e0 F0). cbn [fst snd calls trace].
  set (w1 := {| calls := S (calls w);
                trace := (trace w ++ [Fetched url]) ++ [Slept (1000 * (Z.of_nat 0 + 1))] |}).
  destruct (success_or_failure o1) as [[r1 [S1 F1]] | [e1 [F1 S1]]].
  { rewrite (attempt_success url w1 r1 S1). cbn [fst snd calls trace w1].
    rewrite <- !app_assoc. cbn [app].
    repeat match goal with |- _ /\ _ => split end; try lia;
      intros; try congruence; try (repeat split; congruence). }
  rewrite (attempt_failure url w1 e1 F1). cbn [fst snd calls trace w1].
  set (w2 := {| calls := S (S (calls w));
                trace := (((trace w ++ [Fetched url]) ++ [Slept (1000 * (Z.of_nat 0 + 1))])
                          ++ [Fetched url]) ++ [Slept (1000 * (Z.of_nat 1 + 1))] |}).
  destruct (success_or_failure o2) as [[r2 [S2 F2]] | [e2 [F2 S2]]].
  { rewrite (attempt_success url w2 r2 S2). cbn [fst snd calls trace w2].
    rewrite <- !app_assoc. cbn [app].
    repeat match goal with |- _ /\ _ => split end; try lia;
      intros; try congruence; try (repeat split; congruence). }
  rewrite (attempt_failure url w2 e2 F2). cbn [fst snd calls trace w2].
  rewrite <- !app_assoc. cbn [app].
  repeat match goal with |- _ /\ _ => split end; try lia;
    intros; try congruence; try (repeat split; congruence).
  rewrite F0, F1. repeat split; eauto. congruence.
Qed.
End ClientFacts.

(** C5 on a network that answers 503 twice and then serves the events: the
    third response is returned, after waits of 1000 ms and 2000 ms. *)
Lemma fetchWithRetry_budget_witness :
  exists r,
    fst (fetchWithRetry recoveringNetwork eventsUrl DEFAULT_RETRIES freshWorld)
      = Ok r /\
    ok r = true /\
    trace (snd (fetchWithRetry recoveringNetwork eventsUrl DEFAULT_RETRIES
                  freshWorld))
      = [Fetched eventsUrl; Slept 1000; Fetched eventsUrl;
         Slept 2000; Fetched eventsUrl].
Proof.
  destruct (fetchWithRetry_budget recoveringNetwork eventsUrl freshWorld)
    as (_ & _ & _ & H & _).
  eexists. 
  destruct (H "HTTP 503: Service Unavailable"%string
              "HTTP 503: Service Unavailable"%string
              {| ok := true; status := 200; statusText := "OK";
                 body := EventsPayload sampleHazards |})
    as (H1 & _ & H2); [reflexivity | reflexivity | reflexivity |].
  split; [exact H1 |]. split; [reflexivity | exact H2].
Defined.

(* ===================================================================== *)
(** * Facts about the polling driver *)
(* ===================================================================== *)

Section DriverFacts.
Variable network : nat -> string -> FetchOutcome.

(** A delta check that fails leaves the state as it was. *)
Lemma checkForUpdates_delta_failed (now : Z) (s : FireState) (w w1 : World)
    (msg : string) :
  getDelta network w = (Err msg, w1) ->
  checkForUpdates network now s w = (s, w1).
Proof. intros H. unfold checkForUpdates. rewrite H. reflexivity. Qed.

(** An unchanged hash skips the fetch of the events. *)
Lemma checkForUpdates_unchanged (now : Z) (s : FireState) (w w1 : World)
    (d : EmergencyDeltaResponse) :
  getDelta network w = (Ok d, w1) ->
  lastKnownHash s = Some (lastHash d) ->
  checkForUpdates network now s w = (s, w1).
Proof.
  intros H Hh. unfold checkForUpdates. rewrite H.
  rewrite bool_decide_eq_true_2 by congruence. reflexivity.
Qed.

(** A changed hash is stored before the events are asked for; when that
    fetch fails the events are the old ones under the new hash. *)
Lemma checkForUpdates_events_failed (now : Z) (s : FireState)
    (w w1 w2 : World) (d : EmergencyDeltaResponse) (msg : string) :
  getDelta network w = (Ok d, w1) ->
  lastKnownHash s <> Some (lastHash d) ->
  getEvents network w1 = (Err msg, w2) ->
  checkForUpdates network now s w =
    ({| events := events s; loading := loading s; error := error s;
        lastKnownHash := Some (lastHash d); fetchedAt := fetchedAt s |}, w2).
Proof.
  intros H Hh He. unfold checkForUpdates. rewrite H.
  rewrite bool_decide_eq_false_2 by congruence. cbn [negb].
  rewrite He. reflexivity.
Qed.

(** Whatever happens, a poll either keeps the cached events or replaces
    them with a set it has fetched. *)
Lemma checkForUpdates_events (now : Z) (s : FireState) (w : World) :
  events (fst (checkForUpdates network now s w)) = events s \/
  exists w1 w2,
    getEvents network w1 =
      (Ok (events (fst (checkForUpdates network now s w))), w2).
Proof.
  unfold checkForUpdates.
  destruct (getDelta network w) as [[d | msg] w1]; [| left; reflexivity].
  destruct (negb _); [| left; reflexivity].
  destruct (getEvents network w1) as [[evs | msg] w2] eqn:He.
  - right. exists w1, w2. exact He.
  - left. reflexivity.
Qed.
End DriverFacts.

(** C9. The first load brings one hazard and the hash "h1". The delta
    document then carries the hash "h2" while every request for the events
    is rejected. The poll keeps the cached hazard and sets no error, but it
    has already stored "h2" as the last hash: the next poll finds the hash
    unchanged and does not ask for the events again, so the changed set is
    not fetched although polling goes on. And when the first load gets the
    events but the request for the delta document fails, the hash stays
    unset and the polling interval is never installed: no delta check is
    ever made. *)
Theorem checkForUpdates_hash_moves_on_failure :
  let loaded := init staleNetwork 1700000000000 initialFireState freshWorld in
  let first := pollTick staleNetwork 1700000015000 (fst loaded) (snd loaded) in
  let second := pollTick staleNetwork 1700000030000 (fst first) (snd first) in
  let boot := init eventsOnlyNetwork 1700000000000 initialFireState freshWorld in
  events (fst loaded) = [hazardH1] /\
  lastKnownHash (fst loaded) = Some "h1"%string /\
  events (fst first) = events (fst loaded) /\
  error (fst first) = None /\
  lastKnownHash (fst first) = Some "h2"%string /\
  trace (snd first) =
    trace (snd loaded) ++
    [Fetched deltaUrl; Fetched eventsUrl; Slept 1000; Fetched eventsUrl;
     Slept 2000; Fetched eventsUrl] /\
  pollingActive (fst first) = true /\
  fst second = fst first /\
  trace (snd second) = trace (snd first) ++ [Fetched deltaUrl] /\
  events (fst boot) = [hazardH1] /\
  error (fst boot) = None /\
  lastKnownHash (fst boot) = None /\
  pollingActive (fst boot) = false /\
  (forall now w,
     pollTick eventsOnlyNetwork now (fst boot) w = (fst boot, w)).
Proof.
  cbv zeta.
  repeat match goal with |- _ /\ _ => split end;
    vm_compute; reflexivity.
Qed.

(* ===================================================================== *)
(** * More about the alert list *)
(* ===================================================================== *)

Lemma dismissAlert_length (id : string) (prev : list Alert.t) :
  length (dismissAlert id prev) = length prev.
Proof. apply length_map. Qed.

Lemma applyOp_bounded (op : AlertOp) (st : AlertStore) :
  (length (activeAlerts st) <= 50)%nat ->
  (length (activeAlerts (applyOp op st)) <= 50)%nat.
Proof.
  intros H. destruct op as [c alert | id | k]; simpl.
  - rewrite length_take. lia.
  - rewrite dismissAlert_length. exact H.
  - unfold fireTimer. destruct (timers st !! k); simpl; [| exact H].
    rewrite dismissAlert_length. exact H.
Qed.

(** X1. However many alerts are added, dismissed or timed out, the list
    never holds more than 50 alerts, and so the visible list never shows
    more than 50. *)
Theorem runOps_bounded (ops : list AlertOp) :
  (length (activeAlerts (runOps ops)) <= 50)%nat /\
  (length (undismissedAlerts (runOps ops)) <= 50)%nat.
Proof.
  assert (H : forall st, (length (activeAlerts st) <= 50)%nat ->
            (length (activeAlerts
                       (fold_left (fun st op => applyOp op st) ops st)) <= 50)%nat).
  { induction ops as [| op ops IH]; intros st Hst; simpl; [exact Hst |].
    apply IH, applyOp_bounded, Hst. }
  assert (Hrun : (length (activeAlerts (runOps ops)) <= 50)%nat).
  { apply H. simpl. lia. }
  split; [exact Hrun |].
  unfold undismissedAlerts.
  pose proof (length_filter (fun a => negb (Alert.dismissed a))
                (activeAlerts (runOps ops))). lia.
Qed.

(** What is visible of a list after [dismissAlert]: the alerts that were
    visible and have another id. *)
Lemma visible_dismissAlert (id : string) (l : list Alert.t) :
  filter (fun a => negb (Alert.dismissed a)) (dismissAlert id l) =
  filter (fun a => Alert.id a <> id)
         (filter (fun a => negb (Alert.dismissed a)) l).
Proof.
  induction l as [| a l IH]; [reflexivity |].
  cbn [dismissAlert map]. fold (dismissAlert id l).
  destruct (String.eqb_spec (Alert.id a) id) as [Heq | Hne].
  - rewrite filter_cons_False by (simpl; tauto).
    rewrite IH. destruct (Alert.dismissed a) eqn:Hd.
    + rewrite (filter_cons_False _ a l) by (rewrite Hd; simpl; tauto).
      reflexivity.
    + rewrite (filter_cons_True _ a l) by (rewrite Hd; simpl; tauto).
      rewrite filter_cons_False by tauto. reflexivity.
  - destruct (Alert.dismissed a) eqn:Hd.
    + rewrite !(filter_cons_False _ a) by (rewrite Hd; simpl; tauto).
      exact IH.
    + rewrite !(filter_cons_True (fun a => negb (Alert.dismissed a)) a)
        by (rewrite Hd; simpl; tauto).
      rewrite filter_cons_True by exact Hne. rewrite IH. reflexivity.
Qed.

(** X2. Dismissing by id takes exactly the alerts with that id out of the
    visible list and leaves the others as they are and in their order; a
    timer that fires does the same for the id it targets. *)
Theorem visible_after_dismiss (st : AlertStore) :
  (forall id,
     undismissedAlerts (dismiss id st) =
       filter (fun a => Alert.id a <> id) (undismissedAlerts st)) /\
  (forall k t, timers st !! k = Some t ->
     undismissedAlerts (fireTimer k st) =
       filter (fun a => Alert.id a <> target t) (undismissedAlerts st)).
Proof.
  split.
  - intros id. apply visible_dismissAlert.
  - intros k t Hk. unfold fireTimer, undismissedAlerts. rewrite Hk.
    apply visible_dismissAlert.
Qed.

(** X2 on the two sample alerts: dismissing the info alert leaves the
    critical one alone in view. *)
Lemma visible_after_dismiss_witness :
  undismissedAlerts
    (dismiss "1700000000000-k3j9x2a"
       {| activeAlerts := sampleAlerts; timers := [] |})
  = [sampleCriticalAlert].
Proof.
  destruct (visible_after_dismiss
              {| activeAlerts := sampleAlerts; timers := [] |}) as [H _].
  rewrite H. reflexivity.
Defined.

Lemma sublist_filter_mono {A : Type} (P : A -> Prop)
    `{!forall x, Decision (P x)} (l1 l2 : list A) :
  sublist l1 l2 -> sublist (filter P l1) (filter P l2).
Proof.
  induction 1 as [| x l1 l2 _ IH | x l1 l2 _ IH].
  - constructor.
  - rewrite !filter_cons. destruct (decide (P x)); [constructor |]; exact IH.
  - rewrite filter_cons. destruct (decide (P x)); [constructor |]; exact IH.
Qed.

(** X3. No operation brings an alert back: after a dismissal or a timer the
    visible list is a sublist of what it was, and after [addAlert] it is a
    sublist of the new alert followed by what it was. *)
Theorem visible_never_returns (op : AlertOp) (st : AlertStore) :
  sublist (undismissedAlerts (applyOp op st))
          (match op with
           | OpAdd c alert => newAlertOf c alert :: undismissedAlerts st
           | _ => undismissedAlerts st
           end).
Proof.
  destruct op as [c alert | id | k]; cbn [applyOp].
  - unfold undismissedAlerts, addAlert. cbn [activeAlerts].
    change (newAlertOf c alert :: filter (fun a => negb (Alert.dismissed a))
                                         (activeAlerts st))
      with (filter (fun a => negb (Alert.dismissed a))
                   (newAlertOf c alert :: activeAlerts st)).
    apply sublist_filter_mono, sublist_take.
  - unfold undismissedAlerts, dismiss. cbn [activeAlerts].
    rewrite visible_dismissAlert. apply sublist_filter.
  - unfold undismissedAlerts, fireTimer.
    destruct (timers st !! k) as [t |]; [| reflexivity].
    cbn [activeAlerts]. rewrite visible_dismissAlert. apply sublist_filter.
Qed.

(** X4. Dismissals commute: two ids may be dismissed in either order. *)
Theorem dismissAlert_comm (id1 id2 : string) (prev : list Alert.t) :
  dismissAlert id1 (dismissAlert id2 prev) =
  dismissAlert id2 (dismissAlert id1 prev).
Proof.
  unfold dismissAlert. rewrite !map_map. apply map_ext. intros a.
  destruct (String.eqb (Alert.id a) id1) eqn:H1,
           (String.eqb (Alert.id a) id2) eqn:H2;
    cbn [markDismissed Alert.id]; rewrite ?H1, ?H2; reflexivity.
Qed.

Lemma dismissAlert_ids (id : string) (prev : list Alert.t) :
  map Alert.id (dismissAlert id prev) = map Alert.id prev.
Proof.
  unfold dismissAlert. rewrite map_map. apply map_ext. intros a.
  destruct (String.eqb (Alert.id a) id); reflexivity.
Qed.

Lemma NoDup_take_map {A B : Type} (f : A -> B) (n : nat) (l : list A) :
  NoDup (map f l) -> NoDup (map f (take n l)).
Proof.
  revert n. induction l as [| x l IH]; intros [| n] H; simpl;
    try constructor.
  - simpl in H. apply NoDup_cons in H as [Hx H]. intros Hin. apply Hx.
    apply elem_of_map in Hin as [y [Hy Hin]]. apply elem_of_map.
    exists y. split; [exact Hy |]. eapply subseteq_take, Hin.
  - apply IH. simpl in H. apply NoDup_cons in H as [_ H]. exact H.
Qed.

(** X5. As long as every id drawn is fresh, the alerts of the list have
    pairwise distinct ids. *)
Theorem Reachable_ids_distinct (st : AlertStore) :
  Reachable st -> NoDup (map Alert.id (activeAlerts st)).
Proof.
  induction 1 as [| st c alert _ IH [Hfa _] | st id _ IH | st k _ IH].
  - constructor.
  - cbn [addAlert activeAlerts]. apply NoDup_take_map. simpl.
    apply NoDup_cons. split; [| exact IH].
    intros Hin. apply elem_of_map in Hin as [a [Ha Hin]].
    apply (Hfa a Hin). symmetry. exact Ha.
  - cbn [dismiss activeAlerts]. rewrite dismissAlert_ids. exact IH.
  - unfold fireTimer. destruct (timers st !! k); [| exact IH].
    cbn [activeAlerts]. rewrite dismissAlert_ids. exact IH.
Qed.

(** X5 at the store with one critical alert, to which an info alert with a
    fresh id is added. *)
Lemma Reachable_ids_distinct_witness :
  NoDup (map Alert.id
           (activeAlerts (addAlert sampleClock sampleInfoRequest sampleStore))).
Proof.
  apply Reachable_ids_distinct.
  apply reach_add; [apply sampleStore_reachable | apply sampleClock_fresh].
Defined.

(* ===================================================================== *)
(** * More about the engine *)
(* ===================================================================== *)

Lemma seeded_other (events : list EmergencyEvent) (mem : gmap EventId string)
    (k : EventId) :
  k ∉ map id events ->
  fold_left (fun acc e => <[id e := updated e]> acc) events mem !! k = mem !! k.
Proof.
  revert mem. induction events as [| e events IH]; intros mem Hk; [reflexivity |].
  cbn [fold_left]. simpl in Hk. apply not_elem_of_cons in Hk as [Hne Hk].
  rewrite IH by exact Hk. apply lookup_insert_ne. congruence.
Qed.

Lemma seeded_keeps (events : list EmergencyEvent) (mem : gmap EventId string)
    (k : EventId) :
  is_Some (mem !! k) ->
  is_Some (fold_left (fun acc e => <[id e := updated e]> acc) events mem !! k).
Proof.
  revert mem. induction events as [| e events IH]; intros mem Hk; [exact Hk |].
  cbn [fold_left]. apply IH.
  destruct (decide (id e = k)) as [-> | Hne].
  - rewrite lookup_insert_eq. eauto.
  - rewrite lookup_insert_ne by exact Hne. exact Hk.
Qed.

Lemma seeded_member (events : list EmergencyEvent) (mem : gmap EventId string)
    (e : EmergencyEvent) :
  e ∈ events ->
  is_Some (fold_left (fun acc e => <[id e := updated e]> acc) events mem !! id e).
Proof.
  revert mem. induction events as [| x events IH]; intros mem He.
  - inversion He.
  - cbn [fold_left]. apply elem_of_cons in He as [-> | He].
    + apply seeded_keeps. rewrite lookup_insert_eq. eauto.
    + apply IH, He.
Qed.

Lemma checkEvents_length (events : list EmergencyEvent)
    (mem : gmap EventId string) :
  (length (fst (checkEvents mem events)) <= length events)%nat.
Proof.
  revert mem. induction events as [| e events IH]; intros mem; [simpl; lia |].
  cbn [checkEvents].
  destruct (checkEvent mem e) as [asked mem'] eqn:Hc.
  specialize (IH mem').
  destruct (checkEvents mem' events) as [asked' mem''].
  cbn [fst] in *. rewrite length_app.
  assert (length asked <= 1)%nat; [| simpl; lia].
  unfold checkEvent in Hc. injection Hc as <- _.
  repeat match goal with
         | |- context [if ?b then _ else _] => destruct b
         end; simpl; lia.
Qed.

Lemma checkEvents_refer (events : list EmergencyEvent)
    (mem : gmap EventId string) (r : AlertRequest.t) :
  r ∈ fst (checkEvents mem events) ->
  exists e, e ∈ events /\ AlertRequest.eventId r = Some (id e).
Proof.
  revert mem. induction events as [| e events IH]; intros mem Hr.
  - inversion Hr.
  - cbn [checkEvents] in Hr.
    destruct (checkEvent mem e) as [asked mem'] eqn:Hc.
    specialize (IH mem').
    destruct (checkEvents mem' events) as [asked' mem''].
    cbn [fst] in *. apply elem_of_app in Hr as [Hr | Hr].
    + exists e. split; [left |].
      unfold checkEvent in Hc. injection Hc as <- _.
      repeat match type of Hr with
             | context [if ?b then _ else _] => destruct b
             end;
        first [apply list_elem_of_singleton in Hr as -> | inversion Hr];
        reflexivity.
    + destruct (IH Hr) as [x [Hx Hid]]. exists x. split; [right |]; assumption.
Qed.

Lemma proximityAlerts_refer (n : ProximityResult) (prev : option Prev.t)
    (r : AlertRequest.t) :
  r ∈ proximityAlerts n prev ->
  AlertRequest.eventId r = Some (id (event n)) /\
  AlertRequest.type r = Proximity.
Proof.
  unfold proximityAlerts. intros Hr.
  repeat match type of Hr with
         | context [if ?b then _ else _] => destruct b
         end;
    first [apply list_elem_of_singleton in Hr as -> | inversion Hr];
    split; reflexivity.
Qed.

Lemma proximityAlerts_length (n : ProximityResult) (prev : option Prev.t) :
  (length (proximityAlerts n prev) <= 1)%nat.
Proof.
  unfold proximityAlerts.
  repeat match goal with
         | |- context [if ?b then _ else _] => destruct b
         end; simpl; lia.
Qed.

Section EngineMore.
Variable turf_distance : Point -> Point -> Q.
Variable turf_booleanPointInPolygon : Point -> list Point -> option bool.

Let nearest := getNearestDanger turf_distance turf_booleanPointInPolygon.
Let step := tick turf_distance turf_booleanPointInPolygon.
Let seed := initEffect turf_distance turf_booleanPointInPolygon.
Let watch := proximityEffect turf_distance turf_booleanPointInPolygon.

(** The hazard of the nearest result is one of the hazards given. *)
Lemma nearest_event_elem (loc : Point) (events : list EmergencyEvent)
    (n : ProximityResult) :
  nearest loc events = Some n -> event n ∈ events.
Proof.
  subst nearest. unfold getNearestDanger, calculateProximity. intros H.
  assert (Hin : n ∈ sort compareProximity
                  (map (toProximity turf_distance turf_booleanPointInPolygon loc)
                       (filter hasUsablePolygon events))).
  { destruct (sort _ _) as [| x l]; [discriminate |].
    simpl in H. injection H as ->. left. }
  rewrite list_elem_of_In in Hin.
  apply (Permutation_in _ (sort_perm compareProximity _)) in Hin.
  apply in_map_iff in Hin as [e [<- He]]. simpl.
  apply list_elem_of_In in He. apply list_elem_of_filter in He as [_ He].
  exact He.
Qed.

(** X6. Until the engine is ready a tick asks for no alert and leaves the
    engine not ready; and once the memory is seeded, or when there are no
    hazards, it leaves the memory as it is. *)
Theorem tick_before_ready (userLocation : option Point)
    (events : list EmergencyEvent) (m : EngineMemory) :
  isReady m = false ->
  fst (step userLocation events m) = [] /\
  isReady (snd (step userLocation events m)) = false /\
  (hasInitialized m = true \/ events = [] ->
     snd (step userLocation events m) = m).
Proof.
  subst step. intros Hr. unfold tick.
  assert (Hr' : isReady (initEffect turf_distance turf_booleanPointInPolygon
                           userLocation events m) = false).
  { unfold initEffect. destruct (_ || _)%bool; [exact Hr | exact Hr]. }
  unfold changeEffect. rewrite Hr'. cbn [negb].
  unfold proximityEffect. rewrite Hr'. cbn [negb fst snd app].
  split; [reflexivity |]. split; [exact Hr' |].
  intros [Hi | ->]; unfold initEffect.
  - rewrite Hi. reflexivity.
  - rewrite orb_true_r. reflexivity.
Qed.

(** X7. The first non-empty hazard list seeds the memory: every hazard of
    the list is then in memory (under its own fingerprint when the ids are
    distinct), every other entry is as before, and the seed is marked as
    done without making the engine ready. *)
Theorem initEffect_seeds (userLocation : option Point)
    (events : list EmergencyEvent) (m : EngineMemory) :
  hasInitialized m = false -> events <> [] ->
  hasInitialized (seed userLocation events m) = true /\
  isReady (seed userLocation events m) = isReady m /\
  (forall e, e ∈ events ->
     is_Some (previousEvents (seed userLocation events m) !! id e)) /\
  (NoDup (map id events) -> forall e, e ∈ events ->
     previousEvents (seed userLocation events m) !! id e = Some (updated e)) /\
  (forall k, k ∉ map id events ->
     previousEvents (seed userLocation events m) !! k = previousEvents m !! k).
Proof.
  subst seed. intros Hi Hne. unfold initEffect. rewrite Hi.
  destruct events as [| e0 events]; [congruence |].
  cbn [length Nat.eqb orb hasInitialized isReady previousEvents].
  split; [reflexivity |]. split; [reflexivity |]. split; [| split].
  - intros e He. apply seeded_member, He.
  - intros Hnd e He. apply seeded_lookup; assumption.
  - intros k Hk. apply seeded_other, Hk.
Qed.
End EngineMore.

Section EngineRuns.
Variable turf_distance : Point -> Point -> Q.
Variable turf_booleanPointInPolygon : Point -> list Point -> option bool.

Let nearest := getNearestDanger turf_distance turf_booleanPointInPolygon.
Let step := tick turf_distance turf_booleanPointInPolygon.
Let seed := initEffect turf_distance turf_booleanPointInPolygon.
Let watch := proximityEffect turf_distance turf_booleanPointInPolygon.

(** A tick, effect by effect. *)
Lemma tick_parts (userLocation : option Point) (events : list EmergencyEvent)
    (m : EngineMemory) :
  step userLocation events m =
    (fst (changeEffect events (seed userLocation events m)) ++
     fst (watch userLocation events
            (snd (changeEffect events (seed userLocation events m)))),
     snd (watch userLocation events
            (snd (changeEffect events (seed userLocation events m))))).
Proof.
  subst step seed watch. unfold tick.
  destruct (changeEffect events _) as [changed m1]. cbn [fst snd].
  destruct (proximityEffect _ _ userLocation events m1) as [near m2].
  reflexivity.
Qed.

Lemma changeEffect_asked (events : list EmergencyEvent) (m : EngineMemory) :
  fst (changeEffect events m) =
    if isReady m then fst (checkEvents (previousEvents m) events) else [].
Proof.
  unfold changeEffect. destruct (isReady m); cbn [negb]; [| reflexivity].
  destruct (checkEvents (previousEvents m) events). reflexivity.
Qed.

Lemma changeEffect_fingerprints (events : list EmergencyEvent) (m : EngineMemory) :
  previousEvents (snd (changeEffect events m)) =
    if isReady m
    then fold_left (fun acc e => <[id e := updated e]> acc) events
                   (previousEvents m)
    else previousEvents m.
Proof.
  unfold changeEffect. destruct (isReady m); cbn [negb]; [| reflexivity].
  rewrite <- checkEvents_memory.
  destruct (checkEvents (previousEvents m) events). reflexivity.
Qed.

Lemma watch_asked (userLocation : option Point) (events : list EmergencyEvent)
    (m : EngineMemory) :
  fst (watch userLocation events m) = [] \/
  exists loc n, userLocation = Some loc /\ nearest loc events = Some n /\
    fst (watch userLocation events m) = proximityAlerts n (previousNearest m).
Proof.
  subst watch nearest. unfold proximityEffect.
  destruct (isReady m); cbn [negb]; [| left; reflexivity].
  destruct userLocation as [loc |]; [| left; reflexivity].
  destruct (length events =? 0)%nat; [left; reflexivity |].
  destruct (getNearestDanger _ _ loc events) as [n |] eqn:Hn;
    [| left; reflexivity].
  right. exists loc, n. auto.
Qed.

(** X8. The hazards the engine is seeded with raise no alert when it becomes
    ready: with distinct ids and non-empty [updated] texts, the first tick
    of the ready engine on the same hazards and the same location asks for
    nothing. *)
Theorem first_ready_tick_silent (userLocation : option Point)
    (events : list EmergencyEvent) :
  NoDup (map id events) ->
  (forall e, e ∈ events -> updated e <> EmptyString) ->
  fst (step userLocation events
         (becomeReady (seed userLocation events initialMemory))) = [].
Proof.
  intros Hnd Hne. destruct events as [| e0 events].
  { subst step seed. destruct userLocation; reflexivity. }
  set (evs := e0 :: events) in *.
  assert (Hseed : seed userLocation evs initialMemory =
    {| isReady := false; hasInitialized := true;
       previousEvents :=
         fold_left (fun acc e => <[id e := updated e]> acc) evs ∅;
       previousNearest :=
         match userLocation with
         | Some loc =>
             match nearest loc evs with
             | Some n => Some (snapshotOf n)
             | None => None
             end
         | None => None
         end |}).
  { subst seed nearest evs. reflexivity. }
  rewrite Hseed. subst step.
  rewrite tick_ready by reflexivity. cbv zeta.
  cbn [becomeReady previousEvents previousNearest fst].
  assert (Hsteady :
    checkEvents (fold_left (fun acc e => <[id e := updated e]> acc) evs ∅) evs
    = ([], fold_left (fun acc e => <[id e := updated e]> acc) evs ∅)).
  { apply checkEvents_steady. intros e He.
    split; [apply seeded_lookup; assumption | apply Hne, He]. }
  rewrite Hsteady. cbn [fst snd app].
  apply proximityEffect_steady. cbn [previousNearest].
  intros loc n -> Hn. fold (nearest loc evs). subst nearest. rewrite Hn.
  reflexivity.
Qed.

(** X9. The engine never forgets a hazard: an id that has a fingerprint in
    memory still has one after any tick, whether or not the hazard is in
    the list. *)
Theorem tick_keeps_fingerprints (userLocation : option Point)
    (events : list EmergencyEvent) (m : EngineMemory) (k : EventId) :
  is_Some (previousEvents m !! k) ->
  is_Some (previousEvents (snd (step userLocation events m)) !! k).
Proof.
  intros Hk. rewrite tick_parts. cbn [snd].
  destruct (proximityEffect_memory turf_distance turf_booleanPointInPolygon
              userLocation events
              (snd (changeEffect events (seed userLocation events m))))
    as (_ & _ & Hmem & _).
  subst watch. rewrite Hmem, changeEffect_fingerprints.
  assert (Hseed : is_Some (previousEvents (seed userLocation events m) !! k)).
  { subst seed. unfold initEffect.
    destruct (_ || _)%bool; [exact Hk |]. cbn [previousEvents].
    apply seeded_keeps, Hk. }
  destruct (isReady _); [apply seeded_keeps |]; exact Hseed.
Qed.

(** X10. A tick asks for at most one alert per hazard of the list and one
    more for the proximity watch, and every alert it asks for refers to a
    hazard of the list. *)
Theorem tick_alerts_refer (userLocation : option Point)
    (events : list EmergencyEvent) (m : EngineMemory) :
  (length (fst (step userLocation events m)) <= length events + 1)%nat /\
  (forall r, r ∈ fst (step userLocation events m) ->
     exists e, e ∈ events /\ AlertRequest.eventId r = Some (id e)).
Proof.
  rewrite tick_parts. cbn [fst].
  set (m0 := seed userLocation events m).
  set (m1 := snd (changeEffect events m0)).
  rewrite changeEffect_asked. split.
  - rewrite length_app.
    assert (length (if isReady m0
                    then fst (checkEvents (previousEvents m0) events)
                    else []) <= length events)%nat.
    { destruct (isReady m0); [apply checkEvents_length | simpl; lia]. }
    assert (length (fst (watch userLocation events m1)) <= 1)%nat; [| lia].
    destruct (watch_asked userLocation events m1)
      as [-> | (loc & n & _ & _ & ->)]; [simpl; lia |].
    apply proximityAlerts_length.
  - intros r Hr. apply elem_of_app in Hr as [Hr | Hr].
    + destruct (isReady m0); [| inversion Hr].
      eapply checkEvents_refer, Hr.
    + destruct (watch_asked userLocation events m1)
        as [Hnone | (loc & n & _ & Hn & Hsome)].
      * rewrite Hnone in Hr. inversion Hr.
      * rewrite Hsome in Hr. apply proximityAlerts_refer in Hr as [Hr _].
        exists (event n). split; [| exact Hr].
        eapply nearest_event_elem, Hn.
Qed.
End EngineRuns.

Lemma sampleHazards_distinct : NoDup (map id sampleHazards).
Proof.
  simpl. repeat (apply NoDup_cons; split);
    [| | | apply NoDup_nil; exact I].
  - intros H. apply elem_of_cons in H as [H | H]; [discriminate |].
    apply list_elem_of_singleton in H. discriminate.
  - intros H. apply list_elem_of_singleton in H. discriminate.
  - intros H. inversion H.
Qed.

Lemma sampleHazards_stamped (e : EmergencyEvent) :
  e ∈ sampleHazards -> updated e <> EmptyString.
Proof.
  intros H. repeat (apply elem_of_cons in H as [-> | H]; [discriminate |]).
  inversion H.
Qed.

(* ===================================================================== *)
(** * The two watches on a feed that keeps its contract *)
(* ===================================================================== *)

(** What the callback asks for depends on the memory only through the entry
    of the hazard's own id. *)
Lemma checkEvent_asked_lookup (mem mem' : gmap EventId string)
    (e : EmergencyEvent) :
  mem !! id e = mem' !! id e ->
  fst (checkEvent mem e) = fst (checkEvent mem' e).
Proof. intros Heq. unfold checkEvent. rewrite Heq. reflexivity. Qed.

(** On hazards with distinct ids the loop asks, hazard by hazard, for what
    the callback asks for on the memory the loop started with. *)
Lemma checkEvents_each (events : list EmergencyEvent)
    (mem mem0 : gmap EventId string) :
  NoDup (map id events) ->
  (forall e, e ∈ events -> mem !! id e = mem0 !! id e) ->
  fst (checkEvents mem events) =
    concat (map (fun e => fst (checkEvent mem0 e)) events).
Proof.
  revert mem. induction events as [| e events IH]; intros mem Hnd Hsame;
    [reflexivity |].
  simpl in Hnd. apply NoDup_cons in Hnd as [He Hnd].
  cbn [checkEvents map concat].
  destruct (checkEvent mem e) as [asked mem'] eqn:Hc.
  pose proof (checkEvent_memory mem e) as Hm. rewrite Hc in Hm. simpl in Hm.
  pose proof (checkEvent_asked_lookup mem mem0 e (Hsame e ltac:(left))) as Ha.
  rewrite Hc in Ha. simpl in Ha. subst asked mem'.
  specialize (IH (<[id e := updated e]> mem) Hnd).
  destruct (checkEvents (<[id e := updated e]> mem) events) as [asked' mem''].
  cbn [fst] in *. f_equal. apply IH.
  intros x Hx. rewrite lookup_insert_ne; [apply Hsame; right; exact Hx |].
  intros Heq. apply He. rewrite Heq. apply list_elem_of_fmap_2, Hx.
Qed.

(** C6. The change-detection watch of a ready engine, on hazards with
    distinct ids none of which is stored under an empty fingerprint. The
    alerts it asks for are, hazard by hazard in the order of the list, these:
    for an id that is not in memory, one new-warning alert that refers to
    the hazard, critical when the lower-cased action text contains
    "shelter", warning when it contains "leave" and not "shelter", and no
    alert when it contains neither; for an id in memory, one zone-change
    info alert when the stored fingerprint differs from the current one,
    and none when it is the same. In every case the memory then holds the
    hazard's current fingerprint; ids not in the list keep their entries. *)
Theorem changeEffect_watch (events : list EmergencyEvent) (m : EngineMemory) :
  isReady m = true ->
  NoDup (map id events) ->
  (forall e, e ∈ events -> previousEvents m !! id e <> Some EmptyString) ->
  exists asked : EmergencyEvent -> list AlertRequest.t,
    fst (changeEffect events m) = concat (map asked events) /\
    (forall e, e ∈ events ->
       (previousEvents m !! id e = None ->
          (Contains (actionText e) "shelter" ->
             exists r, asked e = [r] /\
               AlertRequest.type r = NewWarning /\
               AlertRequest.severity r = Critical /\
               AlertRequest.eventId r = Some (id e)) /\
          (~ Contains (actionText e) "shelter" ->
           Contains (actionText e) "leave" ->
             exists r, asked e = [r] /\
               AlertRequest.type r = NewWarning /\
               AlertRequest.severity r = Warning /\
               AlertRequest.eventId r = Some (id e)) /\
          (~ Contains (actionText e) "shelter" ->
           ~ Contains (actionText e) "leave" -> asked e = [])) /\
       (forall u, previousEvents m !! id e = Some u ->
          (u <> updated e ->
             exists r, asked e = [r] /\
               AlertRequest.type r = ZoneChange /\
               AlertRequest.severity r = Info /\
               AlertRequest.eventId r = Some (id e)) /\
          (u = updated e -> asked e = [])) /\
       previousEvents (snd (changeEffect events m)) !! id e
         = Some (updated e)) /\
    (forall k, k ∉ map id events ->
       previousEvents (snd (changeEffect events m)) !! k
         = previousEvents m !! k) /\
    isReady (snd (changeEffect events m)) = true /\
    previousNearest (snd (changeEffect events m)) = previousNearest m.
Proof.
  intros Hr Hnd Hstamp.
  exists (fun e => fst (checkEvent (previousEvents m) e)).
  split; [| split; [| split; [| split]]].
  - rewrite changeEffect_asked, Hr.
    apply checkEvents_each; [exact Hnd | reflexivity].
  - intros e He. split; [| split].
    + intros Hnew. apply checkEvent_new, Hnew.
    + intros u Hu. apply checkEvent_known; [exact Hu |].
      intros ->. exact (Hstamp e He Hu).
    + rewrite changeEffect_fingerprints, Hr.
      apply seeded_lookup; assumption.
  - intros k Hk. rewrite changeEffect_fingerprints, Hr.
    apply seeded_other, Hk.
  - unfold changeEffect. rewrite Hr. cbn [negb].
    destruct (checkEvents (previousEvents m) events). reflexivity.
  - unfold changeEffect. rewrite Hr. cbn [negb].
    destruct (checkEvents (previousEvents m) events). reflexivity.
Qed.

(** C6 at an engine seeded with the second hazard, which is then shown that
    hazard and the first one, new to it, whose action is "Leave
    Immediately": one new-warning alert of warning severity that refers to
    the first hazard. *)
Lemma changeEffect_watch_witness :
  exists r,
    fst (changeEffect [hazardH2; hazardH1]
           (becomeReady
              (initEffect sampleDistance sampleInside None [hazardH2]
                 initialMemory))) = [r] /\
    AlertRequest.type r = NewWarning /\
    AlertRequest.severity r = Warning /\
    AlertRequest.eventId r = Some (id hazardH1).
Proof.
  set (m := becomeReady
              (initEffect sampleDistance sampleInside None [hazardH2]
                 initialMemory)).
  assert (H2 : previousEvents m !! id hazardH2 = Some (updated hazardH2))
    by apply lookup_insert_eq.
  assert (H1 : previousEvents m !! id hazardH1 = None).
  { subst m. cbn. rewrite lookup_insert_ne by discriminate.
    apply lookup_empty. }
  destruct (changeEffect_watch [hazardH2; hazardH1] m) as (asked & Ha & He & _).
  - reflexivity.
  - simpl. apply NoDup_cons. split; [| apply NoDup_singleton].
    intros H. apply list_elem_of_singleton in H. discriminate.
  - intros e He. apply elem_of_cons in He as [-> | He].
    + rewrite H2. discriminate.
    + apply list_elem_of_singleton in He as ->. rewrite H1. discriminate.
  - destruct (He hazardH2 ltac:(left)) as (_ & Hknown & _).
    destruct (Hknown _ H2) as [_ Hsame].
    destruct (He hazardH1 ltac:(right; left)) as (Hnew & _ & _).
    destruct (Hnew H1) as (_ & Hleave & _).
    destruct Hleave as (r & Hr & Hrest).
    + apply includes_false. reflexivity.
    + apply includes_spec. reflexivity.
    + exists r. split; [| exact Hrest].
      rewrite Ha. cbn [map concat]. rewrite (Hsame eq_refl), Hr. reflexivity.
Defined.

Section SteadyState.
Variable turf_distance : Point -> Point -> Q.
Variable turf_booleanPointInPolygon : Point -> list Point -> option bool.

Let nearest := getNearestDanger turf_distance turf_booleanPointInPolygon.
Let seed := initEffect turf_distance turf_booleanPointInPolygon.
Let step := tick turf_distance turf_booleanPointInPolygon.
Let watch := proximityEffect turf_distance turf_booleanPointInPolygon.




End SteadyState.


(** X6 at an engine that has not started: a tick on three hazards asks for
    nothing. *)
Lemma tick_before_ready_witness :
  fst (tick sampleDistance sampleInside (Some (pt 1 1)) sampleHazards
         initialMemory) = [].
Proof.
  destruct (tick_before_ready sampleDistance sampleInside (Some (pt 1 1))
              sampleHazards initialMemory eq_refl) as [H _].
  exact H.
Defined.

(** X7 on three hazards: the first one is in memory under its fingerprint
    after the seed. *)
Lemma initEffect_seeds_witness :
  previousEvents
    (initEffect sampleDistance sampleInside None sampleHazards initialMemory)
    !! IdString "H1" = Some "2024-01-05T03:10:00Z"%string.
Proof.
  destruct (initEffect_seeds sampleDistance sampleInside None sampleHazards
              initialMemory eq_refl ltac:(discriminate))
    as (_ & _ & _ & H & _).
  apply (H sampleHazards_distinct hazardH1). right. right. left.
Defined.

(** X8 on three hazards seen from inside the first one. *)
Lemma first_ready_tick_silent_witness :
  fst (tick sampleDistance sampleInside (Some (pt 1 1)) sampleHazards
         (becomeReady
            (initEffect sampleDistance sampleInside (Some (pt 1 1))
               sampleHazards initialMemory))) = [].
Proof.
  apply first_ready_tick_silent;
    [apply sampleHazards_distinct | apply sampleHazards_stamped].
Defined.

(** X9 at an engine that remembers the second hazard, on a tick whose list
    no longer holds it. *)
Lemma tick_keeps_fingerprints_witness :
  is_Some
    (previousEvents
       (snd (tick sampleDistance sampleInside None [hazardH1] sampleMemory))
       !! IdNumber 2).
Proof.
  apply tick_keeps_fingerprints.
  exists "2024-01-05T02:00:00Z"%string. reflexivity.
Defined.

(** X10 at the tick that finds the location inside the first hazard: the
    alert it asks for refers to a hazard of the list. *)
Lemma tick_alerts_refer_witness :
  exists e, e ∈ sampleHazards /\
    AlertRequest.eventId
      (enteredZoneAlert
         (toProximity sampleDistance sampleInside (pt 1 1) hazardH1))
      = Some (id e).
Proof.
  destruct (tick_alerts_refer sampleDistance sampleInside (Some (pt 1 1))
              sampleHazards sampleMemory) as [_ H].
  apply H.
  assert (Heq : fst (tick sampleDistance sampleInside (Some (pt 1 1))
                       sampleHazards sampleMemory)
                = [enteredZoneAlert
                     (toProximity sampleDistance sampleInside (pt 1 1) hazardH1)])
    by (vm_compute; reflexivity).
  rewrite Heq. left.
Defined.

(* ===================================================================== *)
(** * More about the proximity ranking *)
(* ===================================================================== *)

Lemma sort_nil_iff {A : Type} (cmp : A -> A -> comparison) (l : list A) :
  sort cmp l = [] <-> l = [].
Proof.
  split; [| intros ->; reflexivity].
  intros H. pose proof (Permutation_length (sort_perm cmp l)) as Hlen.
  rewrite H in Hlen. destruct l; [reflexivity | discriminate].
Qed.

Lemma filter_nil_iff {A : Type} (P : A -> Prop) `{!forall x, Decision (P x)}
    (l : list A) :
  filter P l = [] <-> forall x, x ∈ l -> ~ P x.
Proof.
  induction l as [| x l IH].
  - split; [intros _ y Hy; inversion Hy | reflexivity].
  - rewrite filter_cons. destruct (decide (P x)) as [Hx | Hx].
    + split; [discriminate |]. intros Hall. exfalso.
      apply (Hall x); [left | exact Hx].
    + rewrite IH. split.
      * intros Hall y Hy. apply elem_of_cons in Hy as [-> | Hy]; auto.
      * intros Hall y Hy. apply Hall. right. exact Hy.
Qed.

Lemma getActionPriority_range (action : option string) :
  0 <= getActionPriority action <= 3.
Proof.
  destruct action as [a |]; [| simpl; lia].
  rewrite getActionPriority_chain.
  repeat match goal with
         | |- context [if ?b then _ else _] => destruct b
         end; lia.
Qed.

Lemma closeRing_prefix (ring : list Point) :
  closeRing ring = ring \/ exists first, head ring = Some first /\
                                         closeRing ring = ring ++ [first].
Proof.
  unfold closeRing. destruct (head ring) as [first |]; [| left; reflexivity].
  destruct (last ring) as [final |]; [| left; reflexivity].
  destruct (_ || _)%bool; [right; eauto | left; reflexivity].
Qed.

Section GeoMore.
Variable turf_distance : Point -> Point -> Q.
Variable turf_booleanPointInPolygon : Point -> list Point -> option bool.

Let within := isPointInPolygon turf_booleanPointInPolygon.
Let toResult := toProximity turf_distance turf_booleanPointInPolygon.
Let rank := calculateProximity turf_distance turf_booleanPointInPolygon.
Let nearest := getNearestDanger turf_distance turf_booleanPointInPolygon.

(** The results of the ranking are those of the hazards with a usable
    polygon. *)
Lemma rank_elem (loc : Point) (events : list EmergencyEvent)
    (r : ProximityResult) :
  r ∈ rank loc events <->
  exists e, e ∈ events /\ hasUsablePolygon e = true /\ r = toResult loc e.
Proof.
  subst rank toResult. unfold calculateProximity.
  rewrite list_elem_of_In.
  split.
  - intros H. apply (Permutation_in _ (sort_perm compareProximity _)) in H.
    apply in_map_iff in H as [e [<- He]]. exists e.
    apply list_elem_of_In, list_elem_of_filter in He as [Hp He].
    split; [exact He |]. split; [| reflexivity].
    apply Is_true_true. exact Hp.
  - intros (e & He & Hp & ->).
    apply (Permutation_in _ (Permutation_sym (sort_perm compareProximity _))).
    apply in_map. apply list_elem_of_In, list_elem_of_filter.
    split; [apply Is_true_true, Hp | exact He].
Qed.

(** X11. There is no nearest result exactly when no hazard of the list has a
    polygon of at least 3 vertices; the empty list is such a list. *)
Theorem getNearestDanger_none_iff (loc : Point) (events : list EmergencyEvent) :
  nearest loc events = None <->
  forall e, e ∈ events -> hasUsablePolygon e = false.
Proof.
  subst nearest. unfold getNearestDanger, calculateProximity.
  rewrite head_None, sort_nil_iff. split.
  - intros H e He. destruct (hasUsablePolygon e) eqn:Hp; [| reflexivity].
    exfalso. apply map_eq_nil in H.
    apply (filter_nil_iff (fun e => hasUsablePolygon e)) with (x := e) in H;
      [| exact He].
    apply H. rewrite Hp. exact I.
  - intros H.
    assert (Hf : filter (fun e => hasUsablePolygon e) events = []).
    { apply filter_nil_iff. intros e He Hp. rewrite (H e He) in Hp. exact Hp. }
    unfold filter in Hf |- *. rewrite Hf. reflexivity.
Qed.

(** X12. Every result of the ranking is the result computed for its own
    hazard; its distance is a number, never [Infinity], and is 0 when the
    location is inside; and its action priority is between 0 and 3. *)
Theorem rank_results (loc : Point) (events : list EmergencyEvent)
    (r : ProximityResult) :
  r ∈ rank loc events ->
  event r ∈ events /\
  r = toResult loc (event r) /\
  (exists q, distance r = Fin q) /\
  (isInside r = true -> distance r = Fin 0) /\
  0 <= actionPriority r <= 3.
Proof.
  intros Hr. apply rank_elem in Hr. destruct Hr as (e & He & Hp & ->).
  subst toResult. cbn [event].
  split; [exact He |]. split; [reflexivity |].
  unfold toProximity. cbn [distance isInside actionPriority].
  split; [| split; [| apply getActionPriority_range]].
  - destruct (isPointInPolygon _ loc (polygon e)) eqn:Hin; [eauto |].
    apply hasUsablePolygon_spec in Hp as (pc & Hpc & Hlen).
    rewrite Hpc in *. unfold distanceToPolygon.
    apply Nat.ltb_ge in Hlen. rewrite Hlen, Hin.
    destruct (minDist_loop turf_distance loc pc Infinity) as (_ & H2 & H3).
    destruct H3 as [H3 | (v & _ & H3)].
    + destruct pc as [| v pc]; [simpl in Hlen; discriminate |].
      assert (Hv : v ∈ v :: pc) by left. specialize (H2 v Hv).
      rewrite H3 in H2. simpl in H2. contradiction.
    + exists (turf_distance loc v). exact H3.
  - intros ->. reflexivity.
Qed.

(** X13. The nearest result is ranked before every result of the ranking.
    So when the location is inside the polygon of some hazard of the list,
    the nearest result is an inside result at distance 0, whatever the
    action priorities and distances of the other hazards. *)
Theorem nearest_outranks (loc : Point) (events : list EmergencyEvent)
    (n : ProximityResult) :
  nearest loc events = Some n ->
  (forall r, r ∈ rank loc events -> r = n \/ RankedBefore n r) /\
  ((exists e, e ∈ events /\ hasUsablePolygon e = true /\
              within loc (polygon e) = true) ->
   isInside n = true /\ distance n = Fin 0).
Proof.
  intros Hn.
  assert (Hsorted : StronglySorted RankedBefore (rank loc events)).
  { subst rank. unfold calculateProximity.
    apply (sort_sorted compareProximity RankedBefore);
      [apply compareProximity_le | apply compareProximity_gt
       | apply RankedBefore_trans]. }
  assert (Hall : forall r, r ∈ rank loc events -> r = n \/ RankedBefore n r).
  { subst nearest rank. unfold getNearestDanger in Hn.
    destruct (calculateProximity _ _ loc events) as [| x l]; [discriminate |].
    simpl in Hn. injection Hn as ->. intros r Hr.
    apply elem_of_cons in Hr as [-> | Hr]; [left; reflexivity | right].
    apply StronglySorted_inv in Hsorted as [_ Hx].
    rewrite Forall_forall in Hx. apply Hx, Hr. }
  split; [exact Hall |].
  intros (e & He & Hp & Hin).
  assert (Hr : toResult loc e ∈ rank loc events).
  { apply rank_elem. eauto. }
  assert (Hins : isInside n = true).
  { destruct (Hall _ Hr) as [<- | (H1 & _)].
    - exact Hin.
    - apply H1. exact Hin. }
  split; [exact Hins |].
  assert (Hnr : n ∈ rank loc events).
  { subst nearest rank. unfold getNearestDanger in Hn.
    destruct (calculateProximity _ _ loc events) as [| x l]; [discriminate |].
    simpl in Hn. injection Hn as ->. left. }
  apply rank_elem in Hnr. destruct Hnr as (e' & _ & _ & ->).
  subst toResult. unfold toProximity in *. cbn [isInside distance] in *.
  rewrite Hins. reflexivity.
Qed.

(** X14. The ring handed to turf keeps the vertices given, in order, adds at
    most the first vertex at the end, and ends where it starts; closing a
    closed ring changes nothing. *)
Theorem closeRing_closed (ring : list Point) (first : Point) :
  head ring = Some first ->
  (closeRing ring = ring \/ closeRing ring = ring ++ [first]) /\
  head (closeRing ring) = Some first /\
  (exists final, last (closeRing ring) = Some final /\
     fst final == fst first /\ snd final == snd first)%Q /\
  closeRing (closeRing ring) = closeRing ring.
Proof.
  intros Hhead.
  assert (Hcases :
    (closeRing ring = ring /\
     exists final, last ring = Some final /\
       Qeq_bool (fst first) (fst final) = true /\
       Qeq_bool (snd first) (snd final) = true) \/
    closeRing ring = ring ++ [first]).
  { unfold closeRing. rewrite Hhead.
    destruct (last ring) as [final |] eqn:Hlast.
    - destruct (Qeq_bool (fst first) (fst final)) eqn:H1,
               (Qeq_bool (snd first) (snd final)) eqn:H2; cbn [negb orb];
        try (right; reflexivity).
      left. split; [reflexivity |]. exists final. auto.
    - destruct ring; [discriminate |].
      rewrite last_cons in Hlast. destruct (last ring); discriminate. }
  assert (Hclosed : closeRing (ring ++ [first]) = ring ++ [first]).
  { unfold closeRing. rewrite last_snoc.
    destruct ring as [| p ring]; [discriminate |].
    simpl in Hhead. injection Hhead as ->. cbn [app head].
    rewrite !Qeq_bool_refl. reflexivity. }
  destruct Hcases as [[Heq (final & Hlast & H1 & H2)] | Heq]; rewrite Heq.
  - split; [left; reflexivity |]. split; [exact Hhead |]. split.
    + exists final. split; [exact Hlast |].
      apply Qeq_bool_iff in H1, H2. split; symmetry; assumption.
    + exact Heq.
  - split; [right; reflexivity |]. split.
    + destruct ring; [discriminate | exact Hhead].
    + split; [| exact Hclosed].
      exists first. rewrite last_snoc. split; [reflexivity |].
      split; reflexivity.
Qed.
End GeoMore.

(** X11 at a list whose only hazard has no polygon. *)
Lemma getNearestDanger_none_iff_witness :
  getNearestDanger sampleDistance sampleInside (pt 1 1) [hazardH3] = None.
Proof.
  apply getNearestDanger_none_iff. intros e He.
  apply list_elem_of_singleton in He as ->. reflexivity.
Defined.

Lemma sampleRanking :
  calculateProximity sampleDistance sampleInside (pt 1 1) sampleHazards =
    [toProximity sampleDistance sampleInside (pt 1 1) hazardH1;
     toProximity sampleDistance sampleInside (pt 1 1) hazardH2].
Proof. vm_compute. reflexivity. Qed.

(** X12 at the second result of the sample ranking, a hazard seen from
    outside: its distance is a number. *)
Lemma rank_results_witness :
  exists q,
    distance (toProximity sampleDistance sampleInside (pt 1 1) hazardH2) = Fin q.
Proof.
  destruct (rank_results sampleDistance sampleInside (pt 1 1) sampleHazards
              (toProximity sampleDistance sampleInside (pt 1 1) hazardH2))
    as (_ & _ & H & _).
  - rewrite sampleRanking. right. left.
  - exact H.
Defined.

(** X13 at the sample hazards seen from inside the first one, whose action
    priority is lower than that of the second. *)
Lemma nearest_outranks_witness :
  exists n,
    getNearestDanger sampleDistance sampleInside (pt 1 1) sampleHazards = Some n /\
    isInside n = true /\ distance n = Fin 0.
Proof.
  exists (toProximity sampleDistance sampleInside (pt 1 1) hazardH1).
  assert (Hn : getNearestDanger sampleDistance sampleInside (pt 1 1)
                 sampleHazards
               = Some (toProximity sampleDistance sampleInside (pt 1 1) hazardH1)).
  { unfold getNearestDanger. rewrite sampleRanking. reflexivity. }
  split; [exact Hn |].
  destruct (nearest_outranks sampleDistance sampleInside (pt 1 1)
              sampleHazards _ Hn) as [_ H].
  apply H. exists hazardH1. split; [right; right; left |].
  split; vm_compute; reflexivity.
Defined.

(** X14 at an open triangle: the first vertex is added at the end. *)
Lemma closeRing_closed_witness :
  closeRing [pt 0 0; pt 4 0; pt 0 4] = [pt 0 0; pt 4 0; pt 0 4; pt 0 0] /\
  closeRing (closeRing [pt 0 0; pt 4 0; pt 0 4])
    = closeRing [pt 0 0; pt 4 0; pt 0 4].
Proof.
  destruct (closeRing_closed [pt 0 0; pt 4 0; pt 0 4] (pt 0 0) eq_refl)
    as (_ & _ & _ & H).
  split; [reflexivity | exact H].
Defined.

(* ===================================================================== *)
(** * Facts about the area report *)
(* ===================================================================== *)

Lemma includes_empty (search : string) :
  search <> EmptyString -> includes EmptyString search = false.
Proof. destruct search; [congruence | reflexivity]. Qed.

(** The tests of the area report and of the change-detection watch on
    [event.action?.toLowerCase() || ''] classify as [getActionPriority]. *)
Lemma getActionPriority_actionText (e : EmergencyEvent) :
  getActionPriority (action e) =
    if includes (actionText e) "shelter" then 3
    else if includes (actionText e) "leave immediately" then 2
    else if includes (actionText e) "leave" then 1
    else 0.
Proof.
  unfold actionText. destruct (action e) as [a |]; [| reflexivity].
  rewrite getActionPriority_chain. cbn [fmap option_fmap option_map orElse].
  destruct (toLowerCase a) as [| c s]; reflexivity.
Qed.

Section AreaFacts.
Variable turf_area : list Point -> option Q.

Let areaKm2 := calculatePolygonAreaKm2 turf_area.
Let report := calculateFireWarningAreas turf_area.
Let add := addArea turf_area.

(** What one hazard adds to the sums, by its action priority. *)
Lemma addArea_by_priority (sums : AreaSums) (e : EmergencyEvent) :
  add sums e =
    match polygon e with
    | None => sums
    | Some _ =>
        if getActionPriority (action e) =? 3 then
          {| shelterSum := (shelterSum sums + areaKm2 (polygon e))%Q;
             leaveImmediatelySum := leaveImmediatelySum sums;
             leaveSum := leaveSum sums |}
        else if getActionPriority (action e) =? 2 then
          {| shelterSum := shelterSum sums;
             leaveImmediatelySum :=
               (leaveImmediatelySum sums + areaKm2 (polygon e))%Q;
             leaveSum := leaveSum sums |}
        else if getActionPriority (action e) =? 1 then
          {| shelterSum := shelterSum sums;
             leaveImmediatelySum := leaveImmediatelySum sums;
             leaveSum := (leaveSum sums + areaKm2 (polygon e))%Q |}
        else sums
    end.
Proof.
  subst add areaKm2. unfold addArea.
  destruct (polygon e) as [pc |]; [| reflexivity].
  rewrite getActionPriority_actionText. fold (actionText e).
  destruct (includes (actionText e) "shelter"); [reflexivity |].
  destruct (includes (actionText e) "leave immediately"); [reflexivity |].
  destruct (includes (actionText e) "leave"); reflexivity.
Qed.

Lemma fold_addArea_filter (P : EmergencyEvent -> Prop)
    `{!forall e, Decision (P e)} (events : list EmergencyEvent)
    (sums : AreaSums) :
  (forall e s, ~ P e -> add s e = s) ->
  fold_left add (filter P events) sums = fold_left add events sums.
Proof.
  intros Hskip. revert sums.
  induction events as [| e events IH]; intros sums; [reflexivity |].
  rewrite filter_cons. destruct (decide (P e)) as [Hp | Hp]; cbn [fold_left].
  - apply IH.
  - rewrite (Hskip e sums Hp). apply IH.
Qed.

(** The sum of one tier does not depend on the hazards of the other
    tiers. *)
Lemma fold_addArea_tier (p : Z) (proj : AreaSums -> Q)
    (events : list EmergencyEvent) (s1 s2 : AreaSums) :
  (forall s e, getActionPriority (action e) <> p -> proj (add s e) = proj s) ->
  (forall s s' e, proj s = proj s' -> proj (add s e) = proj (add s' e)) ->
  proj s1 = proj s2 ->
  proj (fold_left add
          (filter (fun e => getActionPriority (action e) = p) events) s1)
  = proj (fold_left add events s2).
Proof.
  intros Hother Hsame. revert s1 s2.
  induction events as [| e events IH]; intros s1 s2 Heq; [exact Heq |].
  rewrite filter_cons.
  destruct (decide (getActionPriority (action e) = p)) as [Hp | Hp];
    cbn [fold_left]; apply IH.
  - apply Hsame, Heq.
  - rewrite (Hother s2 e Hp). exact Heq.
Qed.

(** X15. The area report sorts the hazards into its tiers as
    [getActionPriority] does: the shelter area is that of the hazards of
    priority 3 alone, the leave-immediately area that of priority 2 and the
    leave area that of priority 1; and hazards without a polygon or of
    priority 0 can be left out without changing the report. *)
Theorem areas_by_priority (events : list EmergencyEvent) :
  shelterAreaKm2 (report events) =
    shelterAreaKm2
      (report (filter (fun e => getActionPriority (action e) = 3) events)) /\
  leaveImmediatelyAreaKm2 (report events) =
    leaveImmediatelyAreaKm2
      (report (filter (fun e => getActionPriority (action e) = 2) events)) /\
  leaveAreaKm2 (report events) =
    leaveAreaKm2
      (report (filter (fun e => getActionPriority (action e) = 1) events)) /\
  report events =
    report (filter (fun e => is_Some (polygon e) /\
                             getActionPriority (action e) <> 0) events).
Proof.
  subst report. unfold calculateFireWarningAreas.
  cbn [shelterAreaKm2 leaveImmediatelyAreaKm2 leaveAreaKm2].
  fold add.
  assert (Hcases : forall s e,
    {polygon e = None /\ add s e = s} +
    {exists pc, polygon e = Some pc /\
       add s e =
         if getActionPriority (action e) =? 3 then
           {| shelterSum := (shelterSum s + areaKm2 (polygon e))%Q;
              leaveImmediatelySum := leaveImmediatelySum s;
              leaveSum := leaveSum s |}
         else if getActionPriority (action e) =? 2 then
           {| shelterSum := shelterSum s;
              leaveImmediatelySum :=
                (leaveImmediatelySum s + areaKm2 (polygon e))%Q;
              leaveSum := leaveSum s |}
         else if getActionPriority (action e) =? 1 then
           {| shelterSum := shelterSum s;
              leaveImmediatelySum := leaveImmediatelySum s;
              leaveSum := (leaveSum s + areaKm2 (polygon e))%Q |}
         else s}).
  { intros s e. rewrite addArea_by_priority.
    destruct (polygon e) as [pc |]; [right; eauto | left; auto]. }
  repeat split.
  - symmetry. apply (fold_addArea_tier 3 shelterSum); [| | reflexivity].
    + intros s e Hp. destruct (Hcases s e) as [[_ ->] | (pc & _ & ->)];
        [reflexivity |].
      destruct (Z.eqb_spec (getActionPriority (action e)) 3); [congruence |].
      repeat match goal with
             | |- context [if ?b then _ else _] => destruct b
             end; reflexivity.
    + intros s s' e Heq.
      destruct (Hcases s e) as [[Hn ->] | (pc & Hpc & ->)];
        destruct (Hcases s' e) as [[Hn' ->] | (pc' & Hpc' & ->)];
        try congruence.
      repeat match goal with
             | |- context [if ?b then _ else _] => destruct b
             end; cbn [shelterSum]; congruence.
  - symmetry. apply (fold_addArea_tier 2 leaveImmediatelySum); [| | reflexivity].
    + intros s e Hp. destruct (Hcases s e) as [[_ ->] | (pc & _ & ->)];
        [reflexivity |].
      destruct (Z.eqb_spec (getActionPriority (action e)) 2); [congruence |].
      repeat match goal with
             | |- context [if ?b then _ else _] => destruct b
             end; reflexivity.
    + intros s s' e Heq.
      destruct (Hcases s e) as [[Hn ->] | (pc & Hpc & ->)];
        destruct (Hcases s' e) as [[Hn' ->] | (pc' & Hpc' & ->)];
        try congruence.
      repeat match goal with
             | |- context [if ?b then _ else _] => destruct b
             end; cbn [leaveImmediatelySum]; congruence.
  - symmetry. apply (fold_addArea_tier 1 leaveSum); [| | reflexivity].
    + intros s e Hp. destruct (Hcases s e) as [[_ ->] | (pc & _ & ->)];
        [reflexivity |].
      destruct (Z.eqb_spec (getActionPriority (action e)) 1); [congruence |].
      repeat match goal with
             | |- context [if ?b then _ else _] => destruct b
             end; reflexivity.
    + intros s s' e Heq.
      destruct (Hcases s e) as [[Hn ->] | (pc & Hpc & ->)];
        destruct (Hcases s' e) as [[Hn' ->] | (pc' & Hpc' & ->)];
        try congruence.
      repeat match goal with
             | |- context [if ?b then _ else _] => destruct b
             end; cbn [leaveSum]; congruence.
  - rewrite fold_addArea_filter; [reflexivity |].
    intros e s Hp. destruct (Hcases s e) as [[_ ->] | (pc & Hpc & ->)];
      [reflexivity |].
    pose proof (getActionPriority_range (action e)) as Hr.
    destruct (Z.eqb_spec (getActionPriority (action e)) 3) as [H3 | H3];
      [exfalso; apply Hp; split; [rewrite Hpc; eauto | lia] |].
    destruct (Z.eqb_spec (getActionPriority (action e)) 2) as [H2 | H2];
      [exfalso; apply Hp; split; [rewrite Hpc; eauto | lia] |].
    destruct (Z.eqb_spec (getActionPriority (action e)) 1) as [H1 | H1];
      [exfalso; apply Hp; split; [rewrite Hpc; eauto | lia] |].
    reflexivity.
Qed.
End AreaFacts.

Section AreaBounds.
Variable turf_area : list Point -> option Q.
Hypothesis turf_area_nonneg :
  forall ring a, turf_area ring = Some a -> (0 <= a)%Q.

Let areaKm2 := calculatePolygonAreaKm2 turf_area.
Let report := calculateFireWarningAreas turf_area.



End AreaBounds.



(** The report on the sample hazards: 4 km2 to shelter in, 16 km2 to leave
    immediately. *)
Example areas_sample :
  (shelterAreaKm2 (calculateFireWarningAreas sampleArea sampleHazards) == 4 /\
   leaveImmediatelyAreaKm2 (calculateFireWarningAreas sampleArea sampleHazards)
     == 16 /\
   leaveAreaKm2 (calculateFireWarningAreas sampleArea sampleHazards) == 0)%Q.
Proof. repeat split; vm_compute; reflexivity. Qed.

(* ===================================================================== *)
(** * Facts about the distance text *)
(* ===================================================================== *)




(** ** The double nearest to a rational *)












(** The doubles nearest to 0.1 and to 1/3; 2^53 + 1 lies halfway between
    two doubles and goes to the even one, 2^53; a whole number of metres
    below 1000 is a double; half of the least subnormal number goes to 0. *)
Example binary64_samples :
  (binary64 (1 # 10) == 3602879701896397 # 36028797018963968)%Q /\
  (binary64 (1 # 3) == 6004799503160661 # 18014398509481984)%Q /\
  (binary64 9007199254740993 == 9007199254740992)%Q /\
  (binary64 250 == 250)%Q /\
  (binary64 (1 # 2 ^ 1075) == 0)%Q.
Proof. repeat split; vm_compute; reflexivity. Qed.




(** The double nearest to 0.0045 km is a little less than 4.5 m, and is
    shown as 5 m: its product with 1000 is rounded to the double 4.5 before
    [Math.round] sees it. 999.6 m is shown as 1000 m. *)
Example formatDistance_product_rounded :
  formatDistance (Fin (5188146770730811 # 1152921504606846976)) = "5m"%string /\
  mathRound ((5188146770730811 # 1152921504606846976) * 1000) = 4 /\
  formatDistance (Fin (2499 # 2500)) = "1000m"%string.
Proof. repeat split; vm_compute; reflexivity. Qed.

(* ===================================================================== *)
(** * Facts about the geometry extraction *)
(* ===================================================================== *)

Lemma findFirst_filter {A : Type} (pred : A -> bool) (l : list A) :
  findFirst pred (filter (fun x => pred x) l) = findFirst pred l.
Proof.
  induction l as [| x l IH]; [reflexivity |].
  rewrite filter_cons. cbn [findFirst].
  destruct (pred x) eqn:Hp; cbn [Is_true decide decide_rel].
  - rewrite decide_True by exact I. cbn [findFirst]. rewrite Hp. reflexivity.
  - rewrite decide_False by tauto. exact IH.
Qed.

(** X18. From a collection the polygon is taken from its first polygon
    member and the point from its first point member, each without regard
    to the other members: members of other types, nested collections among
    them, are passed over, and a first polygon (or point) decides even when
    a later member of the same type is there. *)
Theorem collection_extraction (gs : list Geometry) :
  extractPolygon (GeoCollection (Some gs)) =
    extractPolygon
      (GeoCollection (Some (filter (fun g => isPolygonGeometry g) gs))) /\
  extractCoordinates (GeoCollection (Some gs)) =
    extractCoordinates
      (GeoCollection (Some (filter (fun g => isPointGeometry g) gs))) /\
  (forall g, isPolygonGeometry g = false ->
     extractPolygon (GeoCollection (Some (g :: gs))) =
       extractPolygon (GeoCollection (Some gs))) /\
  (forall g, isPointGeometry g = false ->
     extractCoordinates (GeoCollection (Some (g :: gs))) =
       extractCoordinates (GeoCollection (Some gs))) /\
  (forall c,
     extractPolygon (GeoCollection (Some (GeoPolygon c :: gs))) =
       extractPolygon (GeoPolygon c)) /\
  (forall c,
     extractCoordinates (GeoCollection (Some (GeoPoint c :: gs))) =
       extractCoordinates (GeoPoint c)).
Proof.
  split; [| split; [| split; [| split; [| split]]]].
  - unfold extractPolygon. rewrite findFirst_filter. reflexivity.
  - unfold extractCoordinates. rewrite findFirst_filter. reflexivity.
  - intros g Hg. unfold extractPolygon. cbn [findFirst]. rewrite Hg.
    reflexivity.
  - intros g Hg. unfold extractCoordinates. cbn [findFirst]. rewrite Hg.
    reflexivity.
  - intros [c |]; reflexivity.
  - intros [c |]; reflexivity.
Qed.

(** X18 on the sample collection: the nested polygon is passed over and the
    outer ring of the direct polygon member is taken. *)
Lemma collection_extraction_witness :
  extractPolygon sampleCollection =
    Ok (Some [pt 0 0; pt 4 0; pt 0 4; pt 0 0]) /\
  extractCoordinates sampleCollection = Some (pt 1 1).
Proof.
  destruct (collection_extraction
              [GeoCollection (Some [GeoPolygon (Some [[pos 9 9; pos 9 8; pos 8 9]])]);
               GeoPolygon (Some [[pos 0 0; pos 4 0; pos 0 4; pos 0 0];
                                 [pos 1 1; pos 2 1; pos 1 2; pos 1 1]])])
    as (_ & _ & H1 & _ & _ & H2).
  split.
  - unfold sampleCollection. rewrite (H1 (GeoPoint (Some (pos 1 1))) eq_refl).
    reflexivity.
  - unfold sampleCollection. rewrite H2. reflexivity.
Defined.

Lemma outerRing_Some (coordinates : list (list Position)) (ring : list Point) :
  outerRing coordinates = Ok (Some ring) <->
  exists outer holes, coordinates = outer :: holes /\ ring = map toPoint outer.
Proof.
  destruct coordinates as [| outer holes]; simpl.
  - split; [discriminate | intros (o & h & H & _); discriminate].
  - split.
    + intros H. injection H as <-. eauto.
    + intros (o & h & H & ->). injection H as -> _. reflexivity.
Qed.

(** X19. The event made of a feature keeps the feature's id, name, location,
    [updated] and action; its polygon, when there is one, is the outer ring
    of the polygon found, position by position with only longitude and
    latitude kept, and holes are dropped; so the event can be ranked exactly
    when that outer ring has at least 3 positions. *)
Theorem mapFeature_polygon (feature : Feature.t) (m : MappedEvent) :
  mapFeature feature = Ok m ->
  id (mappedEvent m) = id (Feature.properties feature) /\
  name (mappedEvent m) = name (Feature.properties feature) /\
  location (mappedEvent m) = location (Feature.properties feature) /\
  updated (mappedEvent m) = updated (Feature.properties feature) /\
  action (mappedEvent m) = action (Feature.properties feature) /\
  mappedCoordinates m = extractCoordinates (Feature.geometry feature) /\
  (forall ring, polygon (mappedEvent m) = Some ring ->
     exists outer holes,
       (Feature.geometry feature = GeoPolygon (Some (outer :: holes)) \/
        exists gs, Feature.geometry feature = GeoCollection (Some gs) /\
          findFirst isPolygonGeometry gs
            = Some (GeoPolygon (Some (outer :: holes)))) /\
       ring = map toPoint outer /\ length ring = length outer) /\
  (hasUsablePolygon (mappedEvent m) = true <->
   exists ring, extractPolygon (Feature.geometry feature) = Ok (Some ring) /\
                (3 <= length ring)%nat).
Proof.
  unfold mapFeature. intros H.
  destruct (extractPolygon (Feature.geometry feature)) as [poly | msg] eqn:Hp;
    [| discriminate].
  injection H as <-. cbn [mappedEvent mappedCoordinates id name location
                            updated action polygon].
  repeat split; try reflexivity.
  - intros ring ->. unfold extractPolygon in Hp.
    destruct (Feature.geometry feature) as [c | [c |] | [gs |] | ty];
      try discriminate.
    + apply outerRing_Some in Hp as (outer & holes & -> & ->).
      exists outer, holes. rewrite length_map. auto.
    + destruct (findFirst isPolygonGeometry gs) as [[c | [c |] | g | ty] |] eqn:Hf;
        try discriminate.
      apply outerRing_Some in Hp as (outer & holes & -> & ->).
      exists outer, holes. rewrite length_map. split; [| auto].
      right. exists gs. auto.
  - intros Hu. apply hasUsablePolygon_spec in Hu as (pc & Hpc & Hlen).
    cbn [polygon] in Hpc. subst poly. eauto.
  - intros (ring & Heq & Hlen). injection Heq as ->.
    apply hasUsablePolygon_spec. exists ring. auto.
Qed.

(** X19 on the sample feature. *)
Lemma mapFeature_polygon_witness :
  exists m, mapFeature sampleFeature = Ok m /\
    id (mappedEvent m) = IdString "H3" /\
    hasUsablePolygon (mappedEvent m) = true.
Proof.
  eexists. split; [reflexivity |].
  destruct (mapFeature_polygon sampleFeature _ eq_refl)
    as (H1 & _ & _ & _ & _ & _ & _ & H2).
  split; [exact H1 |]. apply H2.
  exists [pt 0 0; pt 4 0; pt 0 4; pt 0 0]. split; [reflexivity | simpl; lia].
Defined.

Lemma mapFeatures_Ok (features : list Feature.t) (es : list MappedEvent) :
  mapFeatures features = Ok es ->
  Forall2 (fun f e => mapFeature f = Ok e) features es.
Proof.
  revert es. induction features as [| f features IH]; intros es H.
  - injection H as <-. constructor.
  - cbn [mapFeatures] in H. destruct (mapFeature f) as [e | msg] eqn:Hf;
      [| discriminate].
    destruct (mapFeatures features) as [es' | msg]; [| discriminate].
    injection H as <-. constructor; [exact Hf | apply IH; reflexivity].
Qed.

(** X20. The features are mapped all or none: when the call succeeds it
    yields one event per feature, in order; and one feature whose polygon
    has an empty list of rings, alone or as the first polygon of a
    collection, makes the whole call throw, whatever the other features
    are. *)
Theorem mapFeatures_all_or_none (features : list Feature.t) :
  (forall es, mapFeatures features = Ok es ->
     length es = length features /\
     Forall2 (fun f e => mapFeature f = Ok e) features es) /\
  (forall f, f ∈ features -> (exists msg, mapFeature f = Err msg) ->
     exists msg, mapFeatures features = Err msg) /\
  (forall f, Feature.geometry f = GeoPolygon (Some []) ->
     exists msg, mapFeature f = Err msg) /\
  (forall f gs, Feature.geometry f = GeoCollection (Some gs) ->
     findFirst isPolygonGeometry gs = Some (GeoPolygon (Some [])) ->
     exists msg, mapFeature f = Err msg).
Proof.
  split; [| split; [| split]].
  - intros es H. apply mapFeatures_Ok in H. split; [| exact H].
    symmetry. eapply Forall2_length, H.
  - intros f Hf [msg Hmsg].
    destruct (mapFeatures features) as [es | msg'] eqn:Hes; [| eauto].
    exfalso. apply mapFeatures_Ok in Hes.
    apply list_elem_of_lookup in Hf as [i Hi].
    destruct (Forall2_lookup_l _ _ _ _ _ Hes Hi) as (e & _ & He).
    congruence.
  - intros f Hg. unfold mapFeature. rewrite Hg. simpl. eauto.
  - intros f gs Hg Hf. unfold mapFeature. rewrite Hg. simpl. rewrite Hf.
    simpl. eauto.
Qed.

(** X20 on two features, the second of which has a polygon without
    rings. *)
Lemma mapFeatures_all_or_none_witness :
  exists msg, mapFeatures [sampleFeature; brokenFeature] = Err msg.
Proof.
  destruct (mapFeatures_all_or_none [sampleFeature; brokenFeature])
    as (_ & H & H' & _).
  apply (H brokenFeature); [right; left |].
  apply H'. reflexivity.
Defined.

(* ===================================================================== *)
(** * Facts about the fire events *)
(* ===================================================================== *)

(** The stable sort sorts a list for a comparator that is consistent on the
    elements of the list. *)
Section SortOn.
Context {A : Type} (cmp : A -> A -> comparison) (le : A -> A -> Prop)
        (P : A -> Prop).
Hypothesis cmp_le : forall x y, P x -> P y -> cmp x y <> Gt -> le x y.
Hypothesis cmp_gt : forall x y, P x -> P y -> cmp x y = Gt -> le y x.
Hypothesis le_trans :
  forall x y z, P x -> P y -> P z -> le x y -> le y z -> le x z.


End SortOn.








(** X22. The fire warnings are the fire events whose feed type is
    "warning", in the order of the fire events; an event is among them
    exactly when it is in the feed, is fire-related and is a warning; and
    the two totals add up to the number of fire events, the incidents being
    those that are not warnings. *)
Theorem fireWarnings_spec (events : list FeedEvent.t) :
  sublist (fireWarnings events) (fireEvents events) /\
  (forall e, e ∈ fireWarnings events <->
     e ∈ events /\ isFireRelated e = true /\
     FeedEvent.feedType e = Some "warning"%string) /\
  (totalWarnings events + totalIncidents events = length (fireEvents events))%nat /\
  totalIncidents events =
    length (filter (fun e => ~ isWarning e) (fireEvents events)) /\
  (length (fireEvents events) <= length events)%nat.
Proof.
  unfold totalWarnings, totalIncidents, fireWarnings.
  assert (Hperm : Permutation (fireEvents events)
                    (filter (fun e => isFireRelated e) events))
    by apply sort_perm.
  assert (Hlen : (length (filter (fun e => isWarning e) (fireEvents events))
                  + length (filter (fun e => ~ isWarning e) (fireEvents events))
                  = length (fireEvents events))%nat).
  { rewrite <- length_app.
    apply Permutation_length, filter_app_complement. }
  split; [apply sublist_filter |]. split; [| split; [| split]].
  - intros e. rewrite list_elem_of_filter.
    assert (Hin : e ∈ fireEvents events <->
                  e ∈ events /\ isFireRelated e = true).
    { rewrite Hperm, list_elem_of_filter, Is_true_true. tauto. }
    rewrite Hin. unfold isWarning. rewrite bool_decide_spec. tauto.
  - lia.
  - lia.
  - rewrite (Permutation_length Hperm). apply length_filter.
Qed.

(** X22 on the sample feed: one warning and one incident. *)
Lemma fireWarnings_spec_witness :
  feedShelter ∈ fireWarnings sampleFeed /\
  totalWarnings sampleFeed = 1%nat /\ totalIncidents sampleFeed = 1%nat.
Proof.
  destruct (fireWarnings_spec sampleFeed) as (_ & H & _).
  split; [| split; vm_compute; reflexivity].
  apply H. split; [right; right; left |]. split; vm_compute; reflexivity.
Defined.

Lemma includesOpt_spec (text : option string) (search : string) :
  includesOpt text search = true <->
  exists s, text = Some s /\ Contains s search.
Proof.
  destruct text as [s |]; simpl.
  - rewrite includes_spec. split; [eauto |].
    intros (s' & Heq & H). injection Heq as ->. exact H.
  - split; [discriminate | intros (s & Heq & _); discriminate].
Qed.

Lemma Contains_trans (s mid search : string) :
  Contains s mid -> Contains mid search -> Contains s search.
Proof.
  intros (p1 & q1 & ->) (p2 & q2 & ->).
  exists (p1 +:+ p2), (q2 +:+ q1).
  assert (Happ : forall a b c : string, (a +:+ b) +:+ c = a +:+ (b +:+ c)).
  { intros a b c. induction a as [| x a IH]; [reflexivity |].
    change (String x ((a +:+ b) +:+ c) = String x (a +:+ b +:+ c)).
    f_equal. exact IH. }
  rewrite !Happ. reflexivity.
Qed.

(** X23. An event is fire-related exactly when its CAP category is "Fire",
    or its first category contains "Fire" or "Burn", or its second category
    contains "Fire" or "Bushfire", or its name contains "fire" in any
    letter case. The test of the second category for "Grass Fire" never
    decides, and the category tests are case-sensitive. *)
Theorem isFireRelated_spec (e : FeedEvent.t) :
  isFireRelated e = true <->
  FeedEvent.capCategory e = Some "Fire"%string \/
  (exists c, FeedEvent.category1 e = Some c /\
             (Contains c "Fire" \/ Contains c "Burn")) \/
  (exists c, FeedEvent.category2 e = Some c /\
             (Contains c "Fire" \/ Contains c "Bushfire")) \/
  Contains (toLowerCase (name (FeedEvent.core e))) "fire".
Proof.
  unfold isFireRelated.
  rewrite !orb_true_iff, bool_decide_eq_true, !includesOpt_spec, includes_spec.
  split.
  - intros [[[[[[H | H] | H] | H] | H] | H] | H]; auto.
    + destruct H as (c & Hc & H). right. left. eauto.
    + destruct H as (c & Hc & H). right. right. left. eauto.
    + destruct H as (c & Hc & H). right. right. left. eauto.
    + destruct H as (c & Hc & H). right. right. left. exists c.
      split; [exact Hc |]. left.
      apply (Contains_trans c "Grass Fire" "Fire"); [exact H |].
      exists "Grass "%string, EmptyString. reflexivity.
    + destruct H as (c & Hc & H). right. left. eauto.
  - intros [H | [(c & Hc & [H | H]) | [(c & Hc & [H | H]) | H]]]; eauto 10.
Qed.

(** X23 on an event that only its name, in capitals, makes fire-related. *)
Lemma isFireRelated_spec_witness :
  isFireRelated
    {| FeedEvent.core :=
         {| id := IdNumber 9; name := "BUSHFIRE ADVICE"; location := "Omeo";
            updated := "2024-01-05T01:00:00Z"; action := None;
            polygon := None |};
       FeedEvent.feedType := None; FeedEvent.category1 := None;
       FeedEvent.category2 := Some "bushfire"%string;
       FeedEvent.status := None; FeedEvent.capCategory := None;
       FeedEvent.capSeverity := None |} = true.
Proof.
  apply isFireRelated_spec. right. right. right.
  apply includes_spec. vm_compute. reflexivity.
Defined.

(* ===================================================================== *)
(** * Facts about colours and relative times *)
(* ===================================================================== *)

(** X24. The colour of an event with an action of priority 1 or more
    depends on that priority alone; and the colour tells the action tier,
    and for an event without such an action whether it is an incident: two
    events of the same colour have the same action priority and, at
    priority 0, are both incidents or both not. *)
Theorem getActionColor_reads
    (action severity status feedType : option string)
    (action' severity' status' feedType' : option string) :
  (1 <= getActionPriority action ->
   getActionPriority action = getActionPriority action' ->
   getActionColor action severity status feedType =
     getActionColor action' severity' status' feedType') /\
  (getActionColor action severity status feedType =
     getActionColor action' severity' status' feedType' ->
   getActionPriority action = getActionPriority action' /\
   (getActionPriority action = 0 ->
    isIncidentType feedType = isIncidentType feedType')).
Proof.
  pose proof (getActionPriority_range action) as Hr.
  pose proof (getActionPriority_range action') as Hr'.
  unfold getActionColor. split.
  - intros H1 <-.
    destruct (Z.leb_spec 3 (getActionPriority action)); [reflexivity |].
    destruct (Z.leb_spec 2 (getActionPriority action)); [reflexivity |].
    destruct (Z.leb_spec 1 (getActionPriority action)); [reflexivity | lia].
  - destruct (Z.leb_spec 3 (getActionPriority action)),
             (Z.leb_spec 3 (getActionPriority action'));
      [intros _; split; lia | | |].
    all: destruct (Z.leb_spec 2 (getActionPriority action)),
                  (Z.leb_spec 2 (getActionPriority action'));
      try (intros _; split; lia).
    all: destruct (Z.leb_spec 1 (getActionPriority action)),
                  (Z.leb_spec 1 (getActionPriority action'));
      try (intros _; split; lia).
    all: destruct (isIncidentType feedType), (isIncidentType feedType');
      repeat match goal with
             | |- context [if ?b then _ else _] => destruct b
             end;
      intros Hcol; try discriminate Hcol; (split; [lia | reflexivity]).
Qed.

(** X24 on a warning and an incident that both say "Leave Immediately". *)
Lemma getActionColor_reads_witness :
  getActionColor (Some "Leave Immediately"%string) (Some "Extreme"%string)
    None (Some "warning"%string)
  = getActionColor (Some "leave immediately now"%string) None None
      (Some "incident"%string).
Proof.
  destruct (getActionColor_reads
              (Some "Leave Immediately"%string) (Some "Extreme"%string)
              None (Some "warning"%string)
              (Some "leave immediately now"%string) None None
              (Some "incident"%string)) as [H _].
  apply H; vm_compute; [discriminate | reflexivity].
Defined.

(** X25. The relative time of a date less than a minute in the past, or in
    the future, is "Just now"; after that it is a whole number of minutes
    from 1 to 59, then of hours from 1 to 23, then of days from 1 on, each
    rounded down. *)
Theorem formatTimeAgo_ranges (date now : Z) :
  (now - date < 60000 -> formatTimeAgo date now = "Just now"%string) /\
  (60000 <= now - date < 3600000 ->
     exists n, formatTimeAgo date now = String.append (pretty n) "m ago" /\
       1 <= n <= 59 /\ n * 60000 <= now - date < (n + 1) * 60000) /\
  (3600000 <= now - date < 86400000 ->
     exists n, formatTimeAgo date now = String.append (pretty n) "h ago" /\
       1 <= n <= 23 /\ n * 3600000 <= now - date < (n + 1) * 3600000) /\
  (86400000 <= now - date ->
     exists n, formatTimeAgo date now = String.append (pretty n) "d ago" /\
       1 <= n /\ n * 86400000 <= now - date < (n + 1) * 86400000).
Proof.
  unfold formatTimeAgo. set (d := now - date).
  pose proof (Z.div_mod d 60000 ltac:(lia)) as Hm.
  pose proof (Z.mod_pos_bound d 60000 ltac:(lia)) as Hm'.
  pose proof (Z.div_mod d 3600000 ltac:(lia)) as Hh.
  pose proof (Z.mod_pos_bound d 3600000 ltac:(lia)) as Hh'.
  pose proof (Z.div_mod d 86400000 ltac:(lia)) as Hd.
  pose proof (Z.mod_pos_bound d 86400000 ltac:(lia)) as Hd'.
  split; [| split; [| split]].
  - intros H. destruct (Z.ltb_spec (d / 60000) 1); [reflexivity | lia].
  - intros H. destruct (Z.ltb_spec (d / 60000) 1); [lia |].
    destruct (Z.ltb_spec (d / 60000) 60); [| lia].
    exists (d / 60000). split; [reflexivity | lia].
  - intros H. destruct (Z.ltb_spec (d / 60000) 1); [lia |].
    destruct (Z.ltb_spec (d / 60000) 60); [lia |].
    destruct (Z.ltb_spec (d / 3600000) 24); [| lia].
    exists (d / 3600000). split; [reflexivity | lia].
  - intros H. destruct (Z.ltb_spec (d / 60000) 1); [lia |].
    destruct (Z.ltb_spec (d / 60000) 60); [lia |].
    destruct (Z.ltb_spec (d / 3600000) 24); [lia |].
    exists (d / 86400000). split; [reflexivity | lia].
Qed.

(** X25 at a date 90 minutes before now. *)
Lemma formatTimeAgo_ranges_witness :
  exists n, formatTimeAgo 1700000000000 1700005400000
            = String.append (pretty n) "h ago" /\ 1 <= n <= 23.
Proof.
  destruct (formatTimeAgo_ranges 1700000000000 1700005400000)
    as (_ & _ & H & _).
  destruct (H ltac:(lia)) as (n & H1 & H2 & _).
  exists n. split; assumption.
Defined.

(* ===================================================================== *)
(** * Facts about the location panel, the location hook and the banner *)
(* ===================================================================== *)

(** X26. With a location, the status of the panel is the severity of the
    recommendation it shows, and safe exactly when it shows none; without a
    location it is disabled. An inside result is always critical, and is
    told to shelter whenever its action mentions it. *)
Theorem panelStatus_recommendation (coordinates : option Point)
    (nearestDanger : option ProximityResult) :
  (coordinates = None -> panelStatus coordinates nearestDanger = StatusDisabled) /\
  (is_Some coordinates ->
     panelStatus coordinates nearestDanger =
       match getActionRecommendation nearestDanger with
       | Some r => Recommendation.severity r
       | None => StatusSafe
       end) /\
  (forall r, getActionRecommendation nearestDanger = Some r ->
     Recommendation.severity r <> StatusSafe /\
     Recommendation.severity r <> StatusDisabled) /\
  (forall n, nearestDanger = Some n -> isInside n = true ->
     exists r, getActionRecommendation nearestDanger = Some r /\
       Recommendation.severity r = StatusCritical /\
       (Contains (actionText (event n)) "shelter" ->
        Recommendation.text r = "Shelter in place immediately"%string)).
Proof.
  split; [intros ->; reflexivity |]. split; [| split].
  - intros [p ->]. unfold panelStatus, getActionRecommendation.
    destruct nearestDanger as [n |]; [| reflexivity].
    repeat match goal with
           | |- context [if ?b then _ else _] => destruct b
           end; reflexivity.
  - intros r. unfold getActionRecommendation.
    destruct nearestDanger as [n |]; [| discriminate].
    repeat match goal with
           | |- context [if ?b then _ else _] => destruct b
           end; intros H; try discriminate H; injection H as <-;
      split; discriminate.
  - intros n -> Hin. unfold getActionRecommendation. rewrite Hin.
    fold (actionText (event n)).
    destruct (includes (actionText (event n)) "shelter") eqn:Hs.
    + eexists. split; [reflexivity |]. split; reflexivity.
    + apply includes_false in Hs.
      destruct (includes (actionText (event n)) "leave");
        eexists; (split; [reflexivity |]); split;
        try reflexivity; intros Hc; contradiction.
Qed.

(** X26 at the sample result the location is inside of. *)
Lemma panelStatus_recommendation_witness :
  panelStatus (Some (pt 1 1))
    (Some (toProximity sampleDistance sampleInside (pt 1 1) hazardH1))
  = StatusCritical.
Proof.
  destruct (panelStatus_recommendation (Some (pt 1 1))
              (Some (toProximity sampleDistance sampleInside (pt 1 1) hazardH1)))
    as (_ & H & _).
  rewrite H by eauto. vm_compute. reflexivity.
Defined.

Lemma geoRun_from (isSupported : bool) (evs : list GeoEvent)
    (st : Geolocation.t) (seen : option GeoFix) :
  Geolocation.coordinates st
    = (fun p => (longitude p, latitude p)) <$> seen ->
  Geolocation.coordinates (fold_left (geoStep isSupported) evs st)
    = (fun p => (longitude p, latitude p)) <$> lastFix evs seen /\
  Geolocation.supported (fold_left (geoStep isSupported) evs st)
    = Geolocation.supported st.
Proof.
  revert st seen. induction evs as [| ev evs IH]; intros st seen Hst.
  - split; [exact Hst | reflexivity].
  - cbn [fold_left lastFix]. destruct ev as [p | err |]; cbn [geoStep].
    + destruct (IH (handleSuccess p st) (Some p) eq_refl) as [H1 H2].
      split; [exact H1 | exact H2].
    + destruct (IH (handleError err st) seen Hst) as [H1 H2].
      split; [exact H1 | exact H2].
    + assert (Hreq : Geolocation.coordinates (requestPermission isSupported st)
                     = Geolocation.coordinates st /\
                     Geolocation.supported (requestPermission isSupported st)
                     = Geolocation.supported st).
      { unfold requestPermission. destruct isSupported; split; reflexivity. }
      destruct Hreq as [Hc Hs].
      destruct (IH (requestPermission isSupported st) seen) as [H1 H2];
        [rewrite Hc; exact Hst |].
      split; [exact H1 | rewrite H2; exact Hs].
Qed.

(** X27. Whatever positions, errors and requests a run of the location
    hook sees, its coordinates are those of the last position received, an
    error or a request never clears them, and there are none before the
    first position; and [supported] stays as it started. *)
Theorem geoRun_coordinates (isSupported : bool) (evs : list GeoEvent) :
  Geolocation.coordinates (geoRun isSupported evs)
    = (fun p => (longitude p, latitude p)) <$> lastFix evs None /\
  Geolocation.supported (geoRun isSupported evs) = isSupported /\
  (forall err,
     Geolocation.coordinates (geoRun isSupported (evs ++ [GotError err]))
       = Geolocation.coordinates (geoRun isSupported evs)) /\
  Geolocation.coordinates
    (geoRun isSupported (evs ++ [Requested]))
    = Geolocation.coordinates (geoRun isSupported evs).
Proof.
  unfold geoRun.
  destruct (geoRun_from isSupported evs (initialGeolocation isSupported) None
              eq_refl) as [H1 H2].
  split; [exact H1 |]. split; [rewrite H2; reflexivity |]. split.
  - intros err. rewrite fold_left_app. reflexivity.
  - rewrite fold_left_app. cbn [fold_left geoStep].
    unfold requestPermission. destruct isSupported; reflexivity.
Qed.





(* ===================================================================== *)
(** * More about the fetch client and the polling driver *)
(* ===================================================================== *)

Section ClientMore.
Variable network : nat -> string -> FetchOutcome.

(** A first attempt that succeeds ends [fetchWithRetry] after one call. *)
Lemma fetchWithRetry_first (url : string) (w : World) (r : Response) :
  network (calls w) url = Resolved r -> ok r = true ->
  fetchWithRetry network url DEFAULT_RETRIES w =
    (Ok r, {| calls := S (calls w); trace := trace w ++ [Fetched url] |}).
Proof.
  intros Hnet Hok. unfold fetchWithRetry, DEFAULT_RETRIES. cbn [retryFrom].
  unfold tryCatch. rewrite (attempt_success network url w r); [reflexivity |].
  unfold success. rewrite Hnet, Hok. reflexivity.
Qed.

(** X29. A response that is [ok] ends [getEvents] after a single call,
    whatever its body: the events it carries are returned, an empty list
    among them, and a body that does not parse makes the call throw at once;
    the retries are for failed fetches only. *)
Theorem getEvents_single_call (w : World) (r : Response) :
  network (calls w) eventsUrl = Resolved r -> ok r = true ->
  snd (getEvents network w) =
    {| calls := S (calls w); trace := trace w ++ [Fetched eventsUrl] |} /\
  (forall evs, body r = EventsPayload evs ->
     fst (getEvents network w) = Ok evs) /\
  (body r = Unparsable -> exists msg, fst (getEvents network w) = Err msg).
Proof.
  intros Hnet Hok. unfold getEvents, bind.
  rewrite (fetchWithRetry_first eventsUrl w r Hnet Hok).
  split; [destruct (body r); reflexivity |]. split.
  - intros evs ->. reflexivity.
  - intros ->. eexists. reflexivity.
Qed.

(** X30. A poll that finds the hash it already knows changes nothing and
    asks for nothing but the delta document: the events are not fetched
    again. *)
Theorem pollTick_skips_unchanged (now : Z) (s : FireState) (w : World)
    (r : Response) (d : EmergencyDeltaResponse) :
  pollingActive s = true ->
  network (calls w) deltaUrl = Resolved r -> ok r = true ->
  body r = DeltaPayload d ->
  lastKnownHash s = Some (lastHash d) ->
  pollTick network now s w =
    (s, {| calls := S (calls w); trace := trace w ++ [Fetched deltaUrl] |}).
Proof.
  intros Hactive Hnet Hok Hbody Hhash. unfold pollTick. rewrite Hactive.
  apply (checkForUpdates_unchanged network now s w _ d); [| exact Hhash].
  unfold getDelta, bind.
  rewrite (fetchWithRetry_first deltaUrl w r Hnet Hok), Hbody. reflexivity.
Qed.
End ClientMore.

(** X29 on a network that serves an empty event collection. *)
Lemma getEvents_single_call_witness :
  fst (getEvents
         (fun _ _ => Resolved {| ok := true; status := 200; statusText := "OK";
                                 body := EventsPayload [] |})
         freshWorld) = Ok [].
Proof.
  destruct (getEvents_single_call
              (fun _ _ => Resolved {| ok := true; status := 200;
                                      statusText := "OK";
                                      body := EventsPayload [] |})
              freshWorld _ eq_refl eq_refl) as (_ & H & _).
  apply H. reflexivity.
Defined.

(** X30 on the driver that has loaded the hash "h1" from a network that
    still serves it. *)
Lemma pollTick_skips_unchanged_witness :
  trace
    (snd (pollTick staleNetwork 1700000015000
            (fst (init staleNetwork 1700000000000 initialFireState freshWorld))
            freshWorld))
  = [Fetched deltaUrl].
Proof.
  rewrite (pollTick_skips_unchanged staleNetwork 1700000015000
             (fst (init staleNetwork 1700000000000 initialFireState freshWorld))
             freshWorld
             {| ok := true; status := 200; statusText := "OK";
                body := DeltaPayload
                          {| lastModified := "2024-01-05T04:00:00Z";
                             lastHash := "h1" |} |}
             {| lastModified := "2024-01-05T04:00:00Z"; lastHash := "h1" |});
    vm_compute; reflexivity.
Defined.
